(** * Google Analytics relay: OAuth token lifecycle and query dispatch

    A shallow embedding of the two deployable variants of the relay
    ([src/index.ts], the direct-store variant, and the bridge variant that
    hands tokens to an external endpoint) together with the platform
    functions they call ([JSON.stringify], [JSON.parse], [Buffer] base64 and
    UTF-8 conversion, template literals, [||] and [&&]).

    The handlers are written in a small state-and-exception monad over a
    [World] that holds the credential store, the shared OAuth client and the
    trace of external calls.  The identity provider, the analytics API and the
    bridge are oracles of an environment [Env]; the credential store is a
    table of rows whose operations can be made to fail by the environment.

    Extent of the model.  A number in a JSON value is a double, parsed and
    printed as the language does; the clock and the expiry of a token set are
    integers (epoch milliseconds).  A query parameter is a string or absent
    (repeated and bracketed parameters, which the framework turns into arrays
    and objects, are left out).  The token set has the three fields the program
    reads, typed as the OAuth client library types them.  A request body is the
    object the JSON body parser produced.  One request is handled at a
    time. *)

From Stdlib Require Import ZArith List String Ascii Bool Lia DecimalString.
Import ListNotations.
Open Scope Z_scope.
Set Warnings "-register-all".

(** ** JavaScript values *)

Module Js.

(** A JavaScript string is a sequence of UTF-16 code units. *)
Definition JsString := list Z.

(** The code units of an ASCII source literal. *)
Definition lit (s : string) : JsString :=
  map (fun a => Z.of_N (N_of_ascii a)) (list_ascii_of_string s).
Arguments lit : simpl never.

Fixpoint str_eqb (a b : JsString) : bool :=
  match a, b with
  | [], [] => true
  | x :: a', y :: b' => (x =? y) && str_eqb a' b'
  | _, _ => false
  end.

(** The values that JSON bodies, parsed state tokens and query parameters
    range over.  A number is a double: [JNum n] is the Number value of the
    integer [n] (the double nearest to [n]; [n] itself up to [2 ^ 53]),
    [JFrac m e] the double [m / 2 ^ e] that is not an integer ([m] odd,
    [0 < e]) and [JInf] one of the two infinities, which [JSON.parse] returns
    for a literal beyond the largest double.  Negative zero is [JNum 0]: it
    prints, compares and converts to a boolean as zero does.  No JSON text
    denotes NaN and the program does no arithmetic.  The properties of an
    object are kept in insertion order. *)
Inductive JsVal :=
| JUndefined
| JNull
| JBool (b : bool)
| JNum (n : Z)
| JStr (s : JsString)
| JArr (items : list JsVal)
| JObj (props : list (JsString * JsVal))
| JFrac (m e : Z)
| JInf (negative : bool).

(** An [Error] instance, as thrown by the runtime and by the client
    libraries, or returned in the [error] field of a store result. *)
Record JsError := mkError { err_name : JsString; err_message : JsString }.

Definition TypeError (m : string) : JsError := mkError (lit "TypeError") (lit m).
Definition SyntaxError (m : string) : JsError := mkError (lit "SyntaxError") (lit m).

(** The result of evaluating an expression that may throw. *)
Inductive Res (A : Type) :=
| Ok (a : A)
| Throw (e : JsError).
Arguments Ok {A} a.
Arguments Throw {A} e.

Definition res_bind {A B} (r : Res A) (k : A -> Res B) : Res B :=
  match r with
  | Ok a => k a
  | Throw e => Throw e
  end.

(** [ToBoolean]. *)
Definition truthy (v : JsVal) : bool :=
  match v with
  | JUndefined | JNull => false
  | JBool b => b
  | JNum n => negb (n =? 0)
  | JStr s => match s with [] => false | _ => true end
  | JArr _ | JObj _ => true
  | JFrac m _ => negb (m =? 0)
  | JInf _ => true
  end.

(** [a || b] on values. *)
Definition js_or (a b : JsVal) : JsVal := if truthy a then a else b.

Fixpoint lookup (k : JsString) (props : list (JsString * JsVal)) : option JsVal :=
  match props with
  | [] => None
  | (k', v) :: rest => if str_eqb k k' then Some v else lookup k rest
  end.

Definition has_own (k : JsString) (props : list (JsString * JsVal)) : bool :=
  match lookup k props with Some _ => true | None => false end.

(** Assignment of a property: an existing key keeps its position. *)
Fixpoint obj_set (k : JsString) (v : JsVal) (props : list (JsString * JsVal))
  : list (JsString * JsVal) :=
  match props with
  | [] => [(k, v)]
  | (k', v') :: rest =>
      if str_eqb k k' then (k, v) :: rest else (k', v') :: obj_set k v rest
  end.

(** Property read [v.k], also the reads of a destructuring pattern
    [const { k } = v].  Reading from [undefined] or [null] throws; the names
    this program reads are never inherited or built-in properties, so on every
    other value the read is a lookup among the own properties. *)
Definition own (k : string) (props : list (JsString * JsVal)) : JsVal :=
  match lookup (lit k) props with
  | Some x => x
  | None => JUndefined
  end.

Definition get_prop (v : JsVal) (k : string) : Res JsVal :=
  match v with
  | JUndefined =>
      Throw (TypeError "Cannot read properties of undefined")
  | JNull =>
      Throw (TypeError "Cannot read properties of null")
  | JObj props => Ok (own k props)
  | _ => Ok JUndefined
  end.

(** *** Doubles and their decimal form *)

(** [floor (log2 (p / q))] for positive [p] and [q]. *)
Definition floor_log2 (p q : Z) : Z :=
  let est := Z.log2 p - Z.log2 q in
  if (if 0 <=? est then q * 2 ^ est <=? p else q <=? p * 2 ^ (- est))
  then est else est - 1.

(** The integer nearest to [p / q], a tie going to the even one. *)
Definition round_half_even (p q : Z) : Z :=
  let f := p / q in
  let r := 2 * (p mod q) in
  if r <? q then f
  else if q <? r then f + 1
  else if Z.even f then f else f + 1.

(** The double nearest to the positive fraction [p / q], as [(m, e)] with
    value [m * 2 ^ e]: [2 ^ 52 <= m < 2 ^ 53] for a normal number,
    [e = -1074] and a smaller [m] for a subnormal one or zero.  [None] is an
    overflow, the infinity. *)
Definition nearest_double (p q : Z) : option (Z * Z) :=
  let e := Z.max (floor_log2 p q - 52) (-1074) in
  let m := if 0 <=? e then round_half_even p (q * 2 ^ e)
           else round_half_even (p * 2 ^ (- e)) q in
  let '(m, e) := if m =? 2 ^ 53 then (2 ^ 52, e + 1) else (m, e) in
  if 971 <? e then None else Some (m, e).

(** The decimal digits of a natural number. *)
Definition digits (n : Z) : JsString :=
  lit (NilZero.string_of_uint (N.to_uint (Z.to_N n))).

Definition num_digits (n : Z) : Z := Z.of_nat (List.length (digits n)).

(** [n] with [10 ^ (n - 1) <= p / q < 10 ^ n], for positive [p] and [q]. *)
Definition magnitude (p q : Z) : Z :=
  let d := num_digits p - num_digits q in
  if (if 0 <=? d then q * 10 ^ d <=? p else q <=? p * 10 ^ (- d))
  then d + 1 else d.

(** Whether the decimal [s * 10 ^ scale] rounds to the double [d]. *)
Definition rounds_to (d : Z * Z) (s scale : Z) : bool :=
  match (if 0 <=? scale then nearest_double (s * 10 ^ scale) 1
         else nearest_double s (10 ^ (- scale))) with
  | Some (m, e) => (m =? fst d) && (e =? snd d)
  | None => false
  end.

(** The shortest decimal that rounds to the double [d], whose exact value is
    [p / q] and whose magnitude is [n]: for [k = 1, 2, ...] digits the two
    [k]-digit decimals around [p / q] are tried, and of two that both round
    to [d] the nearer one is taken.  The result is [(s, scale)], the decimal
    [s * 10 ^ scale]. *)
Fixpoint shortest (fuel : nat) (d : Z * Z) (p q n k : Z) : Z * Z :=
  let scale := n - k in
  let f := if 0 <=? scale then p / (q * 10 ^ scale)
           else (p * 10 ^ (- scale)) / q in
  let lo := rounds_to d f scale in
  let hi := rounds_to d (f + 1) scale in
  let lo_nearer :=
    if 0 <=? scale then 2 * p <=? (2 * f + 1) * 10 ^ scale * q
    else 2 * p * 10 ^ (- scale) <=? (2 * f + 1) * q in
  if lo && (negb hi || lo_nearer) then (f, scale)
  else if hi then (f + 1, scale)
  else match fuel with
       | O => (f, scale)
       | S fuel' => shortest fuel' d p q n (k + 1)
       end.

Fixpoint strip_zeros (ds : JsString) : JsString :=
  match ds with
  | [] => []
  | c :: r =>
      match strip_zeros r with
      | [] => if c =? 48 then [] else [c]
      | r' => c :: r'
      end
  end.

(** [Number::toString] for a positive finite double: with [k] digits and
    the decimal point after the [n]-th, plain notation for
    [-6 < n <= 21] and exponent notation otherwise. *)
Definition double_text (d : Z * Z) : JsString :=
  let '(m, e) := d in
  let '(p, q) := if 0 <=? e then (m * 2 ^ e, 1) else (m, 2 ^ (- e)) in
  let '(s, scale) := shortest 16 d p q (magnitude p q) 1 in
  let ds := strip_zeros (digits s) in
  let k := Z.of_nat (List.length ds) in
  let n := num_digits s + scale in
  if (k <=? n) && (n <=? 21) then ds ++ repeat 48 (Z.to_nat (n - k))
  else if (0 <? n) && (n <=? 21)
  then firstn (Z.to_nat n) ds ++ 46 :: skipn (Z.to_nat n) ds
  else if (-6 <? n) && (n <=? 0)
  then 48 :: 46 :: repeat 48 (Z.to_nat (- n)) ++ ds
  else
    let exponent :=
      101 :: (if n - 1 <? 0 then 45 else 43) :: digits (Z.abs (n - 1)) in
    match ds with
    | [] => exponent
    | [c] => c :: exponent
    | c :: r => c :: 46 :: r ++ exponent
    end.

(** [Number::toString] for the Number value of the fraction [p / q],
    [0 <= p] and [0 < q], with its sign. *)
Definition fraction_text (negative : bool) (p q : Z) : JsString :=
  if p =? 0 then lit "0"
  else match nearest_double p q with
       | Some (m, e) =>
           if m =? 0 then lit "0"
           else (if negative then [45] else []) ++ double_text (m, e)
       | None => if negative then lit "-Infinity" else lit "Infinity"
       end.

(** A number as [Number.prototype.toString] and a template literal print
    it. *)
Definition num_to_string (n : Z) : JsString :=
  fraction_text (n <? 0) (Z.abs n) 1.

Definition frac_to_string (m e : Z) : JsString :=
  if 0 <=? e then fraction_text (m <? 0) (Z.abs m) (2 ^ e)
  else fraction_text (m <? 0) (Z.abs m * 2 ^ (- e)) 1.

(** Whether the Number value of the integer [n] is finite. *)
Definition finite (n : Z) : bool :=
  match nearest_double (Z.abs n) 1 with
  | Some _ => true
  | None => false
  end.

Fixpoint join (sep : JsString) (parts : list JsString) : JsString :=
  match parts with
  | [] => []
  | [p] => p
  | p :: rest => p ++ sep ++ join sep rest
  end.

(** [ToString], the conversion a template literal applies to each
    substitution.  An array joins its elements with commas, [null] and
    [undefined] elements printing as the empty string.  A plain object prints
    as [[object Object]] unless it has an own property [toString]: a parsed
    JSON value is never callable, so [ToPrimitive] finds no usable method and
    throws. *)
Fixpoint to_string (v : JsVal) : Res JsString :=
  match v with
  | JUndefined => Ok (lit "undefined")
  | JNull => Ok (lit "null")
  | JBool true => Ok (lit "true")
  | JBool false => Ok (lit "false")
  | JNum n => Ok (num_to_string n)
  | JStr s => Ok s
  | JArr items =>
      let fix elems (l : list JsVal) : Res (list JsString) :=
        match l with
        | [] => Ok []
        | x :: l' =>
            res_bind
              (match x with
               | JUndefined | JNull => Ok []
               | _ => to_string x
               end)
              (fun s => res_bind (elems l') (fun r => Ok (s :: r)))
        end in
      res_bind (elems items) (fun parts => Ok (join (lit ",") parts))
  | JObj props =>
      if has_own (lit "toString") props
      then Throw (TypeError "Cannot convert object to primitive value")
      else Ok (lit "[object Object]")
  | JFrac m e => Ok (frac_to_string m e)
  | JInf negative => Ok (if negative then lit "-Infinity" else lit "Infinity")
  end.

End Js.

(** ** Platform codecs: UTF-8, base64 and JSON *)

Module Codec.
Import Js.

Definition in_range (lo hi c : Z) : bool := (lo <=? c) && (c <=? hi).
Definition is_high (c : Z) : bool := in_range 55296 56319 c.
Definition is_low (c : Z) : bool := in_range 56320 57343 c.

(** *** UTF-8: [Buffer.from(string)] and [buffer.toString()] *)

Definition replacement_bytes : list Z := [239; 191; 189].

Definition is_byte (b : Z) : Prop := 0 <= b < 256.

Definition is_ascii (c : Z) : Prop := 0 <= c < 128.

(** A string that has a UTF-8 encoding: 16-bit code units in which every
    surrogate is half of a high-low pair. *)
Fixpoint well_formed (s : JsString) : bool :=
  match s with
  | [] => true
  | c :: r =>
      if is_high c then
        match r with
        | d :: r' => is_low d && well_formed r'
        | [] => false
        end
      else negb (is_low c) && in_range 0 65535 c && well_formed r
  end.

Definition utf8_of_cp (cp : Z) : list Z :=
  if cp <? 128 then [cp]
  else if cp <? 2048 then [192 + cp / 64; 128 + cp mod 64]
  else if cp <? 65536 then
    [224 + cp / 4096; 128 + (cp / 64) mod 64; 128 + cp mod 64]
  else
    [240 + cp / 262144; 128 + (cp / 4096) mod 64;
     128 + (cp / 64) mod 64; 128 + cp mod 64].

(** A surrogate pair encodes one code point; a lone surrogate is replaced by
    U+FFFD. *)
Fixpoint utf8_encode (s : JsString) : list Z :=
  match s with
  | [] => []
  | c :: r =>
      if is_high c then
        match r with
        | d :: r' =>
            if is_low d
            then utf8_of_cp (65536 + (c - 55296) * 1024 + (d - 56320))
                   ++ utf8_encode r'
            else replacement_bytes ++ utf8_encode r
        | [] => replacement_bytes
        end
      else if is_low c then replacement_bytes ++ utf8_encode r
      else utf8_of_cp c ++ utf8_encode r
  end.

Definition is_cont (b : Z) : bool := in_range 128 191 b.

Definition units_of_cp (cp : Z) : JsString :=
  if cp <? 65536 then [cp]
  else [55296 + (cp - 65536) / 1024; 56320 + (cp - 65536) mod 1024].

(** The decoder replaces every maximal ill-formed subsequence by U+FFFD and
    resumes at the byte that broke the sequence. *)
Fixpoint utf8_decode (bs : list Z) : JsString :=
  match bs with
  | [] => []
  | b0 :: r0 =>
      if in_range 0 127 b0 then b0 :: utf8_decode r0
      else if in_range 194 223 b0 then
        match r0 with
        | [] => [65533]
        | b1 :: r1 =>
            if is_cont b1
            then ((b0 - 192) * 64 + (b1 - 128)) :: utf8_decode r1
            else 65533 :: utf8_decode r0
        end
      else if in_range 224 239 b0 then
        match r0 with
        | [] => [65533]
        | b1 :: r1 =>
            if in_range (if b0 =? 224 then 160 else 128)
                        (if b0 =? 237 then 159 else 191) b1
            then
              match r1 with
              | [] => [65533]
              | b2 :: r2 =>
                  if is_cont b2
                  then ((b0 - 224) * 4096 + (b1 - 128) * 64 + (b2 - 128))
                         :: utf8_decode r2
                  else 65533 :: utf8_decode r1
              end
            else 65533 :: utf8_decode r0
        end
      else if in_range 240 244 b0 then
        match r0 with
        | [] => [65533]
        | b1 :: r1 =>
            if in_range (if b0 =? 240 then 144 else 128)
                        (if b0 =? 244 then 143 else 191) b1
            then
              match r1 with
              | [] => [65533]
              | b2 :: r2 =>
                  if is_cont b2 then
                    match r2 with
                    | [] => [65533]
                    | b3 :: r3 =>
                        if is_cont b3
                        then units_of_cp
                               ((b0 - 240) * 262144 + (b1 - 128) * 4096
                                + (b2 - 128) * 64 + (b3 - 128))
                               ++ utf8_decode r3
                        else 65533 :: utf8_decode r2
                    end
                  else 65533 :: utf8_decode r1
              end
            else 65533 :: utf8_decode r0
        end
      else 65533 :: utf8_decode r0
  end.

(** *** base64: [buffer.toString('base64')] and [Buffer.from(s, 'base64')] *)

Definition b64_alphabet : JsString :=
  lit "ABCDEFGHIJKLMNOPQRSTUVWXYZabcdefghijklmnopqrstuvwxyz0123456789+/".

Definition b64_char (v : Z) : Z := nth (Z.to_nat v) b64_alphabet 0.

Definition pad : Z := 61.

Fixpoint base64_encode (bs : list Z) : JsString :=
  match bs with
  | [] => []
  | [a] => [b64_char (a / 4); b64_char ((a mod 4) * 16); pad; pad]
  | [a; b] =>
      [b64_char (a / 4); b64_char ((a mod 4) * 16 + b / 16);
       b64_char ((b mod 16) * 4); pad]
  | a :: b :: c :: r =>
      [b64_char (a / 4); b64_char ((a mod 4) * 16 + b / 16);
       b64_char ((b mod 16) * 4 + c / 64); b64_char (c mod 64)]
        ++ base64_encode r
  end.

(** The decoder reads a code unit as a byte, dropping the bits above the
    eighth. *)
Definition low_byte (c : Z) : Z := c mod 256.

(** It accepts the standard and the URL-safe alphabet. *)
Definition unbase64 (c : Z) : option Z :=
  let b := low_byte c in
  if in_range 65 90 b then Some (b - 65)
  else if in_range 97 122 b then Some (b - 71)
  else if in_range 48 57 b then Some (b + 4)
  else if (b =? 43) || (b =? 45) then Some 62
  else if (b =? 47) || (b =? 95) then Some 63
  else None.

(** It is lenient: characters outside the alphabet are skipped and decoding
    stops at the first padding character. *)
Fixpoint sextets (s : JsString) : list Z :=
  match s with
  | [] => []
  | c :: r =>
      if low_byte c =? pad then []
      else match unbase64 c with
           | Some v => v :: sextets r
           | None => sextets r
           end
  end.

Fixpoint bytes_of_sextets (l : list Z) : list Z :=
  match l with
  | a :: b :: c :: d :: r =>
      [a * 4 + b / 16; (b mod 16) * 16 + c / 4; (c mod 4) * 64 + d]
        ++ bytes_of_sextets r
  | [a; b; c] => [a * 4 + b / 16; (b mod 16) * 16 + c / 4]
  | [a; b] => [a * 4 + b / 16]
  | _ => []
  end.

Definition base64_decode (s : JsString) : list Z := bytes_of_sextets (sextets s).

(** The sixty-four values of a sextet. *)
Definition sextet_range : list Z := map Z.of_nat (seq 0 64).

(** *** JSON text: [JSON.stringify] *)

Definition hex_digit (n : Z) : Z := if n <? 10 then 48 + n else 87 + n.

(** [\uXXXX] with lower-case digits. *)
Definition u_escape (c : Z) : JsString :=
  [92; 117; hex_digit (c / 4096); hex_digit ((c / 256) mod 16);
   hex_digit ((c / 16) mod 16); hex_digit (c mod 16)].

Definition quote_unit (c : Z) : JsString :=
  if c =? 8 then [92; 98]
  else if c =? 9 then [92; 116]
  else if c =? 10 then [92; 110]
  else if c =? 12 then [92; 102]
  else if c =? 13 then [92; 114]
  else if c =? 34 then [92; 34]
  else if c =? 92 then [92; 92]
  else if c <? 32 then u_escape c
  else [c].

(** Paired surrogates are copied, lone surrogates are escaped. *)
Fixpoint quote_units (s : JsString) : JsString :=
  match s with
  | [] => []
  | c :: r =>
      if is_high c then
        match r with
        | d :: r' =>
            if is_low d then c :: d :: quote_units r'
            else u_escape c ++ quote_units r
        | [] => u_escape c
        end
      else if is_low c then u_escape c ++ quote_units r
      else quote_unit c ++ quote_units r
  end.

Definition json_quote (s : JsString) : JsString := 34 :: quote_units s ++ [34].

(** [None] is the [undefined] that [JSON.stringify(undefined)] returns.  A
    property whose value is [undefined] is left out of an object; in an array
    it prints as [null].  A finite number prints as [ToString] prints it, an
    infinite one as [null]. *)
Fixpoint json_stringify (v : JsVal) : option JsString :=
  match v with
  | JUndefined => None
  | JNull => Some (lit "null")
  | JBool true => Some (lit "true")
  | JBool false => Some (lit "false")
  | JNum n => Some (if finite n then num_to_string n else lit "null")
  | JFrac m e => Some (frac_to_string m e)
  | JInf _ => Some (lit "null")
  | JStr s => Some (json_quote s)
  | JArr items =>
      let fix elems (l : list JsVal) : list JsString :=
        match l with
        | [] => []
        | x :: l' =>
            match json_stringify x with
            | Some t => t
            | None => lit "null"
            end :: elems l'
        end in
      Some (lit "[" ++ join (lit ",") (elems items) ++ lit "]")
  | JObj props =>
      let fix members (l : list (JsString * JsVal)) : list JsString :=
        match l with
        | [] => []
        | (k, x) :: l' =>
            match json_stringify x with
            | Some t => (json_quote k ++ lit ":" ++ t) :: members l'
            | None => members l'
            end
        end in
      Some (lit "{" ++ join (lit ",") (members props) ++ lit "}")
  end.

(** The text of an object with two, or three, string-valued members. *)
Definition object_text2 (k1 v1 k2 v2 : JsString) : JsString :=
  123 :: json_quote k1 ++ 58 :: json_quote v1 ++ 44 ::
         json_quote k2 ++ 58 :: json_quote v2 ++ [125].

Definition object_text3 (k1 v1 k2 v2 k3 v3 : JsString) : JsString :=
  123 :: json_quote k1 ++ 58 :: json_quote v1 ++ 44 ::
         json_quote k2 ++ 58 :: json_quote v2 ++ 44 ::
         json_quote k3 ++ 58 :: json_quote v3 ++ [125].

(** *** JSON text: [JSON.parse] *)

Definition is_ws (c : Z) : bool :=
  (c =? 32) || (c =? 9) || (c =? 10) || (c =? 13).

Fixpoint skip_ws (s : JsString) : JsString :=
  match s with
  | [] => []
  | c :: r => if is_ws c then skip_ws r else s
  end.

Definition hex_value (c : Z) : option Z :=
  if in_range 48 57 c then Some (c - 48)
  else if in_range 97 102 c then Some (c - 87)
  else if in_range 65 70 c then Some (c - 55)
  else None.

Definition hex4 (a b c d : Z) : option Z :=
  match hex_value a, hex_value b, hex_value c, hex_value d with
  | Some x, Some y, Some z, Some w => Some (x * 4096 + y * 256 + z * 16 + w)
  | _, _, _, _ => None
  end.

Definition unescape (c : Z) : option Z :=
  if c =? 34 then Some 34
  else if c =? 92 then Some 92
  else if c =? 47 then Some 47
  else if c =? 98 then Some 8
  else if c =? 102 then Some 12
  else if c =? 110 then Some 10
  else if c =? 114 then Some 13
  else if c =? 116 then Some 9
  else None.

Definition cons_fst {A} (c : Z) (r : option (JsString * A)) : option (JsString * A) :=
  match r with
  | Some (s, rest) => Some (c :: s, rest)
  | None => None
  end.

(** The characters of a string after its opening quote, up to and including
    the closing quote, and the text that follows. *)
Fixpoint parse_string_body (s : JsString) : option (JsString * JsString) :=
  match s with
  | [] => None
  | c :: r =>
      if c =? 34 then Some ([], r)
      else if c =? 92 then
        match r with
        | [] => None
        | e :: r' =>
            if e =? 117 then
              match r' with
              | h1 :: h2 :: h3 :: h4 :: r'' =>
                  match hex4 h1 h2 h3 h4 with
                  | Some u => cons_fst u (parse_string_body r'')
                  | None => None
                  end
              | _ => None
              end
            else
              match unescape e with
              | Some u => cons_fst u (parse_string_body r')
              | None => None
              end
        end
      else if c <? 32 then None
      else cons_fst c (parse_string_body r)
  end.

Definition is_digit (c : Z) : bool := in_range 48 57 c.

(** A run of digits read onto [acc], with the number of digits read. *)
Fixpoint take_digits (s : JsString) (acc count : Z) : Z * Z * JsString :=
  match s with
  | c :: r =>
      if is_digit c then take_digits r (acc * 10 + (c - 48)) (count + 1)
      else (acc, count, s)
  | [] => (acc, count, [])
  end.

(** The smallest factor of two taken out of [m] while the exponent is
    negative. *)
Fixpoint reduce (fuel : nat) (m e : Z) : Z * Z :=
  match fuel with
  | O => (m, e)
  | S fuel' =>
      if (e <? 0) && Z.even m then reduce fuel' (m / 2) (e + 1) else (m, e)
  end.

(** The value of the double [d] with a sign. *)
Definition number_of_double (negative : bool) (d : option (Z * Z)) : JsVal :=
  match d with
  | None => JInf negative
  | Some (m, e) =>
      if m =? 0 then JNum 0
      else
        let '(m', e') := reduce 1074 m e in
        let v := if negative then - m' else m' in
        if 0 <=? e' then JNum (v * 2 ^ e') else JFrac v (- e')
  end.

(** The Number value of the decimal [ds * 10 ^ exp10], [0 <= ds].  A decimal
    of more than 400 digits before the point is beyond every double, one with
    more than 400 zeros after it is below every double. *)
Definition decimal_value (negative : bool) (ds exp10 : Z) : JsVal :=
  if ds =? 0 then JNum 0
  else if 400 <? exp10 + num_digits ds then JInf negative
  else if exp10 + num_digits ds <? -400 then JNum 0
  else number_of_double negative
         (if 0 <=? exp10 then nearest_double (ds * 10 ^ exp10) 1
          else nearest_double ds (10 ^ (- exp10))).

(** The fraction of a number literal: a point and at least one digit. *)
Definition parse_fraction (acc : Z) (s : JsString) : option (Z * Z * JsString) :=
  match s with
  | c :: r =>
      if c =? 46 then
        match r with
        | d :: _ => if is_digit d then Some (take_digits r acc 0) else None
        | [] => None
        end
      else Some (acc, 0, s)
  | [] => Some (acc, 0, [])
  end.

(** The exponent of a number literal: [e] or [E], an optional sign and at
    least one digit. *)
Definition parse_exponent (s : JsString) : option (Z * JsString) :=
  match s with
  | c :: r =>
      if (c =? 101) || (c =? 69) then
        let '(negative, r') :=
          match r with
          | g :: r1 => if g =? 45 then (true, r1)
                       else if g =? 43 then (false, r1) else (false, r)
          | [] => (false, r)
          end in
        match r' with
        | d :: _ =>
            if is_digit d then
              let '(x, _, rest) := take_digits r' 0 0 in
              Some (if negative then - x else x, rest)
            else None
        | [] => None
        end
      else Some (0, s)
  | [] => Some (0, [])
  end.

(** A number literal after its sign: an integer part without leading zeros,
    then an optional fraction and an optional exponent. *)
Definition parse_number (negative : bool) (s : JsString) : option (JsVal * JsString) :=
  match s with
  | c :: r =>
      if is_digit c then
        let '(n, _, rest) := if c =? 48 then (0, 0, r) else take_digits s 0 0 in
        match parse_fraction n rest with
        | Some (ds, places, rest1) =>
            match parse_exponent rest1 with
            | Some (x, rest2) => Some (decimal_value negative ds (x - places), rest2)
            | None => None
            end
        | None => None
        end
      else None
  | [] => None
  end.

Fixpoint strip_prefix (p s : JsString) : option JsString :=
  match p, s with
  | [], _ => Some s
  | x :: p', y :: s' => if x =? y then strip_prefix p' s' else None
  | _ :: _, [] => None
  end.

(** Recursive descent; the fuel bounds the number of values, members and
    elements visited and is taken from the length of the text. *)
Fixpoint parse_value (fuel : nat) (s : JsString) : option (JsVal * JsString) :=
  match fuel with
  | O => None
  | S fuel' =>
      match skip_ws s with
      | [] => None
      | c :: r =>
          if c =? 34 then
            match parse_string_body r with
            | Some (str, rest) => Some (JStr str, rest)
            | None => None
            end
          else if c =? 123 then
            match skip_ws r with
            | d :: r' =>
                if d =? 125 then Some (JObj [], r')
                else parse_members fuel' (skip_ws r) []
            | [] => None
            end
          else if c =? 91 then
            match skip_ws r with
            | d :: r' =>
                if d =? 93 then Some (JArr [], r')
                else parse_elements fuel' (skip_ws r) []
            | [] => None
            end
          else if c =? 45 then parse_number true r
          else if is_digit c then parse_number false (c :: r)
          else
            match strip_prefix (lit "true") (c :: r) with
            | Some rest => Some (JBool true, rest)
            | None =>
                match strip_prefix (lit "false") (c :: r) with
                | Some rest => Some (JBool false, rest)
                | None =>
                    match strip_prefix (lit "null") (c :: r) with
                    | Some rest => Some (JNull, rest)
                    | None => None
                    end
                end
            end
      end
  end

(** [s] starts at the opening quote of a member name; [acc] holds the members
    read so far.  A repeated name overwrites the earlier value. *)
with parse_members (fuel : nat) (s : JsString) (acc : list (JsString * JsVal))
  : option (JsVal * JsString) :=
  match fuel with
  | O => None
  | S fuel' =>
      match s with
      | c :: r =>
          if c =? 34 then
            match parse_string_body r with
            | Some (k, rest) =>
                match skip_ws rest with
                | colon :: rest1 =>
                    if colon =? 58 then
                      match parse_value fuel' rest1 with
                      | Some (v, rest2) =>
                          match skip_ws rest2 with
                          | d :: rest3 =>
                              if d =? 125 then Some (JObj (obj_set k v acc), rest3)
                              else if d =? 44
                              then parse_members fuel' (skip_ws rest3) (obj_set k v acc)
                              else None
                          | [] => None
                          end
                      | None => None
                      end
                    else None
                | [] => None
                end
            | None => None
            end
          else None
      | [] => None
      end
  end

(** [s] starts at an element; [acc] holds the elements read so far. *)
with parse_elements (fuel : nat) (s : JsString) (acc : list JsVal)
  : option (JsVal * JsString) :=
  match fuel with
  | O => None
  | S fuel' =>
      match parse_value fuel' s with
      | Some (v, rest) =>
          match skip_ws rest with
          | d :: rest1 =>
              if d =? 93 then Some (JArr (acc ++ [v]), rest1)
              else if d =? 44 then parse_elements fuel' rest1 (acc ++ [v])
              else None
          | [] => None
          end
      | None => None
      end
  end.

(** [JSON.parse(text)]: one value, surrounded by optional white space. *)
Definition json_parse (text : JsString) : Res JsVal :=
  match parse_value (S (List.length text)) text with
  | Some (v, rest) =>
      match skip_ws rest with
      | [] => Ok v
      | _ :: _ => Throw (SyntaxError "Unexpected non-whitespace character after JSON")
      end
  | None => Throw (SyntaxError "Unexpected token in JSON")
  end.

End Codec.

(** ** The relay *)

Module Relay.
Import Js Codec.

(** *** Data model *)

(** A field of the identity provider's token set: absent, [null] or set. *)
Inductive Opt (A : Type) :=
| Undefined
| Null
| Has (a : A).
Arguments Undefined {A}.
Arguments Null {A}.
Arguments Has {A} a.

(** The token set as the OAuth client library types it
    ([access_token?: string | null], [refresh_token?: string | null],
    [expiry_date?: number | null]); the same three fields are what the
    callback and the refresh block write to the store's [credentials]
    column. *)
Record Credentials := mkCredentials {
  access_token : Opt JsString;
  refresh_token : Opt JsString;
  expiry_date : Opt Z
}.

Definition no_credentials : Credentials := mkCredentials Undefined Undefined Undefined.

Definition str_truthy (o : Opt JsString) : bool :=
  match o with
  | Has (_ :: _) => true
  | _ => false
  end.

Definition num_truthy (o : Opt Z) : bool :=
  match o with
  | Has n => negb (n =? 0)
  | _ => false
  end.

(** [a || b] on a token field. *)
Definition opt_or (a b : Opt JsString) : Opt JsString :=
  if str_truthy a then a else b.

Definition str_val (o : Opt JsString) : JsVal :=
  match o with
  | Undefined => JUndefined
  | Null => JNull
  | Has s => JStr s
  end.

Definition num_val (o : Opt Z) : JsVal :=
  match o with
  | Undefined => JUndefined
  | Null => JNull
  | Has n => JNum n
  end.

Inductive Status := Connected | Disconnected.

Definition platform : JsString := lit "google_analytics".

(** A row of the [integrations] table.  [row_credentials = None] is a [null]
    credentials column. *)
Record Row := mkRow {
  row_workspace_id : JsVal;
  row_platform : JsString;
  row_status : Status;
  row_credentials : option Credentials;
  row_connected_at : JsString
}.

(** The columns an [update] assigns; [None] leaves the column alone. *)
Record Patch := mkPatch {
  patch_status : option Status;
  patch_credentials : option (option Credentials)
}.

Inductive StoreCall :=
| Select (workspace_id : JsVal)
| Upsert (row : Row)
| Update (workspace_id : JsVal) (patch : Patch).

(** What the store client resolves with: [{ data, error }].  For the select,
    [data] is [null] or a row projected on its credentials column. *)
Record StoreResult := mkStoreResult {
  res_data : option (option Credentials);
  res_error : option JsError
}.

(** The body of a report request. *)
Record ReportRequest := mkReport {
  property : JsString;
  startDate : JsVal;
  endDate : JsVal;
  metrics : list JsString;
  dimensions : list JsString;
  limit : option JsVal
}.

Record AuthUrlOpts := mkAuthUrlOpts {
  access_type : JsString;
  prompt : JsString;
  scope : list JsString;
  state : JsString
}.

(** *** Environment *)

(** An awaited promise resolves or rejects. *)
Inductive Outcome (A : Type) :=
| Resolves (a : A)
| Rejects (e : JsError).
Arguments Resolves {A} a.
Arguments Rejects {A} e.

(** How a store call goes wrong: the client resolves with an [error] field,
    or the call itself rejects. *)
Inductive Fault :=
| NoFault
| FaultError (e : JsError)
| FaultReject (e : JsError).

(** What an API call resolves with: the payload is under [data]. *)
Record ApiResponse := mkApiResponse { data : JsVal }.

(** What [fetch] resolves with: [response.ok] and [await response.json()]. *)
Record FetchResponse := mkFetchResponse { ok : bool; json : Outcome JsVal }.

(** The collaborators of a request: the clock ([Date.now()] and
    [new Date().toISOString()]), the bridge configuration, the OAuth client's
    URL builder, token exchange and refresh, the two analytics APIs (called
    with the credentials the client holds), [fetch] (URL, [x-mcp-secret]
    header, body), and the faults of the store. *)
Record Env := mkEnv {
  now : Z;
  now_iso : JsString;
  LOVABLE_FUNCTION_URL : JsString;
  MCP_BRIDGE_SECRET : JsString;
  generateAuthUrl : AuthUrlOpts -> JsString;
  getToken : JsVal -> Outcome Credentials;
  refreshAccessToken : Credentials -> Outcome Credentials;
  runReport : Credentials -> ReportRequest -> Outcome ApiResponse;
  accountSummaries_list : Credentials -> Outcome ApiResponse;
  fetch : JsString -> JsString -> option JsString -> Outcome FetchResponse;
  store_fault : StoreCall -> Fault
}.

(** *** World: store, shared OAuth client, trace of external calls *)

Inductive Event :=
| EvStore (c : StoreCall)
| EvGetToken (code : JsVal)
| EvRefresh (auth : Credentials)
| EvRunReport (auth : Credentials) (r : ReportRequest)
| EvListSummaries (auth : Credentials)
| EvFetch (url secret : JsString) (body : option JsString)
| EvLogError (label : JsString) (e : JsError)
| EvLogValue (label : JsString) (v : JsVal).

Record World := mkWorld {
  store : list Row;
  client : Credentials;
  trace : list Event
}.

Definition is_idp_call (e : Event) : bool :=
  match e with
  | EvGetToken _ | EvRefresh _ => true
  | _ => false
  end.

Definition is_refresh (e : Event) : bool :=
  match e with
  | EvRefresh _ => true
  | _ => false
  end.

Definition is_analytics_call (e : Event) : bool :=
  match e with
  | EvRunReport _ _ | EvListSummaries _ => true
  | _ => false
  end.

Definition is_store_write (e : Event) : bool :=
  match e with
  | EvStore (Upsert _) | EvStore (Update _ _) => true
  | _ => false
  end.

(** *** The handler monad *)

Definition M (A : Type) : Type := World -> Res A * World.

Definition ret {A} (a : A) : M A := fun w => (Ok a, w).

Definition bind {A B} (m : M A) (k : A -> M B) : M B :=
  fun w =>
    match m w with
    | (Ok a, w') => k a w'
    | (Throw e, w') => (Throw e, w')
    end.

Definition throw {A} (e : JsError) : M A := fun w => (Throw e, w).

Definition try_catch {A} (m : M A) (handler : JsError -> M A) : M A :=
  fun w =>
    match m w with
    | (Ok a, w') => (Ok a, w')
    | (Throw e, w') => handler e w'
    end.

Definition lift {A} (r : Res A) : M A := fun w => (r, w).

Definition emit (e : Event) : M unit :=
  fun w => (Ok tt, mkWorld (store w) (client w) (trace w ++ [e])).

Definition await {A} (o : Outcome A) : M A :=
  match o with
  | Resolves a => ret a
  | Rejects e => throw e
  end.

Declare Scope relay_scope.
Delimit Scope relay_scope with relay.
Notation "x <- m ;; k" := (bind m (fun x => k))
  (at level 61, m at next level, right associativity) : relay_scope.
Notation "' p <- m ;; k" := (bind m (fun p => k))
  (at level 61, p pattern, m at next level, right associativity) : relay_scope.
Notation "m ;;; k" := (bind m (fun _ => k))
  (at level 61, right associativity) : relay_scope.
Open Scope relay_scope.

(** The events a run appended to the trace, and how many of them satisfy a
    test. *)
Definition new_events (w w' : World) : list Event :=
  skipn (List.length (trace w)) (trace w').

Definition count_calls (p : Event -> bool) (l : list Event) : nat :=
  List.length (filter p l).

(** *** The credential store *)

(** Equality of a key column with a filter value.  The rows of one
    [(workspace_id, platform)] are the rows a filter on the two columns
    selects. *)
Fixpoint val_eqb (a b : JsVal) : bool :=
  match a, b with
  | JUndefined, JUndefined => true
  | JNull, JNull => true
  | JBool x, JBool y => Bool.eqb x y
  | JNum x, JNum y => x =? y
  | JStr x, JStr y => str_eqb x y
  | JArr xs, JArr ys =>
      (fix all2 (l1 l2 : list JsVal) : bool :=
         match l1, l2 with
         | [], [] => true
         | x :: l1', y :: l2' => val_eqb x y && all2 l1' l2'
         | _, _ => false
         end) xs ys
  | JObj ps, JObj qs =>
      (fix all2 (l1 l2 : list (JsString * JsVal)) : bool :=
         match l1, l2 with
         | [], [] => true
         | (k, x) :: l1', (k', y) :: l2' =>
             str_eqb k k' && val_eqb x y && all2 l1' l2'
         | _, _ => false
         end) ps qs
  | JFrac m e, JFrac m' e' => (m =? m') && (e =? e')
  | JInf a, JInf b => Bool.eqb a b
  | _, _ => false
  end.

(** [.eq('workspace_id', workspace_id).eq('platform', 'google_analytics')] *)
Definition matches (workspace_id : JsVal) (r : Row) : bool :=
  val_eqb (row_workspace_id r) workspace_id && str_eqb (row_platform r) platform.

(** [.upsert(row, { onConflict: 'workspace_id,platform' })] *)
Definition same_key (a b : Row) : bool :=
  val_eqb (row_workspace_id a) (row_workspace_id b)
  && str_eqb (row_platform a) (row_platform b).

Definition upsert_rows (row : Row) (rows : list Row) : list Row :=
  if existsb (same_key row) rows
  then map (fun r => if same_key row r then row else r) rows
  else rows ++ [row].

Definition apply_patch (p : Patch) (r : Row) : Row :=
  mkRow (row_workspace_id r) (row_platform r)
    (match patch_status p with Some s => s | None => row_status r end)
    (match patch_credentials p with Some c => c | None => row_credentials r end)
    (row_connected_at r).

Definition update_rows (workspace_id : JsVal) (p : Patch) (rows : list Row) : list Row :=
  map (fun r => if matches workspace_id r then apply_patch p r else r) rows.

(** [.single()] is an error unless exactly one row matches. *)
Definition no_single_row : JsError :=
  mkError (lit "PostgrestError")
          (lit "JSON object requested, multiple (or no) rows returned").

Definition select_single (workspace_id : JsVal) (rows : list Row) : StoreResult :=
  match filter (matches workspace_id) rows with
  | [r] => mkStoreResult (Some (row_credentials r)) None
  | _ => mkStoreResult None (Some no_single_row)
  end.

Definition store_effect (c : StoreCall) (rows : list Row) : list Row :=
  match c with
  | Select _ => rows
  | Upsert row => upsert_rows row rows
  | Update workspace_id p => update_rows workspace_id p rows
  end.

Definition store_answer (c : StoreCall) (rows : list Row) : StoreResult :=
  match c with
  | Select workspace_id => select_single workspace_id rows
  | Upsert _ | Update _ _ => mkStoreResult None None
  end.

Section Handlers.

Variable env : Env.

(** [await supabase.from('integrations')...]: the call is recorded, then the
    environment decides whether it is carried out, answered with an error, or
    rejected. *)
Definition store_call (c : StoreCall) : M StoreResult :=
  emit (EvStore c) ;;;
  fun w =>
    match store_fault env c with
    | NoFault =>
        (Ok (store_answer c (store w)),
         mkWorld (store_effect c (store w)) (client w) (trace w))
    | FaultError e => (Ok (mkStoreResult None (Some e)), w)
    | FaultReject e => (Throw e, w)
    end.

(** [oauth2Client.setCredentials(c)] on the shared client. *)
Definition setCredentials (c : Credentials) : M unit :=
  fun w => (Ok tt, mkWorld (store w) c (trace w)).

Definition getClient : M Credentials := fun w => (Ok (client w), w).

(** *** HTTP requests and responses *)

(** The query string of a request: named string parameters.  Reading a
    parameter gives its string, or [undefined]. *)
Definition Query := list (JsString * JsString).

Fixpoint query_get (q : Query) (k : JsString) : JsVal :=
  match q with
  | [] => JUndefined
  | (k', v) :: rest => if str_eqb k k' then JStr v else query_get rest k
  end.

(** What the handler leaves as its response.  A handler whose promise
    rejects (a [Throw] at top level) has written no response. *)
Inductive Response :=
| Json (status : Z) (body : JsVal)
| Redirect (location : JsString).

(** *** State token *)

(** [Buffer.from(text)] for the text [JSON.stringify] returned. *)
Definition buffer_from (text : option JsString) : Res (list Z) :=
  match text with
  | Some t => Ok (utf8_encode t)
  | None => Throw (TypeError "The first argument must be of type string")
  end.

(** [Buffer.from(JSON.stringify(record)).toString('base64')] *)
Definition encode_state (record : JsVal) : Res JsString :=
  res_bind (buffer_from (json_stringify record))
           (fun bytes => Ok (base64_encode bytes)).

(** [Buffer.from(state as string, 'base64')]: a query parameter is a string
    or absent. *)
Definition buffer_from_base64 (v : JsVal) : Res (list Z) :=
  match v with
  | JStr s => Ok (base64_decode s)
  | _ => Throw (TypeError "The first argument must be of type string")
  end.

(** [JSON.parse(Buffer.from(state as string, 'base64').toString())] *)
Definition decode_state (state : JsVal) : Res JsVal :=
  res_bind (buffer_from_base64 state)
           (fun bytes => json_parse (utf8_decode bytes)).

(** The state token of the direct-store variant carries [workspace_id] and
    [redirect_url]; the callback destructures the same two fields. *)
Definition state_tokenA (workspace_id redirect_url : JsVal) : Res JsString :=
  encode_state (JObj [(lit "workspace_id", workspace_id);
                      (lit "redirect_url", redirect_url)]).

Definition read_stateA (state : JsVal) : Res (JsVal * JsVal) :=
  res_bind (decode_state state) (fun parsed =>
  res_bind (get_prop parsed "workspace_id") (fun workspace_id =>
  res_bind (get_prop parsed "redirect_url") (fun redirect_url =>
  Ok (workspace_id, redirect_url)))).

(** The state token of the bridge variant also carries [organization_id]. *)
Definition state_tokenB (workspace_id organization_id redirect_url : JsVal)
  : Res JsString :=
  encode_state (JObj [(lit "workspace_id", workspace_id);
                      (lit "organization_id", organization_id);
                      (lit "redirect_url", redirect_url)]).

Definition read_stateB (state : JsVal) : Res (JsVal * JsVal * JsVal) :=
  res_bind (decode_state state) (fun parsed =>
  res_bind (get_prop parsed "workspace_id") (fun workspace_id =>
  res_bind (get_prop parsed "organization_id") (fun organization_id =>
  res_bind (get_prop parsed "redirect_url") (fun redirect_url =>
  Ok (workspace_id, organization_id, redirect_url))))).

(** *** GET /auth/init *)

Definition analytics_scopes : list JsString :=
  [lit "https://www.googleapis.com/auth/analytics.readonly";
   lit "https://www.googleapis.com/auth/analytics"].

Definition missing_fields : Response :=
  Json 400 (JObj [(lit "error", JStr (lit "Missing workspace_id or redirect_url"))]).

Definition auth_url_for (state : JsString) : Response :=
  Json 200
    (JObj [(lit "auth_url",
            JStr (generateAuthUrl env
                    (mkAuthUrlOpts (lit "offline") (lit "consent")
                                   analytics_scopes state)))]).

(** Direct-store variant. *)
Definition authInitA (q : Query) : M Response :=
  let workspace_id := query_get q (lit "workspace_id") in
  let redirect_url := query_get q (lit "redirect_url") in
  if negb (truthy workspace_id) || negb (truthy redirect_url)
  then ret missing_fields
  else
    state <- lift (state_tokenA workspace_id redirect_url) ;;
    ret (auth_url_for state).

(** Bridge variant. *)
Definition authInitB (q : Query) : M Response :=
  let workspace_id := query_get q (lit "workspace_id") in
  let organization_id := query_get q (lit "organization_id") in
  let redirect_url := query_get q (lit "redirect_url") in
  if negb (truthy workspace_id) || negb (truthy redirect_url)
  then ret missing_fields
  else
    state <- lift (state_tokenB workspace_id organization_id redirect_url) ;;
    ret (auth_url_for state).

(** *** GET /callback *)

(** [res.redirect(`${target}?marker`)] *)
Definition redirect_with (target : JsVal) (marker : string) : M Response :=
  t <- lift (to_string target) ;;
  ret (Redirect (t ++ lit marker)).

(** Direct-store variant. *)
Definition callbackA (q : Query) : M Response :=
  let code := query_get q (lit "code") in
  let state := query_get q (lit "state") in
  try_catch
    ('(workspace_id, redirect_url) <- lift (read_stateA state) ;;
     emit (EvGetToken code) ;;;
     tokens <- await (getToken env code) ;;
     r <- store_call
            (Upsert (mkRow workspace_id platform Connected
                       (Some (mkCredentials (access_token tokens)
                                            (refresh_token tokens)
                                            (expiry_date tokens)))
                       (now_iso env))) ;;
     match res_error r with
     | Some error => throw error
     | None => redirect_with redirect_url "?success=true"
     end)
    (fun error =>
       emit (EvLogError (lit "OAuth callback error:") error) ;;;
       redirect_with (js_or (query_get q (lit "redirect_url")) (JStr (lit "/")))
                     "?error=auth_failed").

(** Bridge variant: the tokens are posted to the bridge; the catch block
    reads the redirect target out of the state again. *)
Definition callbackB (q : Query) : M Response :=
  let code := query_get q (lit "code") in
  let state := query_get q (lit "state") in
  try_catch
    ('(workspace_id, organization_id, redirect_url) <- lift (read_stateB state) ;;
     emit (EvGetToken code) ;;;
     tokens <- await (getToken env code) ;;
     let body :=
       json_stringify
         (JObj [(lit "workspace_id", workspace_id);
                (lit "organization_id", organization_id);
                (lit "tokens",
                 JObj [(lit "access_token", str_val (access_token tokens));
                       (lit "refresh_token", str_val (refresh_token tokens));
                       (lit "expiry_date", num_val (expiry_date tokens))])]) in
     emit (EvFetch (LOVABLE_FUNCTION_URL env) (MCP_BRIDGE_SECRET env) body) ;;;
     response <- await (fetch env (LOVABLE_FUNCTION_URL env) (MCP_BRIDGE_SECRET env) body) ;;
     (if negb (ok response)
      then
        error <- await (json response) ;;
        emit (EvLogValue (lit "Failed to store tokens:") error) ;;;
        throw (mkError (lit "Error") (lit "Failed to store tokens"))
      else ret tt) ;;;
     redirect_with redirect_url "?success=true")
    (fun error =>
       emit (EvLogError (lit "OAuth callback error:") error) ;;;
       redirect_url <-
         (if truthy (query_get q (lit "state"))
          then
            parsed <- lift (decode_state (query_get q (lit "state"))) ;;
            lift (get_prop parsed "redirect_url")
          else ret (JStr (lit "/"))) ;;
       redirect_with redirect_url "?error=auth_failed").

(** *** POST /query *)

Definition not_connected : Response :=
  Json 401 (JObj [(lit "error", JStr (lit "Not connected to Google Analytics"))]).

(** [res.status(500).json({ error: error.message })] *)
Definition server_error (error : JsError) : Response :=
  Json 500 (JObj [(lit "error", JStr (err_message error))]).

(** The object the refresh block writes back:
    [{ credentials: { access_token: credentials.access_token,
                      refresh_token: credentials.refresh_token || refresh_token,
                      expiry_date: credentials.expiry_date } }] *)
Definition refreshed (stored credentials : Credentials) : Credentials :=
  mkCredentials (access_token credentials)
                (opt_or (refresh_token credentials) (refresh_token stored))
                (expiry_date credentials).

Definition refresh_patch (stored credentials : Credentials) : Patch :=
  mkPatch None (Some (Some (refreshed stored credentials))).

(** [expiry_date && Date.now() > expiry_date] *)
Definition expired (expiry : Opt Z) : bool :=
  num_truthy expiry
  && match expiry with
     | Has e => now env >? e
     | _ => false
     end.

(** The refresh block: one refresh call on the shared client, then the
    update of the stored tokens, whose result is not looked at. *)
Definition refresh_block (workspace_id : JsVal) (stored : Credentials) : M unit :=
  if expired (expiry_date stored) then
    auth <- getClient ;;
    emit (EvRefresh auth) ;;;
    credentials <- await (refreshAccessToken env auth) ;;
    setCredentials credentials ;;;
    _ <- store_call (Update workspace_id (refresh_patch stored credentials)) ;;
    ret tt
  else ret tt.

(** [case '...'] of the switch: strict equality with a string literal. *)
Definition tool_is (tool : JsVal) (name : string) : bool :=
  match tool with
  | JStr t => str_eqb t (lit name)
  | _ => false
  end.

(** [`properties/${params.property_id}`] *)
Definition property_of (params : JsVal) : Res JsString :=
  res_bind (get_prop params "property_id")
    (fun id => res_bind (to_string id) (fun s => Ok (lit "properties/" ++ s))).

(** [params.k || fallback] *)
Definition param_or (params : JsVal) (k : string) (fallback : JsVal) : Res JsVal :=
  res_bind (get_prop params k) (fun v => Ok (js_or v fallback)).

(** [analyticsData.properties.runReport({ property, requestBody })], with the
    credentials the shared client holds at that moment. *)
Definition run_report (r : ReportRequest) : M ApiResponse :=
  auth <- getClient ;;
  emit (EvRunReport auth r) ;;;
  await (runReport env auth r).

Definition report_request (params : JsVal) (ms ds : list string)
    (with_limit : bool) : Res ReportRequest :=
  res_bind (property_of params) (fun prop =>
  res_bind (param_or params "start_date" (JStr (lit "30daysAgo"))) (fun sd =>
  res_bind (param_or params "end_date" (JStr (lit "today"))) (fun ed =>
  res_bind (if with_limit
            then res_bind (param_or params "limit" (JNum 10)) (fun l => Ok (Some l))
            else Ok None) (fun lim =>
  Ok (mkReport prop sd ed (map lit ms) (map lit ds) lim))))).

Definition unknown_tool (tool : JsVal) : M Response :=
  t <- lift (to_string tool) ;;
  ret (Json 400 (JObj [(lit "error", JStr (lit "Unknown tool: " ++ t))])).

(** [res.json({ data: result.data })] *)
Definition send_data (result : ApiResponse) : Response :=
  Json 200 (JObj [(lit "data", data result)]).


(** The switch on [tool]. *)
Definition dispatch (tool params : JsVal) : M Response :=
  if tool_is tool "get_traffic_overview" then
    r <- lift (report_request params
                 ["sessions"; "activeUsers"; "screenPageViews"; "bounceRate"]%string
                 ["date"]%string false) ;;
    result <- run_report r ;;
    ret (send_data result)
  else if tool_is tool "get_top_pages" then
    r <- lift (report_request params
                 ["screenPageViews"; "activeUsers"]%string
                 ["pagePath"]%string true) ;;
    result <- run_report r ;;
    ret (send_data result)
  else if tool_is tool "get_traffic_sources" then
    r <- lift (report_request params
                 ["sessions"; "activeUsers"]%string
                 ["sessionSource"; "sessionMedium"]%string false) ;;
    result <- run_report r ;;
    ret (send_data result)
  else if tool_is tool "list_properties" then
    auth <- getClient ;;
    emit (EvListSummaries auth) ;;;
    result <- await (accountSummaries_list env auth) ;;
    ret (send_data result)
  else unknown_tool tool.

(** The catch block of the query handler. *)
Definition query_failed (error : JsError) : M Response :=
  emit (EvLogError (lit "Query error:") error) ;;;
  ret (server_error error).

Definition query (body : JsVal) : M Response :=
  workspace_id <- lift (get_prop body "workspace_id") ;;
  tool <- lift (get_prop body "tool") ;;
  params <- lift (get_prop body "params") ;;
  try_catch
    (r <- store_call (Select workspace_id) ;;
     match res_error r, res_data r with
     | None, Some (Some stored) =>
         setCredentials (mkCredentials (access_token stored)
                                       (refresh_token stored)
                                       (expiry_date stored)) ;;;
         refresh_block workspace_id stored ;;;
         dispatch tool params
     | _, _ => ret not_connected
     end)
    query_failed.

(** *** POST /disconnect *)

(** [{ status: 'disconnected', credentials: null }] *)
Definition disconnect_patch : Patch := mkPatch (Some Disconnected) (Some None).

Definition disconnected : Response := Json 200 (JObj [(lit "success", JBool true)]).

Definition disconnect (body : JsVal) : M Response :=
  workspace_id <- lift (get_prop body "workspace_id") ;;
  try_catch
    (_ <- store_call (Update workspace_id disconnect_patch) ;;
     ret disconnected)
    (fun error => ret (server_error error)).

End Handlers.

(** *** Vocabulary of the statements *)

(** A query parameter that is there and not empty. *)
Definition present (q : Query) (k : string) : Prop :=
  exists s, s <> [] /\ query_get q (lit k) = JStr s.

(** An optional field of the state record. *)
Definition field_val (o : option JsString) : JsVal :=
  match o with
  | Some s => JStr s
  | None => JUndefined
  end.

Definition field_wf (o : option JsString) : bool :=
  match o with
  | Some s => well_formed s
  | None => true
  end.

(** The three correlation fields come back from a token. *)
Definition roundtrips_all_three (token : Res JsString)
    (workspace_id organization_id redirect_url : JsVal) : Prop :=
  exists st,
    token = Ok st
    /\ read_stateB (JStr st) = Ok (workspace_id, organization_id, redirect_url).

(** The tools that issue a report call. *)
Definition report_tools : list string :=
  ["get_traffic_overview"; "get_top_pages"; "get_traffic_sources"]%string.

(** At most one [google_analytics] record per workspace, the invariant the
    upsert's conflict target stands for. *)
Definition at_most_one (rows : list Row) : Prop :=
  forall workspace_id, (List.length (filter (matches workspace_id) rows) <= 1)%nat.

(** Two rows that differ at most in their credentials column. *)
Definition same_but_credentials (r r' : Row) : Prop :=
  row_workspace_id r' = row_workspace_id r
  /\ row_platform r' = row_platform r
  /\ row_status r' = row_status r
  /\ row_connected_at r' = row_connected_at r.

(** What a handler may do to the store on behalf of one workspace: every
    row of another workspace stays as it is, every row of this one is related
    to its successor by [on_own]. *)
Definition only_touches (workspace_id : JsVal) (on_own : Row -> Row -> Prop)
    (rows rows' : list Row) : Prop :=
  Forall2 (fun r r' => if matches workspace_id r then on_own r r' else r' = r)
          rows rows'.

(** A row after a disconnect: same key and connection time, no credentials,
    status [disconnected]. *)
Definition cleared (r r' : Row) : Prop :=
  row_workspace_id r' = row_workspace_id r
  /\ row_platform r' = row_platform r
  /\ row_connected_at r' = row_connected_at r
  /\ row_credentials r' = None
  /\ row_status r' = Disconnected.

(** An analytics call made with the credentials [c]. *)
Definition authenticated_with (c : Credentials) (e : Event) : Prop :=
  match e with
  | EvRunReport auth _ => auth = c
  | EvListSummaries auth => auth = c
  | _ => True
  end.

(** Where the direct-store callback sends the browser on failure:
    [req.query.redirect_url || '/']. *)
Definition fallback_target (q : Query) : JsString :=
  match query_get q (lit "redirect_url") with
  | JStr (c :: s) => c :: s
  | _ => lit "/"
  end.

Definition is_store_call (e : Event) : bool :=
  match e with
  | EvStore _ => true
  | _ => false
  end.

Definition is_fetch (e : Event) : bool :=
  match e with
  | EvFetch _ _ _ => true
  | _ => false
  end.

Definition is_token_exchange (e : Event) : bool :=
  match e with
  | EvGetToken _ => true
  | _ => false
  end.

(** The row the direct-store callback upserts. *)
Definition connected_row (env : Env) (workspace_id : JsVal) (tokens : Credentials)
  : Row :=
  mkRow workspace_id platform Connected
        (Some (mkCredentials (access_token tokens) (refresh_token tokens)
                             (expiry_date tokens)))
        (now_iso env).

(** The body the bridge callback posts. *)
Definition bridge_body (workspace_id organization_id : JsVal) (tokens : Credentials)
  : option JsString :=
  json_stringify
    (JObj [(lit "workspace_id", workspace_id);
           (lit "organization_id", organization_id);
           (lit "tokens",
            JObj [(lit "access_token", str_val (access_token tokens));
                  (lit "refresh_token", str_val (refresh_token tokens));
                  (lit "expiry_date", num_val (expiry_date tokens))])]).

End Relay.

(** ** The specification's wording, for comparison with the code *)

Module Stated.
Import Js Codec Relay.

(** "expiry_date is set and strictly in the past" *)
Definition set_and_past (now : Z) (expiry : Opt Z) : bool :=
  match expiry with
  | Has e => e <? now
  | _ => false
  end.

(** "a query triggers exactly one refresh call" for such a credential *)
Definition refreshes_once (env : Env) (body : JsVal) (w : World)
    (stored : Credentials) : Prop :=
  set_and_past (now env) (expiry_date stored) = true ->
  count_calls is_refresh (new_events w (snd (query env body w))) = 1%nat.


(** "the caller-supplied value (default when absent)" *)
Definition default_when_absent (params : list (JsString * JsVal)) (k : string)
    (fallback : JsVal) : JsVal :=
  match lookup (lit k) params with
  | Some v => v
  | None => fallback
  end.

(** The report call of [get_top_pages] as the specification words it. *)
Definition top_pages_request (id : JsString) (params : list (JsString * JsVal))
  : ReportRequest :=
  mkReport (lit "properties/" ++ id)
           (default_when_absent params "start_date" (JStr (lit "30daysAgo")))
           (default_when_absent params "end_date" (JStr (lit "today")))
           [lit "screenPageViews"; lit "activeUsers"] [lit "pagePath"]
           (Some (default_when_absent params "limit" (JNum 10))).

Definition issues_top_pages_request (env : Env) (body : JsVal) (w : World)
    (stored : Credentials) (id : JsString) (params : list (JsString * JsVal)) : Prop :=
  filter is_analytics_call (new_events w (snd (query env body w)))
  = [EvRunReport stored (top_pages_request id params)].

End Stated.

(** ** Concrete requests, stores and environments *)

Module Scenario.
Import Js Codec Relay.

Definition tokens : Credentials :=
  mkCredentials (Has (lit "ya29.first")) (Has (lit "1//refresh")) (Has 1700003600000).

Definition fresh : Credentials :=
  mkCredentials (Has (lit "ya29.second")) Undefined (Has 1700007200000).

Definition report : ApiResponse :=
  mkApiResponse (JObj [(lit "rowCount", JNum 0)]).

Definition auth_url (o : AuthUrlOpts) : JsString :=
  lit "https://accounts.google.com/o/oauth2/v2/auth?access_type=" ++ access_type o
  ++ lit "&prompt=" ++ prompt o
  ++ lit "&scope=" ++ join (lit " ") (scope o)
  ++ lit "&state=" ++ state o.

(** Every collaborator answers; the store behaves as [fault] says. *)
Definition env (fault : StoreCall -> Fault) : Env :=
  mkEnv 1700000000000 (lit "2023-11-14T22:13:20.000Z")
        (lit "https://bridge.example/store-tokens") (lit "bridge-secret")
        auth_url
        (fun _ => Resolves tokens)
        (fun _ => Resolves fresh)
        (fun _ _ => Resolves report)
        (fun _ => Resolves report)
        (fun _ _ _ => Resolves (mkFetchResponse true (Resolves JNull)))
        fault.

Definition healthy : Env := env (fun _ => NoFault).

Definition store_error : JsError :=
  mkError (lit "PostgrestError") (lit "connection refused").

(** The store client answers every call with an [error]. *)
Definition store_down : Env := env (fun _ => FaultError store_error).

Definition valid : Credentials :=
  mkCredentials (Has (lit "ya29.first")) (Has (lit "1//refresh")) (Has 1700003600000).

Definition stale : Credentials :=
  mkCredentials (Has (lit "ya29.first")) (Has (lit "1//refresh")) (Has 1699999999999).

Definition epoch : Credentials :=
  mkCredentials (Has (lit "ya29.first")) (Has (lit "1//refresh")) (Has 0).

(** A store with one connected workspace, [w2]. *)
Definition world (c : Credentials) : World :=
  mkWorld [mkRow (JStr (lit "w2")) platform Connected (Some c)
                 (lit "2023-11-01T09:00:00.000Z")]
          no_credentials [].

Definition empty_world : World := mkWorld [] no_credentials [].

Definition top_pages_params (limit : JsVal) : list (JsString * JsVal) :=
  [(lit "property_id", JStr (lit "123")); (lit "limit", limit)].

Definition top_pages (limit : JsVal) : list (JsString * JsVal) :=
  [(lit "workspace_id", JStr (lit "w2"));
   (lit "tool", JStr (lit "get_top_pages"));
   (lit "params", JObj (top_pages_params limit))].

Definition unknown_request : list (JsString * JsVal) :=
  [(lit "workspace_id", JStr (lit "w2"));
   (lit "tool", JStr (lit "drop_tables"));
   (lit "params", JObj [])].


Definition disconnect_request : list (JsString * JsVal) :=
  [(lit "workspace_id", JStr (lit "w2"))].

Definition init_query : Query :=
  [(lit "workspace_id", lit "w1");
   (lit "organization_id", lit "o1");
   (lit "redirect_url", lit "https://app/x")].

(** A callback whose state is the base64 of [hello]. *)
Definition garbled_callback : Query :=
  [(lit "code", lit "4/0AX4XfWh"); (lit "state", lit "aGVsbG8=")].

(** The token of [{workspace_id: "w1", redirect_url: "https://app/x"}]. *)
Definition state_w1 : JsString :=
  lit "eyJ3b3Jrc3BhY2VfaWQiOiJ3MSIsInJlZGlyZWN0X3VybCI6Imh0dHBzOi8vYXBwL3gifQ==".

Definition good_callback : Query :=
  [(lit "code", lit "4/0AX4XfWh"); (lit "state", state_w1)].

(** The identity provider turns every code down. *)
Definition code_refused : JsError :=
  mkError (lit "GaxiosError") (lit "invalid_grant").

Definition idp_down : Env :=
  mkEnv 1700000000000 (lit "2023-11-14T22:13:20.000Z")
        (lit "https://bridge.example/store-tokens") (lit "bridge-secret")
        auth_url
        (fun _ => Rejects code_refused)
        (fun _ => Rejects code_refused)
        (fun _ _ => Resolves report)
        (fun _ => Resolves report)
        (fun _ _ _ => Resolves (mkFetchResponse true (Resolves JNull)))
        (fun _ => NoFault).

(** A second workspace next to [w2]. *)
Definition other_row : Row :=
  mkRow (JStr (lit "w7")) platform Connected (Some valid)
        (lit "2023-10-01T08:00:00.000Z").

Definition two_workspaces (c : Credentials) : World :=
  mkWorld [other_row;
           mkRow (JStr (lit "w2")) platform Connected (Some c)
                 (lit "2023-11-01T09:00:00.000Z")]
          no_credentials [].

(** The store reads, and answers every write with an [error]. *)
Definition writes_failing : Env :=
  env (fun c => match c with
                | Select _ => NoFault
                | _ => FaultError store_error
                end).

Definition tool_request (tool : string) (params : JsVal) : list (JsString * JsVal) :=
  [(lit "workspace_id", JStr (lit "w2"));
   (lit "tool", JStr (lit tool));
   (lit "params", params)].

End Scenario.

(** * Properties *)

Import Js Codec Relay.

(** ** Codecs *)

Ltac dm_lia := Z.div_mod_to_equations; lia.

Lemma in_range_spec lo hi c : in_range lo hi c = true <-> lo <= c <= hi.
Proof. unfold in_range. rewrite andb_true_iff, !Z.leb_le. tauto. Qed.

Lemma in_range_false lo hi c : in_range lo hi c = false <-> c < lo \/ hi < c.
Proof. unfold in_range. rewrite andb_false_iff, !Z.leb_gt. tauto. Qed.

Ltac range_true := apply in_range_spec; dm_lia.
Ltac range_false := apply in_range_false; dm_lia.

(** Induction on lists two and three elements at a time, the strides of
    surrogate pairs and of base64 groups. *)
Lemma list_ind2 {A} (P : list A -> Prop) :
  P [] -> (forall a, P [a]) ->
  (forall a b l, P l -> P (b :: l) -> P (a :: b :: l)) ->
  forall l, P l.
Proof.
  intros H0 H1 H2.
  assert (H : forall l, P l /\ forall a, P (a :: l)).
  { induction l as [|x l [IH0 IH1]]; split; auto. }
  intros l. apply H.
Qed.

Lemma list_ind3 {A} (P : list A -> Prop) :
  P [] -> (forall a, P [a]) -> (forall a b, P [a; b]) ->
  (forall a b c l, P l -> P (a :: b :: c :: l)) ->
  forall l, P l.
Proof.
  intros H0 H1 H2 H3.
  assert (H : forall l, P l /\ (forall a, P (a :: l)) /\ (forall a b, P (a :: b :: l))).
  { induction l as [|x l (IH0 & IH1 & IH2)]; auto. }
  intros l. apply H.
Qed.

(** *** base64 *)

Lemma sextet_in_range v : 0 <= v < 64 -> In v sextet_range.
Proof.
  intros H. unfold sextet_range. rewrite <- (Z2Nat.id v) by lia.
  apply in_map. apply in_seq. lia.
Qed.

(** Every character of the alphabet decodes to its own index and none is the
    padding character: checked on the sixty-four sextets. *)
Lemma b64_char_legal v :
  0 <= v < 64 ->
  (low_byte (b64_char v) =? pad) = false /\ unbase64 (b64_char v) = Some v.
Proof.
  intros H.
  assert (Hall : forallb (fun v => negb (low_byte (b64_char v) =? pad)
                                   && match unbase64 (b64_char v) with
                                      | Some u => u =? v
                                      | None => false
                                      end) sextet_range = true)
    by (vm_compute; reflexivity).
  rewrite forallb_forall in Hall. specialize (Hall v (sextet_in_range v H)).
  apply andb_true_iff in Hall. destruct Hall as [H1 H2].
  split; [apply negb_true_iff; exact H1|].
  destruct (unbase64 (b64_char v)); [| discriminate].
  apply Z.eqb_eq in H2. congruence.
Qed.

Lemma sextets_cons v s :
  0 <= v < 64 -> sextets (b64_char v :: s) = v :: sextets s.
Proof.
  intros H. destruct (b64_char_legal v H) as [H1 H2].
  cbn [sextets]. rewrite H1, H2. reflexivity.
Qed.

Lemma sextets_pad s : sextets (pad :: s) = [].
Proof. reflexivity. Qed.

Lemma base64_group a b c :
  is_byte a -> is_byte b -> is_byte c ->
  0 <= a / 4 < 64 /\ 0 <= (a mod 4) * 16 + b / 16 < 64
  /\ 0 <= (b mod 16) * 4 + c / 64 < 64 /\ 0 <= c mod 64 < 64
  /\ 0 <= (a mod 4) * 16 < 64 /\ 0 <= (b mod 16) * 4 < 64.
Proof. unfold is_byte. intros. repeat split; dm_lia. Qed.

Lemma base64_roundtrip bs :
  Forall is_byte bs -> base64_decode (base64_encode bs) = bs.
Proof.
  unfold base64_decode.
  induction bs as [| a | a b | a b c l IH] using list_ind3; intros HB.
  - reflexivity.
  - inversion HB as [| ? ? Ha _]; subst.
    destruct (base64_group a 0 0 Ha) as (S0 & _ & _ & _ & S1 & _);
      [unfold is_byte; lia ..|].
    cbn [base64_encode]. rewrite sextets_cons by exact S0.
    rewrite sextets_cons by exact S1. rewrite sextets_pad.
    cbn [bytes_of_sextets]. f_equal. unfold is_byte in Ha. dm_lia.
  - inversion HB as [| ? ? Ha HB']; subst. inversion HB' as [| ? ? Hb _]; subst.
    destruct (base64_group a b 0 Ha Hb) as (S0 & S1 & _ & _ & _ & S2);
      [unfold is_byte; lia|].
    cbn [base64_encode]. rewrite sextets_cons by exact S0.
    rewrite sextets_cons by exact S1. rewrite sextets_cons by exact S2.
    rewrite sextets_pad. cbn [bytes_of_sextets].
    unfold is_byte in *. f_equal; [dm_lia | f_equal; dm_lia].
  - inversion HB as [| ? ? Ha HB1]; subst. inversion HB1 as [| ? ? Hb HB2]; subst.
    inversion HB2 as [| ? ? Hc HB3]; subst.
    destruct (base64_group a b c Ha Hb Hc) as (S0 & S1 & S2 & S3 & _ & _).
    cbn [base64_encode app]. rewrite sextets_cons by exact S0.
    rewrite sextets_cons by exact S1. rewrite sextets_cons by exact S2.
    rewrite sextets_cons by exact S3.
    cbn [bytes_of_sextets app]. rewrite (IH HB3).
    unfold is_byte in *. f_equal; [dm_lia | f_equal; [dm_lia | f_equal; dm_lia]].
Qed.

(** *** UTF-8 *)

Lemma utf8_decode_1 b r :
  0 <= b < 128 -> utf8_decode (b :: r) = b :: utf8_decode r.
Proof.
  intros H. cbn [utf8_decode].
  replace (in_range 0 127 b) with true by (symmetry; range_true). reflexivity.
Qed.

Lemma utf8_decode_2 b0 b1 r :
  194 <= b0 <= 223 -> 128 <= b1 <= 191 ->
  utf8_decode (b0 :: b1 :: r) = ((b0 - 192) * 64 + (b1 - 128)) :: utf8_decode r.
Proof.
  intros H0 H1. cbn [utf8_decode].
  replace (in_range 0 127 b0) with false by (symmetry; range_false).
  replace (in_range 194 223 b0) with true by (symmetry; range_true).
  unfold is_cont. replace (in_range 128 191 b1) with true by (symmetry; range_true).
  reflexivity.
Qed.

Lemma utf8_decode_3 b0 b1 b2 r :
  224 <= b0 <= 239 -> 128 <= b1 <= 191 -> 128 <= b2 <= 191 ->
  (b0 = 224 -> 160 <= b1) -> (b0 = 237 -> b1 <= 159) ->
  utf8_decode (b0 :: b1 :: b2 :: r)
  = ((b0 - 224) * 4096 + (b1 - 128) * 64 + (b2 - 128)) :: utf8_decode r.
Proof.
  intros H0 H1 H2 Hlo Hhi. cbn [utf8_decode].
  replace (in_range 0 127 b0) with false by (symmetry; range_false).
  replace (in_range 194 223 b0) with false by (symmetry; range_false).
  replace (in_range 224 239 b0) with true by (symmetry; range_true).
  replace (in_range (if b0 =? 224 then 160 else 128)
                    (if b0 =? 237 then 159 else 191) b1) with true.
  2:{ symmetry. apply in_range_spec.
      destruct (Z.eqb_spec b0 224); destruct (Z.eqb_spec b0 237); lia. }
  unfold is_cont. replace (in_range 128 191 b2) with true by (symmetry; range_true).
  reflexivity.
Qed.

Lemma utf8_decode_4 b0 b1 b2 b3 r :
  240 <= b0 <= 244 -> 128 <= b1 <= 191 -> 128 <= b2 <= 191 -> 128 <= b3 <= 191 ->
  (b0 = 240 -> 144 <= b1) -> (b0 = 244 -> b1 <= 143) ->
  utf8_decode (b0 :: b1 :: b2 :: b3 :: r)
  = units_of_cp ((b0 - 240) * 262144 + (b1 - 128) * 4096 + (b2 - 128) * 64 + (b3 - 128))
      ++ utf8_decode r.
Proof.
  intros H0 H1 H2 H3 Hlo Hhi. cbn [utf8_decode].
  replace (in_range 0 127 b0) with false by (symmetry; range_false).
  replace (in_range 194 223 b0) with false by (symmetry; range_false).
  replace (in_range 224 239 b0) with false by (symmetry; range_false).
  replace (in_range 240 244 b0) with true by (symmetry; range_true).
  replace (in_range (if b0 =? 240 then 144 else 128)
                    (if b0 =? 244 then 143 else 191) b1) with true.
  2:{ symmetry. apply in_range_spec.
      destruct (Z.eqb_spec b0 240); destruct (Z.eqb_spec b0 244); lia. }
  unfold is_cont. replace (in_range 128 191 b2) with true by (symmetry; range_true).
  replace (in_range 128 191 b3) with true by (symmetry; range_true).
  reflexivity.
Qed.

(** A code unit outside the surrogate range survives encoding and decoding. *)
Lemma utf8_unit_roundtrip c r :
  0 <= c <= 65535 -> is_high c = false -> is_low c = false ->
  utf8_decode (utf8_of_cp c ++ r) = c :: utf8_decode r.
Proof.
  intros Hc Hh Hl. unfold is_high in Hh. unfold is_low in Hl.
  apply in_range_false in Hh. apply in_range_false in Hl.
  unfold utf8_of_cp.
  destruct (Z.ltb_spec c 128); [cbn [app]; apply utf8_decode_1; lia|].
  destruct (Z.ltb_spec c 2048).
  { cbn [app]. rewrite utf8_decode_2 by dm_lia. f_equal. dm_lia. }
  destruct (Z.ltb_spec c 65536); [| lia].
  cbn [app]. rewrite utf8_decode_3 by dm_lia. f_equal. dm_lia.
Qed.

Lemma utf8_pair_roundtrip c d r :
  is_high c = true -> is_low d = true ->
  utf8_decode (utf8_of_cp (65536 + (c - 55296) * 1024 + (d - 56320)) ++ r)
  = c :: d :: utf8_decode r.
Proof.
  intros Hh Hl. unfold is_high in Hh. unfold is_low in Hl.
  apply in_range_spec in Hh. apply in_range_spec in Hl.
  unfold utf8_of_cp.
  destruct (Z.ltb_spec (65536 + (c - 55296) * 1024 + (d - 56320)) 128); [lia|].
  destruct (Z.ltb_spec (65536 + (c - 55296) * 1024 + (d - 56320)) 2048); [lia|].
  destruct (Z.ltb_spec (65536 + (c - 55296) * 1024 + (d - 56320)) 65536); [lia|].
  cbn [app]. rewrite utf8_decode_4 by dm_lia.
  unfold units_of_cp.
  match goal with |- context [?x <? 65536] => destruct (Z.ltb_spec x 65536) end;
    [exfalso; dm_lia|].
  cbn [app]. f_equal; [dm_lia | f_equal; dm_lia].
Qed.

Lemma utf8_encode_unit c r :
  is_high c = false -> is_low c = false ->
  utf8_encode (c :: r) = utf8_of_cp c ++ utf8_encode r.
Proof. intros Hh Hl. cbn [utf8_encode]. rewrite Hh, Hl. reflexivity. Qed.

Lemma utf8_encode_pair c d r :
  is_high c = true -> is_low d = true ->
  utf8_encode (c :: d :: r)
  = utf8_of_cp (65536 + (c - 55296) * 1024 + (d - 56320)) ++ utf8_encode r.
Proof. intros Hh Hl. cbn [utf8_encode]. rewrite Hh, Hl. reflexivity. Qed.

(** The two ways a well-formed string starts. *)
Lemma well_formed_cons c r :
  well_formed (c :: r) = true ->
  (is_high c = false /\ is_low c = false /\ 0 <= c <= 65535 /\ well_formed r = true)
  \/ (exists d r', r = d :: r' /\ is_high c = true /\ is_low d = true
                   /\ well_formed r' = true).
Proof.
  cbn [well_formed]. destruct (is_high c) eqn:Hh.
  - destruct r as [|d r']; [discriminate|]. intros H.
    apply andb_true_iff in H. destruct H as [Hl Hwf].
    right. exists d, r'. auto.
  - intros H. apply andb_true_iff in H. destruct H as [H Hwf].
    apply andb_true_iff in H. destruct H as [Hl Hr].
    apply negb_true_iff in Hl. apply in_range_spec in Hr. left. auto.
Qed.

Lemma utf8_roundtrip s :
  well_formed s = true -> utf8_decode (utf8_encode s) = s.
Proof.
  induction s as [| c | c d l IHl IHdl] using list_ind2; intros Hwf.
  - reflexivity.
  - apply well_formed_cons in Hwf.
    destruct Hwf as [(Hh & Hl & Hr & _) | (d & r' & E & _)]; [| discriminate].
    rewrite (utf8_encode_unit c [] Hh Hl).
    rewrite (utf8_unit_roundtrip c _ Hr Hh Hl). reflexivity.
  - apply well_formed_cons in Hwf.
    destruct Hwf as [(Hh & Hl & Hr & Hwf) | (d' & r' & E & Hh & Hl & Hwf)].
    + rewrite (utf8_encode_unit c _ Hh Hl).
      rewrite (utf8_unit_roundtrip c _ Hr Hh Hl). rewrite (IHdl Hwf). reflexivity.
    + inversion E; subst d' r'.
      rewrite (utf8_encode_pair c d l Hh Hl).
      rewrite (utf8_pair_roundtrip c d _ Hh Hl). rewrite (IHl Hwf). reflexivity.
Qed.

Lemma utf8_of_cp_bytes cp : 0 <= cp < 1114112 -> Forall is_byte (utf8_of_cp cp).
Proof.
  intros H. unfold utf8_of_cp, is_byte.
  destruct (Z.ltb_spec cp 128); [repeat constructor; lia|].
  destruct (Z.ltb_spec cp 2048); [repeat constructor; dm_lia|].
  destruct (Z.ltb_spec cp 65536); repeat constructor; dm_lia.
Qed.

Lemma utf8_encode_bytes s : well_formed s = true -> Forall is_byte (utf8_encode s).
Proof.
  induction s as [| c | c d l IHl IHdl] using list_ind2; intros Hwf.
  - constructor.
  - apply well_formed_cons in Hwf.
    destruct Hwf as [(Hh & Hl & Hr & _) | (d & r' & E & _)]; [| discriminate].
    rewrite (utf8_encode_unit c [] Hh Hl). apply Forall_app. split; [| constructor].
    apply utf8_of_cp_bytes. lia.
  - apply well_formed_cons in Hwf.
    destruct Hwf as [(Hh & Hl & Hr & Hwf) | (d' & r' & E & Hh & Hl & Hwf)].
    + rewrite (utf8_encode_unit c _ Hh Hl). apply Forall_app. split; [| auto].
      apply utf8_of_cp_bytes. lia.
    + inversion E; subst d' r'. rewrite (utf8_encode_pair c d l Hh Hl).
      apply Forall_app. split; [| auto]. apply utf8_of_cp_bytes.
      unfold is_high in Hh. unfold is_low in Hl.
      apply in_range_spec in Hh. apply in_range_spec in Hl. lia.
Qed.

(** *** JSON strings *)

Lemma hex_value_digit n : 0 <= n < 16 -> hex_value (hex_digit n) = Some n.
Proof.
  intros H. unfold hex_digit, hex_value.
  destruct (Z.ltb_spec n 10).
  - replace (in_range 48 57 (48 + n)) with true by (symmetry; range_true).
    f_equal. lia.
  - replace (in_range 48 57 (87 + n)) with false by (symmetry; range_false).
    replace (in_range 97 102 (87 + n)) with true by (symmetry; range_true).
    f_equal. lia.
Qed.

Lemma parse_u_escape c r :
  0 <= c <= 65535 ->
  parse_string_body (u_escape c ++ r) = cons_fst c (parse_string_body r).
Proof.
  intros H. unfold u_escape. cbn [app parse_string_body].
  change (92 =? 34) with false. change (92 =? 92) with true.
  change (117 =? 117) with true. cbv iota.
  unfold hex4. rewrite !hex_value_digit by dm_lia.
  replace (c / 4096 * 4096 + c / 256 mod 16 * 256 + c / 16 mod 16 * 16 + c mod 16)
    with c by dm_lia.
  reflexivity.
Qed.

Lemma parse_plain c r :
  32 <= c -> c <> 34 -> c <> 92 ->
  parse_string_body (c :: r) = cons_fst c (parse_string_body r).
Proof.
  intros H1 H2 H3. cbn [parse_string_body].
  destruct (Z.eqb_spec c 34); [contradiction|].
  destruct (Z.eqb_spec c 92); [contradiction|].
  destruct (Z.ltb_spec c 32); [lia | reflexivity].
Qed.

Lemma parse_quote_unit c r :
  0 <= c <= 65535 ->
  parse_string_body (quote_unit c ++ r) = cons_fst c (parse_string_body r).
Proof.
  intros H. unfold quote_unit.
  repeat match goal with
  | |- context [?x =? ?k] => destruct (Z.eqb_spec x k); [subst; reflexivity|]
  end.
  destruct (Z.ltb_spec c 32).
  - apply parse_u_escape. exact H.
  - cbn [app]. apply parse_plain; lia.
Qed.

Lemma quote_units_unit c r :
  is_high c = false -> is_low c = false ->
  quote_units (c :: r) = quote_unit c ++ quote_units r.
Proof. intros Hh Hl. cbn [quote_units]. rewrite Hh, Hl. reflexivity. Qed.

Lemma quote_units_pair c d r :
  is_high c = true -> is_low d = true ->
  quote_units (c :: d :: r) = c :: d :: quote_units r.
Proof. intros Hh Hl. cbn [quote_units]. rewrite Hh, Hl. reflexivity. Qed.

Lemma parse_quoted s rest :
  well_formed s = true ->
  parse_string_body (quote_units s ++ 34 :: rest) = Some (s, rest).
Proof.
  induction s as [| c | c d l IHl IHdl] using list_ind2; intros Hwf.
  - reflexivity.
  - apply well_formed_cons in Hwf.
    destruct Hwf as [(Hh & Hl & Hr & _) | (d & r' & E & _)]; [| discriminate].
    rewrite (quote_units_unit c [] Hh Hl). rewrite <- app_assoc.
    rewrite parse_quote_unit by exact Hr. reflexivity.
  - apply well_formed_cons in Hwf.
    destruct Hwf as [(Hh & Hl & Hr & Hwf) | (d' & r' & E & Hh & Hl & Hwf)].
    + rewrite (quote_units_unit c _ Hh Hl). rewrite <- app_assoc.
      rewrite parse_quote_unit by exact Hr. rewrite (IHdl Hwf). reflexivity.
    + inversion E; subst d' r'. rewrite (quote_units_pair c d l Hh Hl).
      cbn [app]. unfold is_high in Hh. unfold is_low in Hl.
      apply in_range_spec in Hh. apply in_range_spec in Hl.
      rewrite parse_plain by lia. rewrite parse_plain by lia.
      rewrite (IHl Hwf). reflexivity.
Qed.

(** The JSON text of well-formed strings is well formed. *)
Lemma well_formed_app a b :
  well_formed a = true -> well_formed b = true -> well_formed (a ++ b) = true.
Proof.
  intros Ha Hb. induction a as [| c | c d l IHl IHdl] using list_ind2.
  - exact Hb.
  - apply well_formed_cons in Ha.
    destruct Ha as [(Hh & Hl & Hr & _) | (d & r' & E & _)]; [| discriminate].
    cbn [app well_formed]. rewrite Hh, Hl, Hb.
    replace (in_range 0 65535 c) with true by (symmetry; range_true). reflexivity.
  - apply well_formed_cons in Ha.
    destruct Ha as [(Hh & Hl & Hr & Hwf) | (d' & r' & E & Hh & Hl & Hwf)].
    + change ((c :: d :: l) ++ b) with (c :: (d :: l) ++ b).
      cbn [well_formed]. rewrite Hh, Hl, (IHdl Hwf).
      replace (in_range 0 65535 c) with true by (symmetry; range_true). reflexivity.
    + inversion E; subst d' r'. cbn [app well_formed]. rewrite Hh, Hl, (IHl Hwf).
      reflexivity.
Qed.

Lemma well_formed_ascii s : Forall is_ascii s -> well_formed s = true.
Proof.
  induction 1 as [| c s Hc _ IH]; [reflexivity|].
  unfold is_ascii in Hc. cbn [well_formed].
  replace (is_high c) with false by (symmetry; unfold is_high; range_false).
  replace (is_low c) with false by (symmetry; unfold is_low; range_false).
  replace (in_range 0 65535 c) with true by (symmetry; range_true).
  exact IH.
Qed.

Lemma hex_digit_ascii n : 0 <= n < 16 -> is_ascii (hex_digit n).
Proof. unfold hex_digit, is_ascii. intros H. destruct (n <? 10); lia. Qed.

Lemma well_formed_u_escape c : 0 <= c <= 65535 -> well_formed (u_escape c) = true.
Proof.
  intros H. apply well_formed_ascii. unfold u_escape.
  repeat constructor; try (unfold is_ascii; lia); apply hex_digit_ascii; dm_lia.
Qed.

Lemma well_formed_quote_unit c :
  0 <= c <= 65535 -> is_high c = false -> is_low c = false ->
  well_formed (quote_unit c) = true.
Proof.
  intros H Hh Hl. unfold quote_unit.
  repeat match goal with
  | |- context [?x =? ?k] => destruct (Z.eqb_spec x k); [reflexivity|]
  end.
  destruct (Z.ltb_spec c 32); [apply well_formed_u_escape; exact H|].
  cbn [well_formed]. rewrite Hh, Hl.
  replace (in_range 0 65535 c) with true by (symmetry; range_true). reflexivity.
Qed.

Lemma well_formed_quote_units s :
  well_formed s = true -> well_formed (quote_units s) = true.
Proof.
  induction s as [| c | c d l IHl IHdl] using list_ind2; intros Hwf.
  - reflexivity.
  - apply well_formed_cons in Hwf.
    destruct Hwf as [(Hh & Hl & Hr & _) | (d & r' & E & _)]; [| discriminate].
    rewrite (quote_units_unit c [] Hh Hl), app_nil_r.
    apply well_formed_quote_unit; assumption.
  - apply well_formed_cons in Hwf.
    destruct Hwf as [(Hh & Hl & Hr & Hwf) | (d' & r' & E & Hh & Hl & Hwf)].
    + rewrite (quote_units_unit c _ Hh Hl). apply well_formed_app; auto.
      apply well_formed_quote_unit; assumption.
    + inversion E; subst d' r'. rewrite (quote_units_pair c d l Hh Hl).
      cbn [well_formed]. rewrite Hh, Hl, (IHl Hwf). reflexivity.
Qed.

Lemma well_formed_json_quote s :
  well_formed s = true -> well_formed (json_quote s) = true.
Proof.
  intros H. unfold json_quote. change (34 :: quote_units s ++ [34]) with ([34] ++ quote_units s ++ [34]).
  apply well_formed_app; [reflexivity|].
  apply well_formed_app; [apply well_formed_quote_units; exact H | reflexivity].
Qed.

(** *** JSON objects with string members *)

Lemma json_quote_app s rest :
  json_quote s ++ rest = 34 :: quote_units s ++ 34 :: rest.
Proof. unfold json_quote. cbn [app]. rewrite <- app_assoc. reflexivity. Qed.

Lemma parse_value_string f s rest :
  well_formed s = true ->
  parse_value (S f) (json_quote s ++ rest) = Some (JStr s, rest).
Proof.
  intros H. rewrite json_quote_app. cbn [parse_value skip_ws].
  change (is_ws 34) with false. cbv iota. change (34 =? 34) with true. cbv iota.
  rewrite (parse_quoted s rest H). reflexivity.
Qed.

Lemma parse_member_last f k v rest acc :
  well_formed k = true -> well_formed v = true ->
  parse_members (S (S f)) (json_quote k ++ 58 :: json_quote v ++ 125 :: rest) acc
  = Some (JObj (obj_set k (JStr v) acc), rest).
Proof.
  intros Hk Hv. rewrite json_quote_app.
  cbn [parse_members]. change (34 =? 34) with true. cbv iota.
  rewrite (parse_quoted k _ Hk). cbn [skip_ws]. change (is_ws 58) with false.
  cbv iota. change (58 =? 58) with true. cbv iota.
  rewrite (parse_value_string f v _ Hv). cbn [skip_ws].
  change (is_ws 125) with false. cbv iota. change (125 =? 125) with true.
  reflexivity.
Qed.

Lemma parse_member_more f k v more acc :
  well_formed k = true -> well_formed v = true ->
  parse_members (S (S f)) (json_quote k ++ 58 :: json_quote v ++ 44 :: 34 :: more) acc
  = parse_members (S f) (34 :: more) (obj_set k (JStr v) acc).
Proof.
  intros Hk Hv. rewrite json_quote_app.
  cbn [parse_members]. change (34 =? 34) with true. cbv iota.
  rewrite (parse_quoted k _ Hk). cbn [skip_ws]. change (is_ws 58) with false.
  cbv iota. change (58 =? 58) with true. cbv iota.
  rewrite (parse_value_string f v _ Hv). cbn [skip_ws].
  change (is_ws 44) with false. cbv iota. change (44 =? 125) with false.
  change (44 =? 44) with true. cbv iota. cbn [skip_ws].
  change (is_ws 34) with false. reflexivity.
Qed.

Lemma parse_object f body :
  parse_value (S f) (123 :: 34 :: body) = parse_members f (34 :: body) [].
Proof.
  cbn [parse_value skip_ws]. change (is_ws 123) with false. cbv iota.
  change (123 =? 34) with false. change (123 =? 123) with true. cbv iota.
  cbn [skip_ws]. change (is_ws 34) with false. cbv iota.
  change (34 =? 125) with false. reflexivity.
Qed.

Lemma json_parse_object text v :
  (forall f, parse_value (S (S (S (S (S f))))) text = Some (v, [])) ->
  (4 <= List.length text)%nat ->
  json_parse text = Ok v.
Proof.
  intros H Hlen. unfold json_parse.
  destruct (List.length text) as [|[|[|[|n]]]]; try lia.
  rewrite H. reflexivity.
Qed.

Lemma object_text_length (k rest : JsString) :
  (4 <= List.length (123 :: json_quote k ++ 58 :: rest)%Z)%nat.
Proof.
  rewrite json_quote_app. cbn [List.length]. rewrite length_app.
  cbn [List.length]. lia.
Qed.



Lemma stringify2 k1 v1 k2 v2 :
  json_stringify (JObj [(k1, JStr v1); (k2, JStr v2)]) = Some (object_text2 k1 v1 k2 v2).
Proof.
  cbn [json_stringify join]. change (lit "{") with [123]. change (lit ":") with [58].
  change (lit ",") with [44]. change (lit "}") with [125]. unfold object_text2.
  cbn [app]. repeat (rewrite <- app_assoc; cbn [app]). reflexivity.
Qed.

Lemma stringify3 k1 v1 k2 v2 k3 v3 :
  json_stringify (JObj [(k1, JStr v1); (k2, JStr v2); (k3, JStr v3)])
  = Some (object_text3 k1 v1 k2 v2 k3 v3).
Proof.
  cbn [json_stringify join]. change (lit "{") with [123]. change (lit ":") with [58].
  change (lit ",") with [44]. change (lit "}") with [125]. unfold object_text3.
  cbn [app]. repeat (rewrite <- app_assoc; cbn [app]). reflexivity.
Qed.

Lemma parse2 k1 v1 k2 v2 :
  well_formed k1 = true -> well_formed v1 = true ->
  well_formed k2 = true -> well_formed v2 = true ->
  json_parse (object_text2 k1 v1 k2 v2)
  = Ok (JObj (obj_set k2 (JStr v2) (obj_set k1 (JStr v1) []))).
Proof.
  intros H1 H2 H3 H4. apply json_parse_object.
  - intros f. unfold object_text2. rewrite (json_quote_app k1), parse_object.
    rewrite <- json_quote_app. rewrite (json_quote_app k2).
    rewrite parse_member_more by assumption. rewrite <- json_quote_app.
    apply parse_member_last; assumption.
  - apply object_text_length.
Qed.

Lemma parse3 k1 v1 k2 v2 k3 v3 :
  well_formed k1 = true -> well_formed v1 = true ->
  well_formed k2 = true -> well_formed v2 = true ->
  well_formed k3 = true -> well_formed v3 = true ->
  json_parse (object_text3 k1 v1 k2 v2 k3 v3)
  = Ok (JObj (obj_set k3 (JStr v3) (obj_set k2 (JStr v2) (obj_set k1 (JStr v1) [])))).
Proof.
  intros H1 H2 H3 H4 H5 H6. apply json_parse_object.
  - intros f. unfold object_text3. rewrite (json_quote_app k1), parse_object.
    rewrite <- json_quote_app. rewrite (json_quote_app k2).
    rewrite parse_member_more by assumption. rewrite <- json_quote_app.
    rewrite (json_quote_app k3).
    rewrite parse_member_more by assumption. rewrite <- json_quote_app.
    apply parse_member_last; assumption.
  - apply object_text_length.
Qed.

Lemma well_formed_text2 k1 v1 k2 v2 :
  well_formed k1 = true -> well_formed v1 = true ->
  well_formed k2 = true -> well_formed v2 = true ->
  well_formed (object_text2 k1 v1 k2 v2) = true.
Proof.
  intros. unfold object_text2.
  repeat first
    [ apply well_formed_json_quote; assumption
    | reflexivity
    | match goal with
      | |- well_formed (?c :: ?l) = true =>
          change (c :: l) with ([c] ++ l); apply well_formed_app
      | |- well_formed (_ ++ _) = true => apply well_formed_app
      end ].
Qed.

Lemma well_formed_text3 k1 v1 k2 v2 k3 v3 :
  well_formed k1 = true -> well_formed v1 = true ->
  well_formed k2 = true -> well_formed v2 = true ->
  well_formed k3 = true -> well_formed v3 = true ->
  well_formed (object_text3 k1 v1 k2 v2 k3 v3) = true.
Proof.
  intros. unfold object_text3.
  repeat first
    [ apply well_formed_json_quote; assumption
    | reflexivity
    | match goal with
      | |- well_formed (?c :: ?l) = true =>
          change (c :: l) with ([c] ++ l); apply well_formed_app
      | |- well_formed (_ ++ _) = true => apply well_formed_app
      end ].
Qed.

(** A text sent through the state token comes back. *)
Lemma state_text_roundtrip text :
  well_formed text = true ->
  utf8_decode (base64_decode (base64_encode (utf8_encode text))) = text.
Proof.
  intros H. rewrite base64_roundtrip by (apply utf8_encode_bytes; exact H).
  apply utf8_roundtrip. exact H.
Qed.






(** ** The state token (C4) *)

Lemma decode_encoded v text parsed :
  json_stringify v = Some text -> well_formed text = true ->
  json_parse text = Ok parsed ->
  exists st, encode_state v = Ok st /\ decode_state (JStr st) = Ok parsed.
Proof.
  intros Hs Hwf Hp. unfold encode_state, decode_state. rewrite Hs.
  cbn [buffer_from res_bind buffer_from_base64]. eexists. split; [reflexivity|].
  rewrite (state_text_roundtrip text Hwf). exact Hp.
Qed.

(** C4, as stated, fails on the direct-store variant: its initiator puts only
    [workspace_id] and [redirect_url] into the token, so a request that
    carries [organization_id=o1] does not get that field back. *)
Lemma stateA_drops_organization_id :
  ~ roundtrips_all_three
      (state_tokenA (query_get Scenario.init_query (lit "workspace_id"))
                    (query_get Scenario.init_query (lit "redirect_url")))
      (query_get Scenario.init_query (lit "workspace_id"))
      (query_get Scenario.init_query (lit "organization_id"))
      (query_get Scenario.init_query (lit "redirect_url")).
Proof.
  intros (st & He & Hd). vm_compute in He. inversion He; subst st; clear He.
  vm_compute in Hd. discriminate Hd.
Qed.

(** C4 (amended).  For all well-formed strings [w] and [r] and every
    optional well-formed [o]: in the bridge variant the token built from
    [{workspace_id: w, organization_id: o, redirect_url: r}] decodes, as the
    callback destructures it, to the same three fields, an absent
    [organization_id] coming back absent; in the direct-store variant the token
    built from [w] and [r] decodes to [w] and [r], and it carries no
    [organization_id]. *)
Theorem state_token_roundtrip (w r : JsString) (o : option JsString) :
  well_formed w = true -> well_formed r = true -> field_wf o = true ->
  roundtrips_all_three (state_tokenB (JStr w) (field_val o) (JStr r))
                       (JStr w) (field_val o) (JStr r)
  /\ exists st,
       state_tokenA (JStr w) (JStr r) = Ok st
       /\ read_stateA (JStr st) = Ok (JStr w, JStr r)
       /\ res_bind (decode_state (JStr st))
                   (fun parsed => get_prop parsed "organization_id") = Ok JUndefined.
Proof.
  intros Hw Hr Ho.
  assert (Kw : well_formed (lit "workspace_id") = true) by reflexivity.
  assert (Ko : well_formed (lit "organization_id") = true) by reflexivity.
  assert (Kr : well_formed (lit "redirect_url") = true) by reflexivity.
  split.
  - unfold roundtrips_all_three, state_tokenB, read_stateB.
    destruct o as [o|]; cbn [field_val field_wf] in *.
    + destruct (decode_encoded _ _ _
                  (stringify3 (lit "workspace_id") w (lit "organization_id") o
                              (lit "redirect_url") r)
                  (well_formed_text3 _ _ _ _ _ _ Kw Hw Ko Ho Kr Hr)
                  (parse3 _ _ _ _ _ _ Kw Hw Ko Ho Kr Hr)) as (st & He & Hd).
      exists st. split; [exact He|]. rewrite Hd. reflexivity.
    + destruct (decode_encoded
                  (JObj [(lit "workspace_id", JStr w);
                         (lit "organization_id", JUndefined);
                         (lit "redirect_url", JStr r)]) _ _
                  (stringify2 (lit "workspace_id") w (lit "redirect_url") r)
                  (well_formed_text2 _ _ _ _ Kw Hw Kr Hr)
                  (parse2 _ _ _ _ Kw Hw Kr Hr)) as (st & He & Hd).
      exists st. split; [exact He|]. rewrite Hd. reflexivity.
  - unfold state_tokenA, read_stateA.
    destruct (decode_encoded _ _ _
                (stringify2 (lit "workspace_id") w (lit "redirect_url") r)
                (well_formed_text2 _ _ _ _ Kw Hw Kr Hr)
                (parse2 _ _ _ _ Kw Hw Kr Hr)) as (st & He & Hd).
    exists st. split; [exact He|]. rewrite Hd. split; reflexivity.
Qed.

(** The round trip at a record without [organization_id] and at one whose
    [redirect_url] has a character outside the BMP. *)
Lemma state_token_roundtrip_witness :
  roundtrips_all_three
    (state_tokenB (JStr (lit "w1")) (field_val None)
                  (JStr (lit "https://app/x?" ++ [55357; 56832])))
    (JStr (lit "w1")) (field_val None)
    (JStr (lit "https://app/x?" ++ [55357; 56832])).
Proof.
  exact (proj1 (state_token_roundtrip (lit "w1")
                  (lit "https://app/x?" ++ [55357; 56832]) None
                  eq_refl eq_refl eq_refl)).
Defined.

(** ** Running the handlers *)

Lemma skipn_app_exact {A} (l r : list A) : skipn (List.length l) (l ++ r) = r.
Proof. induction l; simpl; auto. Qed.

Lemma new_events_app w s c l :
  new_events w (mkWorld s c (trace w ++ l)) = l.
Proof. unfold new_events; simpl. apply skipn_app_exact. Qed.

Lemma new_events_refl w : new_events w w = [].
Proof.
  unfold new_events. rewrite <- (app_nil_r (trace w)) at 2.
  apply skipn_app_exact.
Qed.

(** Steps through the monad's operations. *)
Ltac run_m :=
  repeat (progress (unfold store_call, emit, ret, throw, await, setCredentials,
                      getClient, lift, try_catch, bind in *;
                    cbv beta iota in *;
                    cbn [fst snd store client trace] in *)).


(** Reads off the events a run appended. *)
Ltac events :=
  cbn [fst snd store client trace];
  repeat rewrite <- app_assoc; cbn [app];
  try rewrite new_events_app; try rewrite new_events_refl.

Lemma credentials_eta c :
  mkCredentials (access_token c) (refresh_token c) (expiry_date c) = c.
Proof. destruct c; reflexivity. Qed.

(** *** The store *)

Lemma matches_apply_patch ws p r : matches ws (apply_patch p r) = matches ws r.
Proof. reflexivity. Qed.

(** An update keeps the rows of a workspace in place and patches each. *)
Lemma filter_update_rows ws p rows :
  filter (matches ws) (update_rows ws p rows)
  = map (apply_patch p) (filter (matches ws) rows).
Proof.
  unfold update_rows. induction rows as [|r rows IH]; [reflexivity|].
  cbn [map filter]. destruct (matches ws r) eqn:E.
  - rewrite matches_apply_patch, E. cbn [map]. rewrite IH. reflexivity.
  - rewrite E. exact IH.
Qed.

(** When no row of the workspace holds credentials, the lookup answers with
    an error or with a [null] credentials column. *)
Lemma select_no_credentials ws rows :
  (forall r, In r rows -> matches ws r = true -> row_credentials r = None) ->
  res_error (select_single ws rows) <> None
  \/ res_data (select_single ws rows) = Some None.
Proof.
  intros H. unfold select_single.
  destruct (filter (matches ws) rows) as [|r [|r' l]] eqn:E; simpl.
  - left; discriminate.
  - right. f_equal.
    assert (Hin : In r (filter (matches ws) rows)) by (rewrite E; left; reflexivity).
    apply filter_In in Hin. destruct Hin. auto.
  - left; discriminate.
Qed.

(** *** The switch on [tool] *)



(** The switch leaves the store and the client alone and makes at most one
    call, to the analytics API. *)
Lemma dispatch_effects env tool params w :
  store (snd (dispatch env tool params w)) = store w
  /\ client (snd (dispatch env tool params w)) = client w
  /\ exists new,
       trace (snd (dispatch env tool params w)) = trace w ++ new
       /\ forallb is_analytics_call new = true
       /\ (List.length new <= 1)%nat.
Proof.
  unfold dispatch, run_report, unknown_tool.
  repeat match goal with
  | |- context [if ?b then _ else _] => destruct b
  end; run_m;
  repeat match goal with
  | |- context [match ?r with Ok _ => _ | Throw _ => _ end] =>
      destruct r; cbn [fst snd store client trace]
  | |- context [match ?r with Resolves _ => _ | Rejects _ => _ end] =>
      destruct r; cbn [fst snd store client trace]
  end;
  repeat split; try reflexivity;
  try (exists []; rewrite app_nil_r; repeat split; auto; fail);
  try (eexists; split; [reflexivity | split; [reflexivity | simpl; lia]]).
Qed.

Lemma analytics_only l :
  forallb is_analytics_call l = true ->
  existsb is_refresh l = false /\ existsb is_store_write l = false.
Proof.
  induction l as [|x l IH]; [auto|].
  cbn [forallb existsb]. intros H. apply andb_true_iff in H.
  destruct H as [Hx Hl]. destruct (IH Hl) as [-> ->].
  destruct x as [[]| | | | | | |]; try discriminate; auto.
Qed.

(** The switch inside the handler's [try]: the catch block only logs. *)
Lemma dispatch_caught env tool params w :
  let w' := snd (try_catch (dispatch env tool params) query_failed w) in
  store w' = store w
  /\ exists new,
       trace w' = trace w ++ new
       /\ existsb is_refresh new = false
       /\ existsb is_store_write new = false.
Proof.
  intros w'. subst w'.
  destruct (dispatch_effects env tool params w) as (Hs & _ & new & Ht & Ha & _).
  destruct (analytics_only new Ha) as [Hr Hw].
  unfold try_catch, query_failed.
  destruct (dispatch env tool params w) as [[a|e] w1]; cbn [snd] in *.
  - split; [exact Hs|]. exists new. auto.
  - run_m. split; [exact Hs|].
    exists (new ++ [EvLogError (lit "Query error:") e]).
    rewrite Ht, <- app_assoc. split; [reflexivity|].
    rewrite !existsb_app, Hr, Hw. split; reflexivity.
Qed.

Lemma caught_new_events env tool params w s c pre :
  exists new,
    new_events w (snd (try_catch (dispatch env tool params) query_failed
                         (mkWorld s c (trace w ++ pre))))
    = pre ++ new
    /\ existsb is_refresh new = false
    /\ existsb is_store_write new = false.
Proof.
  destruct (dispatch_caught env tool params (mkWorld s c (trace w ++ pre)))
    as (_ & new & Ht & Hr & Hw).
  cbv zeta in Ht. exists new. split; [| split; assumption].
  destruct (snd _) as [s' c' t']. cbn [trace] in Ht. subst t'.
  rewrite <- app_assoc. apply new_events_app.
Qed.

Lemma no_refresh_count l :
  existsb is_refresh l = false -> count_calls is_refresh l = 0%nat.
Proof.
  unfold count_calls. induction l as [|x l IH]; [reflexivity|].
  cbn [existsb filter]. intros H. apply orb_false_elim in H.
  destruct H as [Hx Hl]. rewrite Hx. auto.
Qed.

(** *** The query handler up to the switch *)

Lemma query_unfold env props :
  query env (JObj props)
  = try_catch
      (r <- store_call env (Select (own "workspace_id" props)) ;;
       match res_error r, res_data r with
       | None, Some (Some stored) =>
           setCredentials (mkCredentials (access_token stored)
                                         (refresh_token stored)
                                         (expiry_date stored)) ;;;
           refresh_block env (own "workspace_id" props) stored ;;;
           dispatch env (own "tool" props) (own "params" props)
       | _, _ => ret not_connected
       end)
      query_failed.
Proof. reflexivity. Qed.

(** Credentials that need no refresh: the switch runs right after the
    lookup, with the stored credentials on the client. *)
Lemma query_fresh env props w r stored :
  let ws := own "workspace_id" props in
  store_fault env (Select ws) = NoFault ->
  filter (matches ws) (store w) = [r] ->
  row_credentials r = Some stored ->
  expired env (expiry_date stored) = false ->
  query env (JObj props) w
  = try_catch (dispatch env (own "tool" props) (own "params" props)) query_failed
      (mkWorld (store w) stored (trace w ++ [EvStore (Select ws)])).
Proof.
  intros ws Hsel Hrow Hcred Hexp. rewrite query_unfold. fold ws.
  unfold refresh_block. run_m. rewrite Hsel. cbn [store_answer store_effect].
  unfold select_single. rewrite Hrow. cbn [res_error res_data]. rewrite Hcred.
  rewrite Hexp, credentials_eta. reflexivity.
Qed.

(** Expired credentials, a refresh that succeeds and a store that carries
    out the update: the switch runs after lookup, refresh and update, on a
    store that holds the refreshed credentials. *)
Lemma query_refreshed env props w r stored fresh :
  let ws := own "workspace_id" props in
  store_fault env (Select ws) = NoFault ->
  filter (matches ws) (store w) = [r] ->
  row_credentials r = Some stored ->
  expired env (expiry_date stored) = true ->
  refreshAccessToken env stored = Resolves fresh ->
  store_fault env (Update ws (refresh_patch stored fresh)) = NoFault ->
  query env (JObj props) w
  = try_catch (dispatch env (own "tool" props) (own "params" props)) query_failed
      (mkWorld (update_rows ws (refresh_patch stored fresh) (store w)) fresh
               (trace w ++ [EvStore (Select ws); EvRefresh stored;
                            EvStore (Update ws (refresh_patch stored fresh))])).
Proof.
  intros ws Hsel Hrow Hcred Hexp Hf Hu. rewrite query_unfold. fold ws.
  unfold refresh_block. run_m. rewrite Hsel. cbn [store_answer store_effect].
  unfold select_single. rewrite Hrow. cbn [res_error res_data]. rewrite Hcred.
  rewrite Hexp, credentials_eta. run_m. rewrite Hf. run_m. rewrite Hu.
  cbn [store_answer store_effect]. repeat rewrite <- app_assoc. reflexivity.
Qed.

(** [expiry_date && Date.now() > expiry_date] holds for the nonzero
    timestamps below the clock and for nothing else. *)
Lemma expired_spec env e :
  expired env e = true <-> exists n, e = Has n /\ n <> 0 /\ n < now env.
Proof.
  unfold expired, num_truthy. split.
  - destruct e as [| | n]; try discriminate. intros H.
    apply andb_true_iff in H. destruct H as [H1 H2].
    exists n. repeat split; [| lia].
    intros ->. discriminate.
  - intros (n & -> & Hn & Hlt).
    apply andb_true_iff. split; [| lia].
    destruct (Z.eqb_spec n 0); [contradiction | reflexivity].
Qed.

(** ** The refresh block (C1, C2) *)

(** Whatever the environment answers, a query leaves the store as it was or
    as the refresh block's update made it. *)
Lemma query_store env props w :
  let ws := own "workspace_id" props in
  let w' := snd (query env (JObj props) w) in
  store w' = store w
  \/ exists r stored fresh,
       filter (matches ws) (store w) = [r]
       /\ row_credentials r = Some stored
       /\ store w' = update_rows ws (refresh_patch stored fresh) (store w).
Proof.
  intros ws w'. subst w'. rewrite query_unfold. fold ws.
  unfold refresh_block. run_m.
  destruct (store_fault env (Select ws)) eqn:Hsel; run_m; try (left; reflexivity).
  cbn [store_answer store_effect]. unfold select_single.
  destruct (filter (matches ws) (store w)) as [|r [|r' l]] eqn:Hrow;
    cbn [res_error res_data]; try (left; reflexivity).
  destruct (row_credentials r) as [stored|] eqn:Hcred; try (left; reflexivity).
  rewrite credentials_eta.
  destruct (expired env (expiry_date stored)) eqn:Hexp; run_m.
  - destruct (refreshAccessToken env stored) as [fresh|e] eqn:Hf; run_m.
    + destruct (store_fault env (Update ws (refresh_patch stored fresh))) eqn:Hu;
        cbn [store_answer store_effect].
      * right. exists r, stored, fresh. split; [reflexivity|]. split; [exact Hcred|].
        match goal with
        | |- context [dispatch ?e ?t ?p ?w2] =>
            destruct (dispatch_caught e t p w2) as [Hs _]
        end.
        unfold try_catch in Hs. cbv zeta in Hs. rewrite Hs. reflexivity.
      * left.
        match goal with
        | |- context [dispatch ?e ?t ?p ?w2] =>
            destruct (dispatch_caught e t p w2) as [Hs _]
        end.
        unfold try_catch in Hs. cbv zeta in Hs. rewrite Hs. reflexivity.
      * left. reflexivity.
    + left. reflexivity.
  - left.
    match goal with
    | |- context [dispatch ?e ?t ?p ?w2] =>
        destruct (dispatch_caught e t p w2) as [Hs _]
    end.
    unfold try_catch in Hs. cbv zeta in Hs. rewrite Hs. reflexivity.
Qed.

(** C1.  For every workspace with one stored credential record: whatever
    the store, the identity provider and the analytics API answer, a refresh
    token that is there before the query is there after it; and when the
    access token is expired, the refresh succeeds and the store carries out the
    update, the record's [refresh_token] is the stored one if the refresh
    response has none (absent, [null] or empty) and the new one if the response
    brings one. *)
Theorem refresh_keeps_refresh_token env props w r stored :
  let ws := own "workspace_id" props in
  let after := store (snd (query env (JObj props) w)) in
  filter (matches ws) (store w) = [r] ->
  row_credentials r = Some stored ->
  (str_truthy (refresh_token stored) = true ->
   exists r' kept,
     filter (matches ws) after = [r']
     /\ row_credentials r' = Some kept
     /\ str_truthy (refresh_token kept) = true)
  /\ (forall fresh,
        store_fault env (Select ws) = NoFault ->
        expired env (expiry_date stored) = true ->
        refreshAccessToken env stored = Resolves fresh ->
        store_fault env (Update ws (refresh_patch stored fresh)) = NoFault ->
        exists r' persisted,
          filter (matches ws) after = [r']
          /\ row_credentials r' = Some persisted
          /\ (refresh_token fresh = Undefined \/ refresh_token fresh = Null
              \/ refresh_token fresh = Has [] ->
              refresh_token persisted = refresh_token stored)
          /\ (forall t, t <> [] -> refresh_token fresh = Has t ->
              refresh_token persisted = Has t)).
Proof.
  intros ws after Hrow Hcred. subst after. split.
  - intros Hrt.
    destruct (query_store env props w)
      as [Hs | (r0 & stored0 & fresh & Hrow0 & Hcred0 & Hs)];
      cbv zeta in Hs; fold ws in Hs; rewrite Hs.
    + exists r, stored. auto.
    + fold ws in Hrow0. rewrite Hrow in Hrow0. inversion Hrow0; subst r0.
      rewrite Hcred in Hcred0. inversion Hcred0; subst stored0.
      rewrite filter_update_rows, Hrow. cbn [map].
      exists (apply_patch (refresh_patch stored fresh) r), (refreshed stored fresh).
      split; [reflexivity|]. split; [reflexivity|].
      unfold refreshed, opt_or. cbn [refresh_token].
      destruct (str_truthy (refresh_token fresh)) eqn:E; assumption.
  - intros fresh Hsel Hexp Hf Hu.
    rewrite (query_refreshed env props w r stored fresh Hsel Hrow Hcred Hexp Hf Hu).
    match goal with
    | |- context [try_catch ?d query_failed ?w2] =>
        destruct (dispatch_caught env (own "tool" props) (own "params" props) w2)
          as [Hs _]
    end.
    cbv zeta in Hs. rewrite Hs. cbn [store]. fold ws.
    rewrite filter_update_rows, Hrow. cbn [map].
    exists (apply_patch (refresh_patch stored fresh) r), (refreshed stored fresh).
    split; [reflexivity|]. split; [reflexivity|].
    unfold refreshed, opt_or. cbn [refresh_token]. split.
    + intros [-> | [-> | ->]]; reflexivity.
    + intros t Ht ->. destruct t; [congruence | reflexivity].
Qed.

(** A refresh response without [refresh_token]: the stored one stays. *)
Lemma refresh_keeps_refresh_token_witness :
  exists r' persisted,
    filter (matches (JStr (lit "w2")))
           (store (snd (query Scenario.healthy
                              (JObj (Scenario.top_pages (JNum 5)))
                              (Scenario.world Scenario.stale)))) = [r']
    /\ row_credentials r' = Some persisted
    /\ refresh_token persisted = Has (lit "1//refresh").
Proof.
  destruct (proj2 (refresh_keeps_refresh_token Scenario.healthy
                     (Scenario.top_pages (JNum 5)) (Scenario.world Scenario.stale)
                     (mkRow (JStr (lit "w2")) platform Connected (Some Scenario.stale)
                            (lit "2023-11-01T09:00:00.000Z"))
                     Scenario.stale eq_refl eq_refl)
                  Scenario.fresh eq_refl eq_refl eq_refl eq_refl)
    as (r' & persisted & Hrow & Hcred & Hkeep & _).
  exists r', persisted. split; [exact Hrow|]. split; [exact Hcred|].
  apply Hkeep. left. reflexivity.
Defined.

(** C2, as stated, fails for a stored [expiry_date] of 0: the timestamp is
    set and lies in the past, and the guard [expiry_date && ...] reads it as
    absent, so no refresh call is made. *)
Lemma epoch_expiry_not_refreshed :
  ~ Stated.refreshes_once Scenario.healthy (JObj (Scenario.top_pages (JNum 5)))
      (Scenario.world Scenario.epoch) Scenario.epoch.
Proof.
  intros H. specialize (H eq_refl). vm_compute in H. discriminate H.
Qed.

(** C2 (amended).  For every query request whose stored credential has a
    nonzero [expiry_date] below the clock, the lookup is followed by exactly
    one refresh call, ahead of everything else the handler does; when the
    refresh succeeds and the store carries out the update, the switch runs on
    a store whose record already holds the refreshed tokens: the access token
    and the expiry of the refresh response, and its refresh token when it
    brings a non-empty one, else the stored refresh token.  For every
    credential whose [expiry_date] is absent, [null], zero or not below the
    clock, no refresh call is made. *)
Theorem query_refresh_protocol env props w r stored :
  let ws := own "workspace_id" props in
  let run := query env (JObj props) w in
  store_fault env (Select ws) = NoFault ->
  filter (matches ws) (store w) = [r] ->
  row_credentials r = Some stored ->
  (forall n, expiry_date stored = Has n -> n <> 0 -> n < now env ->
     (exists rest,
        new_events w (snd run) = EvStore (Select ws) :: EvRefresh stored :: rest
        /\ existsb is_refresh rest = false)
     /\ (forall fresh,
           refreshAccessToken env stored = Resolves fresh ->
           store_fault env (Update ws (refresh_patch stored fresh)) = NoFault ->
           let persisted := update_rows ws (refresh_patch stored fresh) (store w) in
           map row_credentials (filter (matches ws) persisted)
           = [Some (mkCredentials
                      (access_token fresh)
                      (match refresh_token fresh with
                       | Has (c :: s) => Has (c :: s)
                       | _ => refresh_token stored
                       end)
                      (expiry_date fresh))]
           /\ run = try_catch (dispatch env (own "tool" props) (own "params" props))
                      query_failed
                      (mkWorld persisted fresh
                         (trace w ++ [EvStore (Select ws); EvRefresh stored;
                                      EvStore (Update ws (refresh_patch stored fresh))]))))
  /\ (expiry_date stored = Undefined \/ expiry_date stored = Null
      \/ expiry_date stored = Has 0
      \/ (exists n, expiry_date stored = Has n /\ now env <= n) ->
      count_calls is_refresh (new_events w (snd run)) = 0%nat).
Proof.
  intros ws run Hsel Hrow Hcred. split.
  - intros n Hn Hnz Hlt.
    assert (Hexp : expired env (expiry_date stored) = true).
    { apply expired_spec. exists n. auto. }
    split.
    + subst run. rewrite query_unfold. fold ws. unfold refresh_block. run_m.
      rewrite Hsel. cbn [store_answer store_effect]. unfold select_single.
      rewrite Hrow. cbn [res_error res_data]. rewrite Hcred, Hexp, credentials_eta.
      run_m. destruct (refreshAccessToken env stored) as [fresh | e] eqn:Hf; run_m.
      * destruct (store_fault env (Update ws (refresh_patch stored fresh))) eqn:Hu;
          cbn [store_answer store_effect]; repeat rewrite <- app_assoc; cbn [app].
        -- match goal with
           | |- context [dispatch ?e ?t ?p (mkWorld ?s ?c (trace w ++ ?pre))] =>
               destruct (caught_new_events e t p w s c pre) as (new & Hnew & Hr & _)
           end.
           unfold try_catch in Hnew. rewrite Hnew. cbn [app].
           eexists; split; [reflexivity | exact Hr].
        -- match goal with
           | |- context [dispatch ?e ?t ?p (mkWorld ?s ?c (trace w ++ ?pre))] =>
               destruct (caught_new_events e t p w s c pre) as (new & Hnew & Hr & _)
           end.
           unfold try_catch in Hnew. rewrite Hnew. cbn [app].
           eexists; split; [reflexivity | exact Hr].
        -- unfold query_failed. run_m. events.
           eexists; split; [reflexivity | reflexivity].
      * unfold query_failed. run_m. events.
        eexists; split; [reflexivity | reflexivity].
    + intros fresh Hf Hu persisted. split.
      * subst persisted. rewrite filter_update_rows, Hrow.
        cbn [map apply_patch refresh_patch patch_credentials row_credentials].
        unfold refreshed, opt_or, str_truthy.
        destruct (refresh_token fresh) as [| | [|c s]]; reflexivity.
      * subst run persisted.
        apply (query_refreshed env props w r stored fresh Hsel Hrow Hcred Hexp Hf Hu).
  - intros Hnot.
    assert (Hexp : expired env (expiry_date stored) = false).
    { destruct (expired env (expiry_date stored)) eqn:E; [| reflexivity].
      apply expired_spec in E. destruct E as (n & Hn & Hnz & Hlt).
      destruct Hnot as [H | [H | [H | (m & H & Hm)]]]; rewrite Hn in H;
        try discriminate; inversion H; subst; lia. }
    subst run. rewrite (query_fresh env props w r stored Hsel Hrow Hcred Hexp).
    match goal with
    | |- context [try_catch (dispatch ?e ?t ?p) query_failed
                            (mkWorld ?s ?c (trace w ++ ?pre))] =>
        destruct (caught_new_events e t p w s c pre) as (new & Hnew & Hr & _)
    end.
    rewrite Hnew. apply no_refresh_count. cbn [app existsb is_refresh orb]. exact Hr.
Qed.

(** A credential that expired a millisecond ago: lookup, then the refresh;
    the record then holds the new access token and expiry and, the response
    bringing no refresh token, the stored one. *)
Lemma query_refresh_protocol_witness :
  (exists rest,
     new_events (Scenario.world Scenario.stale)
                (snd (query Scenario.healthy (JObj (Scenario.top_pages (JNum 5)))
                            (Scenario.world Scenario.stale)))
     = EvStore (Select (JStr (lit "w2"))) :: EvRefresh Scenario.stale :: rest
     /\ existsb is_refresh rest = false)
  /\ map row_credentials
         (filter (matches (JStr (lit "w2")))
            (update_rows (JStr (lit "w2"))
               (refresh_patch Scenario.stale Scenario.fresh)
               (store (Scenario.world Scenario.stale))))
     = [Some (mkCredentials (Has (lit "ya29.second")) (Has (lit "1//refresh"))
                            (Has 1700007200000))].
Proof.
  assert (Hnz : 1699999999999 <> 0) by discriminate.
  destruct (proj1 (query_refresh_protocol Scenario.healthy
                     (Scenario.top_pages (JNum 5))
                     (Scenario.world Scenario.stale)
                     (mkRow (JStr (lit "w2")) platform Connected
                            (Some Scenario.stale)
                            (lit "2023-11-01T09:00:00.000Z"))
                     Scenario.stale eq_refl eq_refl eq_refl)
                  1699999999999 eq_refl Hnz eq_refl) as [Hcalls Hstore].
  split; [exact Hcalls|].
  exact (proj1 (Hstore Scenario.fresh eq_refl eq_refl)).
Defined.

(** ** Credential lookup (C5) *)

(** The run of a query for a workspace without credentials. *)
Lemma query_not_connected_run env props w :
  let ws := own "workspace_id" props in
  (forall r, In r (store w) -> matches ws r = true -> row_credentials r = None) ->
  (forall e, store_fault env (Select ws) <> FaultReject e) ->
  query env (JObj props) w
  = (Ok not_connected,
     mkWorld (store w) (client w) (trace w ++ [EvStore (Select ws)])).
Proof.
  intros ws Hrows Hrej.
  rewrite query_unfold. fold ws. run_m.
  destruct (store_fault env (Select ws)) as [| e | e] eqn:F.
  - cbn [store_answer store_effect].
    destruct (select_no_credentials ws (store w) Hrows) as [He | Hd].
    + destruct (res_error (select_single ws (store w))); [reflexivity | congruence].
    + rewrite Hd. destruct (res_error (select_single ws (store w))); reflexivity.
  - destruct w; reflexivity.
  - exfalso. apply (Hrej e). reflexivity.
Qed.

(** C5.  For every query request whose workspace has no record with
    credentials (no record at all, or a record whose credentials are [null]),
    and a lookup that does not reject: the response is 401 with the message
    [Not connected to Google Analytics], the store lookup is the only external
    call, and so the identity provider and the analytics API are called zero
    times. *)
Theorem query_not_connected env props w :
  let ws := own "workspace_id" props in
  let run := query env (JObj props) w in
  (forall r, In r (store w) -> matches ws r = true -> row_credentials r = None) ->
  (forall e, store_fault env (Select ws) <> FaultReject e) ->
  fst run = Ok (Json 401 (JObj [(lit "error",
                                 JStr (lit "Not connected to Google Analytics"))]))
  /\ new_events w (snd run) = [EvStore (Select ws)]
  /\ count_calls is_idp_call (new_events w (snd run)) = 0%nat
  /\ count_calls is_analytics_call (new_events w (snd run)) = 0%nat.
Proof.
  intros ws run Hrows Hrej. subst run.
  rewrite (query_not_connected_run env props w Hrows Hrej). fold ws.
  events. repeat split; reflexivity.
Qed.

(** A query for a workspace the store has never seen. *)
Lemma query_not_connected_witness :
  fst (query Scenario.healthy (JObj (Scenario.top_pages (JNum 5)))
             Scenario.empty_world)
  = Ok (Json 401 (JObj [(lit "error",
                         JStr (lit "Not connected to Google Analytics"))]))
  /\ new_events Scenario.empty_world
       (snd (query Scenario.healthy (JObj (Scenario.top_pages (JNum 5)))
                   Scenario.empty_world))
     = [EvStore (Select (JStr (lit "w2")))]
  /\ count_calls is_idp_call
       (new_events Scenario.empty_world
          (snd (query Scenario.healthy (JObj (Scenario.top_pages (JNum 5)))
                      Scenario.empty_world))) = 0%nat
  /\ count_calls is_analytics_call
       (new_events Scenario.empty_world
          (snd (query Scenario.healthy (JObj (Scenario.top_pages (JNum 5)))
                      Scenario.empty_world))) = 0%nat.
Proof.
  apply (query_not_connected Scenario.healthy (Scenario.top_pages (JNum 5))
           Scenario.empty_world).
  - intros r [].
  - intros e. discriminate.
Defined.

(** ** The switch (C6, C7, C10) *)




(** The report call of [get_top_pages], with the catch block around it. *)
Lemma top_pages_dispatch env pp w pid :
  to_string (own "property_id" pp) = Ok pid ->
  let request :=
    mkReport (lit "properties/" ++ pid)
             (js_or (own "start_date" pp) (JStr (lit "30daysAgo")))
             (js_or (own "end_date" pp) (JStr (lit "today")))
             [lit "screenPageViews"; lit "activeUsers"] [lit "pagePath"]
             (Some (js_or (own "limit" pp) (JNum 10))) in
  try_catch (dispatch env (JStr (lit "get_top_pages")) (JObj pp)) query_failed w
  = match runReport env (client w) request with
    | Resolves result =>
        (Ok (send_data result),
         mkWorld (store w) (client w) (trace w ++ [EvRunReport (client w) request]))
    | Rejects e =>
        (Ok (server_error e),
         mkWorld (store w) (client w)
                 (trace w ++ [EvRunReport (client w) request;
                              EvLogError (lit "Query error:") e]))
    end.
Proof.
  intros Hpid request. unfold dispatch.
  change (tool_is (JStr (lit "get_top_pages")) "get_traffic_overview") with false.
  change (tool_is (JStr (lit "get_top_pages")) "get_top_pages") with true.
  cbv iota. unfold report_request, property_of, param_or, run_report, query_failed.
  cbn [get_prop res_bind]. rewrite Hpid. cbn [res_bind map]. fold request. run_m.
  destruct (runReport env (client w) request); run_m;
    repeat rewrite <- app_assoc; reflexivity.
Qed.

(** C7, as stated, fails for [limit: 0]: the caller supplied a limit and
    the report call is issued with 10. *)
Lemma top_pages_limit_zero :
  ~ Stated.issues_top_pages_request Scenario.healthy
      (JObj (Scenario.top_pages (JNum 0))) (Scenario.world Scenario.valid)
      Scenario.valid (lit "123") (Scenario.top_pages_params (JNum 0)).
Proof.
  unfold Stated.issues_top_pages_request. vm_compute. intros H. discriminate H.
Qed.

(** C7 (amended).  For every query request with tool [get_top_pages], an
    object for [params] whose [property_id] prints as [id], and a stored
    credential that needs no refresh: exactly one analytics call is issued, a
    report on [properties/id] with metrics [screenPageViews], [activeUsers],
    dimension [pagePath], the caller's [limit] when it is truthy and 10
    otherwise, the caller's [start_date] and [end_date] when truthy and
    [30daysAgo], [today] otherwise; the response carries the API result's
    payload under [data], or is a 500 with the error's message when the call
    rejects. *)
Theorem query_top_pages env props pp w r stored id :
  let ws := own "workspace_id" props in
  own "tool" props = JStr (lit "get_top_pages") ->
  own "params" props = JObj pp ->
  to_string (own "property_id" pp) = Ok id ->
  store_fault env (Select ws) = NoFault ->
  filter (matches ws) (store w) = [r] ->
  row_credentials r = Some stored ->
  expired env (expiry_date stored) = false ->
  let request :=
    mkReport (lit "properties/" ++ id)
             (js_or (own "start_date" pp) (JStr (lit "30daysAgo")))
             (js_or (own "end_date" pp) (JStr (lit "today")))
             [lit "screenPageViews"; lit "activeUsers"] [lit "pagePath"]
             (Some (js_or (own "limit" pp) (JNum 10))) in
  filter is_analytics_call (new_events w (snd (query env (JObj props) w)))
  = [EvRunReport stored request]
  /\ fst (query env (JObj props) w)
     = match runReport env stored request with
       | Resolves result => Ok (Json 200 (JObj [(lit "data", data result)]))
       | Rejects e => Ok (Json 500 (JObj [(lit "error", JStr (err_message e))]))
       end.
Proof.
  intros ws Htool Hparams Hpid Hsel Hrow Hcred Hexp request.
  rewrite (query_fresh env props w r stored Hsel Hrow Hcred Hexp).
  rewrite Htool, Hparams, (top_pages_dispatch env pp _ id Hpid).
  cbn [client]. fold request ws.
  destruct (runReport env stored request); events; split; reflexivity.
Qed.

(** The specification's scenario: [limit: 5] and no dates. *)
Lemma query_top_pages_witness :
  filter is_analytics_call
    (new_events (Scenario.world Scenario.valid)
       (snd (query Scenario.healthy (JObj (Scenario.top_pages (JNum 5)))
                   (Scenario.world Scenario.valid))))
  = [EvRunReport Scenario.valid
       (mkReport (lit "properties/123") (JStr (lit "30daysAgo")) (JStr (lit "today"))
                 [lit "screenPageViews"; lit "activeUsers"] [lit "pagePath"]
                 (Some (JNum 5)))]
  /\ fst (query Scenario.healthy (JObj (Scenario.top_pages (JNum 5)))
                (Scenario.world Scenario.valid))
     = Ok (Json 200 (JObj [(lit "data", data Scenario.report)])).
Proof.
  exact (query_top_pages Scenario.healthy (Scenario.top_pages (JNum 5))
           (Scenario.top_pages_params (JNum 5)) (Scenario.world Scenario.valid)
           (mkRow (JStr (lit "w2")) platform Connected (Some Scenario.valid)
                  (lit "2023-11-01T09:00:00.000Z"))
           Scenario.valid (lit "123")
           eq_refl eq_refl eq_refl eq_refl eq_refl eq_refl eq_refl).
Defined.

(** C10.  For each of the three report tools and every [params] object
    whose [property_id] prints: one report call is issued, and a [start_date],
    [end_date] or (for [get_top_pages]) [limit] that is present and falsy, as
    [limit: 0] and the empty string are, is replaced by [30daysAgo], [today]
    and 10. *)
Theorem falsy_params_take_defaults env name pp w id :
  In name report_tools ->
  to_string (own "property_id" pp) = Ok id ->
  exists request,
    new_events w (snd (dispatch env (JStr (lit name)) (JObj pp) w))
    = [EvRunReport (client w) request]
    /\ (forall v, lookup (lit "start_date") pp = Some v -> truthy v = false ->
          startDate request = JStr (lit "30daysAgo"))
    /\ (forall v, lookup (lit "end_date") pp = Some v -> truthy v = false ->
          endDate request = JStr (lit "today"))
    /\ (name = "get_top_pages"%string ->
        forall v, lookup (lit "limit") pp = Some v -> truthy v = false ->
          limit request = Some (JNum 10)).
Proof.
  intros Htool Hpid.
  assert (Hor : forall k d v, lookup (lit k) pp = Some v -> truthy v = false ->
                              js_or (own k pp) d = d).
  { intros k d v Hl Hv. unfold js_or, own. rewrite Hl, Hv. reflexivity. }
  unfold report_tools in Htool. cbn [In] in Htool.
  destruct Htool as [<- | [<- | [<- | []]]];
  unfold dispatch;
  match goal with
  | |- context [tool_is ?t "get_traffic_overview"] =>
      let b := eval vm_compute in (tool_is t "get_traffic_overview") in
      change (tool_is t "get_traffic_overview") with b
  end;
  try match goal with
  | |- context [tool_is ?t "get_top_pages"] =>
      let b := eval vm_compute in (tool_is t "get_top_pages") in
      change (tool_is t "get_top_pages") with b
  end;
  try match goal with
  | |- context [tool_is ?t "get_traffic_sources"] =>
      let b := eval vm_compute in (tool_is t "get_traffic_sources") in
      change (tool_is t "get_traffic_sources") with b
  end;
  cbv iota;
  unfold report_request, property_of, param_or, run_report;
  cbn [get_prop res_bind]; rewrite Hpid; cbn [res_bind];
  match goal with
  | |- context [Ok ?r] => exists r
  end;
  (split; [run_m; destruct (runReport env _ _); events; reflexivity |]);
  cbn [startDate endDate limit];
  repeat split; intros; try discriminate; try (erewrite Hor; eauto).
Qed.

(** [get_top_pages] with [limit: 0] and an empty [start_date]. *)
Lemma falsy_params_take_defaults_witness :
  exists request,
    new_events (Scenario.world Scenario.valid)
      (snd (dispatch Scenario.healthy (JStr (lit "get_top_pages"))
              (JObj [(lit "property_id", JNum 123); (lit "limit", JNum 0);
                     (lit "start_date", JStr [])])
              (Scenario.world Scenario.valid)))
    = [EvRunReport no_credentials request]
    /\ startDate request = JStr (lit "30daysAgo")
    /\ limit request = Some (JNum 10).
Proof.
  destruct (falsy_params_take_defaults Scenario.healthy "get_top_pages"
              [(lit "property_id", JNum 123); (lit "limit", JNum 0);
               (lit "start_date", JStr [])]
              (Scenario.world Scenario.valid) (lit "123")
              (or_intror (or_introl eq_refl)) eq_refl)
    as (request & Hev & Hstart & _ & Hlimit).
  exists request. split; [exact Hev|]. split.
  - apply (Hstart (JStr [])); reflexivity.
  - apply (Hlimit eq_refl (JNum 0)); reflexivity.
Defined.

(** ** Disconnect (C8) *)

(** What the handler does, by what the store answers: the update's [error]
    field is not looked at, so only a rejected call reaches the catch block. *)
Lemma disconnect_run env props w :
  let ws := own "workspace_id" props in
  let logged := trace w ++ [EvStore (Update ws disconnect_patch)] in
  disconnect env (JObj props) w
  = match store_fault env (Update ws disconnect_patch) with
    | NoFault =>
        (Ok disconnected,
         mkWorld (update_rows ws disconnect_patch (store w)) (client w) logged)
    | FaultError _ => (Ok disconnected, mkWorld (store w) (client w) logged)
    | FaultReject e => (Ok (server_error e), mkWorld (store w) (client w) logged)
    end.
Proof.
  intros ws logged. unfold disconnect. cbn [get_prop]. run_m. fold ws.
  destruct (store_fault env (Update ws disconnect_patch)); reflexivity.
Qed.

(** After an update that is carried out, every row of the workspace has
    [null] credentials and status [disconnected]. *)
Lemma disconnect_clears ws rows r :
  In r (update_rows ws disconnect_patch rows) -> matches ws r = true ->
  row_credentials r = None /\ row_status r = Disconnected.
Proof.
  unfold update_rows. intros Hin Hm. apply in_map_iff in Hin.
  destruct Hin as (r0 & Hr & _). destruct (matches ws r0) eqn:E.
  - subst r. split; reflexivity.
  - subst r. congruence.
Qed.

(** Disconnecting twice is disconnecting once. *)
Lemma disconnect_idempotent ws rows :
  update_rows ws disconnect_patch (update_rows ws disconnect_patch rows)
  = update_rows ws disconnect_patch rows.
Proof.
  unfold update_rows. rewrite map_map. apply map_ext. intros r.
  destruct (matches ws r) eqn:E.
  - rewrite matches_apply_patch, E. reflexivity.
  - rewrite E. reflexivity.
Qed.

(** A workspace without a row: the update changes nothing, and no row is
    created for it. *)
Lemma disconnect_never_connected ws rows :
  filter (matches ws) rows = [] -> update_rows ws disconnect_patch rows = rows.
Proof.
  unfold update_rows. induction rows as [|r rows IH]; [reflexivity|].
  cbn [filter map]. destruct (matches ws r); [discriminate|].
  intros H. rewrite (IH H). reflexivity.
Qed.

(** C8, at the failing input.  The store client answers the update of
    workspace [w2] with an [error]: the handler responds 200
    [{success: true}] and the record keeps its credentials and its status
    [connected]; the specification asks for a 500. *)
Theorem disconnect_swallows_store_error :
  disconnect Scenario.store_down (JObj Scenario.disconnect_request)
             (Scenario.world Scenario.valid)
  = (Ok (Json 200 (JObj [(lit "success", JBool true)])),
     mkWorld [mkRow (JStr (lit "w2")) platform Connected (Some Scenario.valid)
                    (lit "2023-11-01T09:00:00.000Z")]
             no_credentials
             [EvStore (Update (JStr (lit "w2")) disconnect_patch)]).
Proof. rewrite disconnect_run. reflexivity. Qed.

(** ** Auth init (C9) *)

Lemma query_get_cases q k :
  query_get q k = JUndefined \/ exists s, query_get q k = JStr s.
Proof.
  induction q as [|[k' v] q IH]; cbn [query_get]; [left; reflexivity|].
  destruct (str_eqb k k'); [right; eexists; reflexivity | exact IH].
Qed.

Lemma present_truthy q k : present q k <-> truthy (query_get q (lit k)) = true.
Proof.
  unfold present. split.
  - intros (s & Hs & ->). destruct s; [congruence | reflexivity].
  - intros H. destruct (query_get_cases q (lit k)) as [E | (s & E)]; rewrite E in *.
    + discriminate.
    + exists s. split; [| reflexivity]. intros ->. discriminate.
Qed.

(** Encoding an object never throws. *)
Lemma encode_state_obj props :
  exists st, encode_state (JObj props) = Ok st.
Proof.
  unfold encode_state. cbn [json_stringify buffer_from res_bind].
  eexists; reflexivity.
Qed.

(** The token of the direct-store initiator reads back. *)
Lemma stateA_reads_back w r :
  well_formed w = true -> well_formed r = true ->
  exists st, state_tokenA (JStr w) (JStr r) = Ok st
             /\ read_stateA (JStr st) = Ok (JStr w, JStr r).
Proof.
  intros Hw Hr. unfold state_tokenA, read_stateA.
  assert (Kw : well_formed (lit "workspace_id") = true) by reflexivity.
  assert (Kr : well_formed (lit "redirect_url") = true) by reflexivity.
  destruct (decode_encoded _ _ _
              (stringify2 (lit "workspace_id") w (lit "redirect_url") r)
              (well_formed_text2 _ _ _ _ Kw Hw Kr Hr)
              (parse2 _ _ _ _ Kw Hw Kr Hr)) as (st & He & Hd).
  exists st. split; [exact He|]. rewrite Hd. reflexivity.
Qed.

(** The token of the bridge initiator reads back. *)
Lemma stateB_reads_back w (o : option JsString) r :
  well_formed w = true -> field_wf o = true -> well_formed r = true ->
  exists st, state_tokenB (JStr w) (field_val o) (JStr r) = Ok st
             /\ read_stateB (JStr st) = Ok (JStr w, field_val o, JStr r).
Proof.
  intros Hw Ho Hr. unfold state_tokenB, read_stateB.
  assert (Kw : well_formed (lit "workspace_id") = true) by reflexivity.
  assert (Ko : well_formed (lit "organization_id") = true) by reflexivity.
  assert (Kr : well_formed (lit "redirect_url") = true) by reflexivity.
  destruct o as [o|]; cbn [field_val field_wf] in *.
  - destruct (decode_encoded _ _ _
                (stringify3 (lit "workspace_id") w (lit "organization_id") o
                            (lit "redirect_url") r)
                (well_formed_text3 _ _ _ _ _ _ Kw Hw Ko Ho Kr Hr)
                (parse3 _ _ _ _ _ _ Kw Hw Ko Ho Kr Hr)) as (st & He & Hd).
    exists st. split; [exact He|]. rewrite Hd. reflexivity.
  - destruct (decode_encoded
                (JObj [(lit "workspace_id", JStr w);
                       (lit "organization_id", JUndefined);
                       (lit "redirect_url", JStr r)]) _ _
                (stringify2 (lit "workspace_id") w (lit "redirect_url") r)
                (well_formed_text2 _ _ _ _ Kw Hw Kr Hr)
                (parse2 _ _ _ _ Kw Hw Kr Hr)) as (st & He & Hd).
    exists st. split; [exact He|]. rewrite Hd. reflexivity.
Qed.

(** C9.  In both variants: a request in which [workspace_id] or
    [redirect_url] is missing (absent or empty) gets 400 with an error message
    and no URL, and the world is left as it was; a request with both gets, the
    world again untouched, the URL the OAuth client generates for
    [access_type: offline], [prompt: consent], the two analytics scopes and
    the state token of the request.  The state token is the base64 of the
    UTF-8 of the JSON text of the request's fields, and for well-formed fields
    the callback's decoding reads the fields back from it: [workspace_id] and
    [redirect_url] in the direct-store variant, these two and the
    [organization_id] (absent when the request has none) in the bridge
    variant. *)
Theorem authInit_contract env q w :
  (~ present q "workspace_id" \/ ~ present q "redirect_url" ->
     authInitA env q w
     = (Ok (Json 400 (JObj [(lit "error",
                             JStr (lit "Missing workspace_id or redirect_url"))])), w)
     /\ authInitB env q w
        = (Ok (Json 400 (JObj [(lit "error",
                                JStr (lit "Missing workspace_id or redirect_url"))])), w))
  /\ (present q "workspace_id" -> present q "redirect_url" ->
      exists stA stB,
        state_tokenA (query_get q (lit "workspace_id"))
                     (query_get q (lit "redirect_url")) = Ok stA
        /\ state_tokenB (query_get q (lit "workspace_id"))
                        (query_get q (lit "organization_id"))
                        (query_get q (lit "redirect_url")) = Ok stB
        /\ authInitA env q w
           = (Ok (Json 200
                    (JObj [(lit "auth_url",
                            JStr (generateAuthUrl env
                                    (mkAuthUrlOpts (lit "offline") (lit "consent")
                                       [lit "https://www.googleapis.com/auth/analytics.readonly";
                                        lit "https://www.googleapis.com/auth/analytics"]
                                       stA)))])), w)
        /\ authInitB env q w
           = (Ok (Json 200
                    (JObj [(lit "auth_url",
                            JStr (generateAuthUrl env
                                    (mkAuthUrlOpts (lit "offline") (lit "consent")
                                       [lit "https://www.googleapis.com/auth/analytics.readonly";
                                        lit "https://www.googleapis.com/auth/analytics"]
                                       stB)))])), w)
        /\ (forall wid url,
              query_get q (lit "workspace_id") = JStr wid ->
              query_get q (lit "redirect_url") = JStr url ->
              stA = base64_encode
                      (utf8_encode
                         (object_text2 (lit "workspace_id") wid
                                       (lit "redirect_url") url))
              /\ (well_formed wid = true -> well_formed url = true ->
                  read_stateA (JStr stA) = Ok (JStr wid, JStr url)))
        /\ (forall wid url (o : option JsString),
              query_get q (lit "workspace_id") = JStr wid ->
              query_get q (lit "redirect_url") = JStr url ->
              query_get q (lit "organization_id") = field_val o ->
              stB = base64_encode
                      (utf8_encode
                         (match o with
                          | Some org =>
                              object_text3 (lit "workspace_id") wid
                                           (lit "organization_id") org
                                           (lit "redirect_url") url
                          | None =>
                              object_text2 (lit "workspace_id") wid
                                           (lit "redirect_url") url
                          end))
              /\ (well_formed wid = true -> field_wf o = true ->
                  well_formed url = true ->
                  read_stateB (JStr stB) = Ok (JStr wid, field_val o, JStr url)))).
Proof.
  split.
  - intros H.
    assert (Hm : negb (truthy (query_get q (lit "workspace_id")))
                 || negb (truthy (query_get q (lit "redirect_url"))) = true).
    { apply orb_true_iff. destruct H as [H | H]; [left | right];
        apply negb_true_iff; rewrite present_truthy in H;
        destruct (truthy _); congruence. }
    unfold authInitA, authInitB. rewrite Hm. split; reflexivity.
  - intros Hw Hr. apply present_truthy in Hw. apply present_truthy in Hr.
    destruct (encode_state_obj
                [(lit "workspace_id", query_get q (lit "workspace_id"));
                 (lit "redirect_url", query_get q (lit "redirect_url"))])
      as (stA & HA).
    destruct (encode_state_obj
                [(lit "workspace_id", query_get q (lit "workspace_id"));
                 (lit "organization_id", query_get q (lit "organization_id"));
                 (lit "redirect_url", query_get q (lit "redirect_url"))])
      as (stB & HB).
    exists stA, stB.
    split; [exact HA|]. split; [exact HB|].
    split; [unfold authInitA, state_tokenA; rewrite Hw, Hr, HA; reflexivity|].
    split; [unfold authInitB, state_tokenB; rewrite Hw, Hr, HB; reflexivity|].
    split.
    + intros wid url Hwid Hurl. rewrite Hwid, Hurl in HA.
      assert (Htext : stA = base64_encode
                              (utf8_encode
                                 (object_text2 (lit "workspace_id") wid
                                               (lit "redirect_url") url))).
      { unfold encode_state in HA. rewrite stringify2 in HA.
        cbn [buffer_from res_bind] in HA. congruence. }
      split; [exact Htext|].
      intros Hwf Huf.
      destruct (stateA_reads_back wid url Hwf Huf) as (st & Henc & Hdec).
      unfold state_tokenA in Henc. rewrite HA in Henc. congruence.
    + intros wid url o Hwid Hurl Horg. rewrite Hwid, Hurl, Horg in HB.
      assert (Htext : stB = base64_encode
                              (utf8_encode
                                 (match o with
                                  | Some org =>
                                      object_text3 (lit "workspace_id") wid
                                                   (lit "organization_id") org
                                                   (lit "redirect_url") url
                                  | None =>
                                      object_text2 (lit "workspace_id") wid
                                                   (lit "redirect_url") url
                                  end))).
      { unfold encode_state in HB. destruct o as [org|]; cbn [field_val] in HB.
        - rewrite stringify3 in HB. cbn [buffer_from res_bind] in HB. congruence.
        - change (json_stringify
                    (JObj [(lit "workspace_id", JStr wid);
                           (lit "organization_id", JUndefined);
                           (lit "redirect_url", JStr url)]))
            with (json_stringify
                    (JObj [(lit "workspace_id", JStr wid);
                           (lit "redirect_url", JStr url)])) in HB.
          rewrite stringify2 in HB. cbn [buffer_from res_bind] in HB. congruence. }
      split; [exact Htext|].
      intros Hwf Hof Huf.
      destruct (stateB_reads_back wid o url Hwf Hof Huf) as (st & Henc & Hdec).
      unfold state_tokenB in Henc. rewrite HB in Henc. congruence.
Qed.

(** ** Callback (C3) *)

(** Bridge variant: a state that is there and does not decode makes the
    catch block throw the same error again, and the handler's promise
    rejects with nothing written to the response. *)
Lemma callbackB_undecodable env q w s e :
  query_get q (lit "state") = JStr s -> s <> [] ->
  decode_state (JStr s) = Throw e ->
  callbackB env q w
  = (Throw e,
     mkWorld (store w) (client w)
             (trace w ++ [EvLogError (lit "OAuth callback error:") e])).
Proof.
  intros Hq Hs Hd. unfold callbackB, read_stateB. rewrite Hq, Hd.
  cbn [res_bind]. run_m. destruct s; [congruence|]. cbn [truthy]. cbv iota.
  reflexivity.
Qed.

Lemma to_string_query_value q k :
  exists t, to_string (js_or (query_get q k) (JStr (lit "/"))) = Ok t.
Proof.
  destruct (query_get_cases q k) as [-> | (s & ->)]; unfold js_or.
  - cbn. eexists; reflexivity.
  - destruct (truthy (JStr s)); cbn; eexists; reflexivity.
Qed.

(** Direct-store variant: whatever the query, the identity provider and the
    store do, the response is a redirect. *)
Lemma callbackA_always_redirects env q w :
  exists location, fst (callbackA env q w) = Ok (Redirect location).
Proof.
  destruct (to_string_query_value q (lit "redirect_url")) as (t & Ht).
  unfold callbackA, redirect_with. rewrite Ht.
  destruct (read_stateA (query_get q (lit "state"))) as [[ws ru] | e]; run_m;
    [| eexists; reflexivity].
  destruct (getToken env (query_get q (lit "code"))) as [tokens | e]; run_m;
    [| eexists; reflexivity].
  destruct (store_fault env _); cbn [store_answer store_effect res_error]; run_m;
    try (eexists; reflexivity).
  destruct (to_string ru); run_m; eexists; reflexivity.
Qed.

(** Bridge variant: with a state that decodes to a value whose
    [redirect_url] prints as [target], the response is a redirect to [target]
    with one of the two markers. *)
Lemma callbackB_redirects_decodable env q w s parsed ru target :
  query_get q (lit "state") = JStr s -> s <> [] ->
  decode_state (JStr s) = Ok parsed ->
  get_prop parsed "redirect_url" = Ok ru ->
  to_string ru = Ok target ->
  fst (callbackB env q w) = Ok (Redirect (target ++ lit "?success=true"))
  \/ fst (callbackB env q w) = Ok (Redirect (target ++ lit "?error=auth_failed")).
Proof.
  intros Hq Hs Hd Hru Ht.
  assert (Htruthy : truthy (JStr s) = true) by (destruct s; [congruence | reflexivity]).
  unfold callbackB, read_stateB, redirect_with. rewrite Hq, Hd, Htruthy.
  cbn [res_bind]. rewrite Hru.
  destruct parsed; try discriminate Hru; cbn [get_prop res_bind]; run_m;
    rewrite ?Hru, ?Ht; run_m;
    (destruct (getToken env _) as [tokens|err]; run_m; rewrite ?Hru, ?Ht; run_m;
     [| right; reflexivity]);
    (destruct (fetch env _ _ _) as [resp|err]; run_m; rewrite ?Hru, ?Ht; run_m;
     [| right; reflexivity]);
    (destruct (ok resp); cbn [negb]; run_m; rewrite ?Hru, ?Ht; run_m;
     [left; reflexivity |]);
    (destruct (json resp); run_m; rewrite ?Hru, ?Ht; run_m; right; reflexivity).
Qed.

(** C3, at the failing input.  Bridge variant, [GET /callback] with a
    [state] that is the base64 of [hello]: for every environment and world the
    handler ends in a rejection with the parser's error, having only logged
    it; no redirect is sent. *)
Theorem callbackB_rejects_undecodable_state : forall env w,
  callbackB env Scenario.garbled_callback w
  = (Throw (SyntaxError "Unexpected token in JSON"),
     mkWorld (store w) (client w)
             (trace w ++ [EvLogError (lit "OAuth callback error:")
                                     (SyntaxError "Unexpected token in JSON")])).
Proof.
  intros env w.
  apply (callbackB_undecodable env Scenario.garbled_callback w (lit "aGVsbG8=")).
  - reflexivity.
  - discriminate.
  - vm_compute. reflexivity.
Qed.

(** ** Scenarios of the specification *)

(** [GET /auth/init?workspace_id=w1&redirect_url=https://app/x]: the URL
    carries both scopes and a state that decodes to the two fields. *)
Example init_scenario :
  authInitA Scenario.healthy
    [(lit "workspace_id", lit "w1"); (lit "redirect_url", lit "https://app/x")]
    Scenario.empty_world
  = (Ok (Json 200
           (JObj [(lit "auth_url",
                   JStr (lit "https://accounts.google.com/o/oauth2/v2/auth?access_type=offline&prompt=consent&scope=https://www.googleapis.com/auth/analytics.readonly https://www.googleapis.com/auth/analytics&state=eyJ3b3Jrc3BhY2VfaWQiOiJ3MSIsInJlZGlyZWN0X3VybCI6Imh0dHBzOi8vYXBwL3gifQ=="))])),
     Scenario.empty_world)
  /\ decode_state (JStr (lit "eyJ3b3Jrc3BhY2VfaWQiOiJ3MSIsInJlZGlyZWN0X3VybCI6Imh0dHBzOi8vYXBwL3gifQ=="))
     = Ok (JObj [(lit "workspace_id", JStr (lit "w1"));
                 (lit "redirect_url", JStr (lit "https://app/x"))]).
Proof. split; vm_compute; reflexivity. Qed.

(** The callback that follows it, direct-store variant: the tokens are
    upserted and the browser is sent back with the success marker. *)
Example callback_scenario :
  callbackA Scenario.healthy
    [(lit "code", lit "4/0AX4XfWh");
     (lit "state", lit "eyJ3b3Jrc3BhY2VfaWQiOiJ3MSIsInJlZGlyZWN0X3VybCI6Imh0dHBzOi8vYXBwL3gifQ==")]
    Scenario.empty_world
  = (Ok (Redirect (lit "https://app/x?success=true")),
     mkWorld [mkRow (JStr (lit "w1")) platform Connected (Some Scenario.tokens)
                    (lit "2023-11-14T22:13:20.000Z")]
             no_credentials
             [EvGetToken (JStr (lit "4/0AX4XfWh"));
              EvStore (Upsert (mkRow (JStr (lit "w1")) platform Connected
                                     (Some Scenario.tokens)
                                     (lit "2023-11-14T22:13:20.000Z")))]).
Proof. vm_compute. reflexivity. Qed.

(** A state that is the base64 of [1.5]: the text parses, the number has
    neither field, and the direct-store callback goes on to exchange the code
    and to write a record. *)
Example fractional_state :
  decode_state (JStr (lit "MS41")) = Ok (JFrac 3 1)
  /\ callbackA Scenario.healthy
       [(lit "code", lit "4/0AX4XfWh"); (lit "state", lit "MS41")]
       Scenario.empty_world
     = (Ok (Redirect (lit "undefined?success=true")),
        mkWorld [mkRow JUndefined platform Connected (Some Scenario.tokens)
                       (lit "2023-11-14T22:13:20.000Z")]
                no_credentials
                [EvGetToken (JStr (lit "4/0AX4XfWh"));
                 EvStore (Upsert (mkRow JUndefined platform Connected
                                        (Some Scenario.tokens)
                                        (lit "2023-11-14T22:13:20.000Z")))]).
Proof. split; vm_compute; reflexivity. Qed.

(** Numbers print as a template literal prints them: the digits of an
    integer below [10 ^ 21], exponent notation from there on, and the shortest
    decimal that reads back as the same double. *)
Example number_printing :
  to_string (JNum 1700000000000) = Ok (lit "1700000000000")
  /\ to_string (JNum (10 ^ 21)) = Ok (lit "1e+21")
  /\ to_string (JNum (2 ^ 60)) = Ok (lit "1152921504606847000")
  /\ json_parse (lit "0.1") = Ok (JFrac 3602879701896397 55)
  /\ to_string (JFrac 3602879701896397 55) = Ok (lit "0.1")
  /\ res_bind (json_parse (lit "1e-7")) to_string = Ok (lit "1e-7")
  /\ res_bind (json_parse (lit "15E-8")) to_string = Ok (lit "1.5e-7")
  /\ res_bind (json_parse (lit "0.0000010")) to_string = Ok (lit "0.000001")
  /\ res_bind (json_parse (lit "-123.4560")) to_string = Ok (lit "-123.456")
  /\ res_bind (json_parse (lit "5e-324")) to_string = Ok (lit "5e-324")
  /\ json_parse (lit "2e-324") = Ok (JNum 0)
  /\ json_parse (lit "-0.0") = Ok (JNum 0)
  /\ json_parse (lit "9007199254740993") = Ok (JNum 9007199254740992)
  /\ json_parse (lit "9007199254740995") = Ok (JNum 9007199254740996)
  /\ res_bind (json_parse (lit "1.7976931348623158e308")) to_string
     = Ok (lit "1.7976931348623157e+308")
  /\ json_parse (lit "1.7976931348623159e308") = Ok (JInf false)
  /\ json_parse (lit "1e400") = Ok (JInf false)
  /\ json_stringify (JArr [JFrac 3 1; JInf true; JNum 7]) = Some (lit "[1.5,null,7]")
  /\ (exists e, json_parse (lit "1.") = Throw e)
  /\ (exists e, json_parse (lit "01") = Throw e).
Proof. repeat split; try (vm_compute; reflexivity); eexists; vm_compute; reflexivity. Qed.

(** A tool that is the number [1e21] is named in the answer as the language
    prints it. *)
Example large_number_tool :
  fst (query Scenario.healthy
             (JObj [(lit "workspace_id", JStr (lit "w2"));
                    (lit "tool", JNum (10 ^ 21))])
             (Scenario.world Scenario.valid))
  = Ok (Json 400 (JObj [(lit "error", JStr (lit "Unknown tool: 1e+21"))])).
Proof. vm_compute. reflexivity. Qed.

(** The base64 decoder reads the low byte of a code unit: [U+0141] counts as
    [A]. *)
Example low_byte_state :
  base64_decode (321 :: lit "GVsbG8=") = base64_decode (lit "AGVsbG8=").
Proof. vm_compute. reflexivity. Qed.

(** A state in the URL-safe alphabet, without padding and broken by white
    space, decodes as well. *)
Example lenient_state :
  read_stateA (JStr (lit "eyJ3b3Jrc3BhY2VfaWQiOiJ3MSIs InJlZGlyZWN0X3VybCI6Imh0dHBzOi8vYXBwL3gifQ"))
  = Ok (JStr (lit "w1"), JStr (lit "https://app/x")).
Proof. vm_compute. reflexivity. Qed.

(** * Further properties of the handlers *)

(** ** Keys of the credential store *)
Lemma str_eqb_eq a b : str_eqb a b = true -> a = b.
Proof.
  revert b. induction a as [|x a IH]; destruct b as [|y b]; cbn [str_eqb];
    try discriminate; [reflexivity|].
  intros H. apply andb_true_iff in H. destruct H as [Hx Hr].
  apply Z.eqb_eq in Hx. rewrite (IH b Hr), Hx. reflexivity.
Qed.

Lemma val_eqb_eq : forall a b, val_eqb a b = true -> a = b.
Proof.
  fix IH 1. intros a b. destruct a as [| | x | x | x | xs | ps | m e | x];
    destruct b as [| | y | y | y | ys | qs | m' e' | y]; cbn [val_eqb];
    try discriminate; try reflexivity.
  - intros H. apply Bool.eqb_prop in H. congruence.
  - intros H. apply Z.eqb_eq in H. congruence.
  - intros H. apply str_eqb_eq in H. congruence.
  - intros H. f_equal. revert ys H.
    induction xs as [|x xs IHxs]; destruct ys as [|y ys]; try discriminate;
      [reflexivity|].
    intros H. apply andb_true_iff in H. destruct H as [Hx Hr].
    rewrite (IH x y Hx), (IHxs ys Hr). reflexivity.
  - intros H. f_equal. revert qs H.
    induction ps as [|[k x] ps IHps]; destruct qs as [|[k' y] qs]; try discriminate;
      [reflexivity|].
    intros H. apply andb_true_iff in H. destruct H as [H Hr].
    apply andb_true_iff in H. destruct H as [Hk Hx].
    rewrite (str_eqb_eq _ _ Hk), (IH x y Hx), (IHps qs Hr). reflexivity.
  - intros H. apply andb_true_iff in H. destruct H as [Hm He].
    apply Z.eqb_eq in Hm. apply Z.eqb_eq in He. congruence.
  - intros H. apply Bool.eqb_prop in H. congruence.
Qed.

Lemma str_eqb_refl a : str_eqb a a = true.
Proof.
  induction a as [|x a IH]; [reflexivity|].
  cbn [str_eqb]. rewrite Z.eqb_refl, IH. reflexivity.
Qed.

Lemma val_eqb_refl : forall a, val_eqb a a = true.
Proof.
  fix IH 1. intros a. destruct a as [| | x | x | x | xs | ps | m e | x];
    cbn [val_eqb]; try reflexivity.
  - apply Bool.eqb_reflx.
  - apply Z.eqb_refl.
  - apply str_eqb_refl.
  - induction xs as [|x xs IHxs]; [reflexivity|]. rewrite (IH x), IHxs. reflexivity.
  - induction ps as [|[k x] ps IHps]; [reflexivity|].
    rewrite str_eqb_refl, (IH x), IHps. reflexivity.
  - rewrite !Z.eqb_refl. reflexivity.
  - apply Bool.eqb_reflx.
Qed.

(** Rows with the same key answer every filter alike. *)
Lemma same_key_matches row r ws :
  same_key row r = true -> matches ws r = matches ws row.
Proof.
  unfold same_key, matches. intros H. apply andb_true_iff in H.
  destruct H as [Hw Hp]. apply val_eqb_eq in Hw. apply str_eqb_eq in Hp.
  rewrite Hw, Hp. reflexivity.
Qed.

(** Two rows that one filter selects have the same key. *)
Lemma matches_same_key row r ws :
  matches ws row = true -> matches ws r = true -> same_key row r = true.
Proof.
  unfold same_key, matches. intros H1 H2.
  apply andb_true_iff in H1. destruct H1 as [Hw1 Hp1].
  apply andb_true_iff in H2. destruct H2 as [Hw2 Hp2].
  apply val_eqb_eq in Hw1, Hw2. apply str_eqb_eq in Hp1, Hp2.
  rewrite Hw1, Hw2, Hp1, Hp2, val_eqb_refl, str_eqb_refl. reflexivity.
Qed.

Lemma filter_replace ws row rows :
  List.length (filter (matches ws)
                 (map (fun r => if same_key row r then row else r) rows))
  = List.length (filter (matches ws) rows).
Proof.
  induction rows as [|r rows IH]; [reflexivity|].
  cbn [map filter]. destruct (same_key row r) eqn:E.
  - rewrite <- (same_key_matches row r ws E).
    destruct (matches ws r); cbn [List.length]; rewrite IH; reflexivity.
  - destruct (matches ws r); cbn [List.length]; rewrite IH; reflexivity.
Qed.

Lemma upsert_keeps_at_most_one row rows :
  at_most_one rows -> at_most_one (upsert_rows row rows).
Proof.
  intros H ws. unfold upsert_rows.
  destruct (existsb (same_key row) rows) eqn:E.
  - rewrite filter_replace. apply H.
  - rewrite filter_app, length_app. cbn [filter].
    destruct (matches ws row) eqn:Hrow; cbn [List.length]; [| specialize (H ws); lia].
    assert (Hnone : filter (matches ws) rows = []).
    { destruct (filter (matches ws) rows) as [|r l] eqn:F; [reflexivity|].
      assert (Hin : In r (filter (matches ws) rows)) by (rewrite F; left; reflexivity).
      apply filter_In in Hin. destruct Hin as [Hin Hm].
      assert (Hex : existsb (same_key row) rows = true).
      { apply existsb_exists. exists r. split; [exact Hin|].
        apply (matches_same_key row r ws Hrow Hm). }
      congruence. }
    rewrite Hnone. reflexivity.
Qed.

Lemma filter_update_commute ws' ws p rows :
  filter (matches ws') (update_rows ws p rows)
  = map (fun r => if matches ws r then apply_patch p r else r)
        (filter (matches ws') rows).
Proof.
  unfold update_rows. induction rows as [|r rows IH]; [reflexivity|].
  cbn [map filter].
  replace (matches ws' (if matches ws r then apply_patch p r else r))
    with (matches ws' r) by (destruct (matches ws r); reflexivity).
  destruct (matches ws' r); cbn [map]; rewrite IH; reflexivity.
Qed.

Lemma update_keeps_at_most_one ws p rows :
  at_most_one rows -> at_most_one (update_rows ws p rows).
Proof.
  intros H ws'. rewrite filter_update_commute, length_map. apply H.
Qed.

(** The direct-store callback leaves the store as it was or upserts one row. *)
Lemma callbackA_store env q w :
  store (snd (callbackA env q w)) = store w
  \/ exists ws tokens,
       store (snd (callbackA env q w))
       = upsert_rows (connected_row env ws tokens) (store w).
Proof.
  destruct (to_string_query_value q (lit "redirect_url")) as (t & Ht).
  unfold callbackA, redirect_with. rewrite Ht.
  destruct (read_stateA (query_get q (lit "state"))) as [[ws ru] | e]; run_m;
    [| left; reflexivity].
  destruct (getToken env (query_get q (lit "code"))) as [tokens | e]; run_m;
    [| left; reflexivity].
  fold (connected_row env ws tokens).
  destruct (store_fault env _); cbn [store_answer store_effect res_error]; run_m;
    try (left; reflexivity).
  right. exists ws, tokens. destruct (to_string ru); run_m; reflexivity.
Qed.

(** X1.  The handlers keep the key of the credential store: when the store
    holds at most one [google_analytics] record per workspace before a
    request, it does so after every callback, every query and every disconnect
    of the direct-store variant, whatever the request carries and whatever
    store, identity provider and analytics APIs do. *)
Theorem one_record_per_workspace env w :
  at_most_one (store w) ->
  (forall q, at_most_one (store (snd (callbackA env q w))))
  /\ (forall props, at_most_one (store (snd (query env (JObj props) w))))
  /\ (forall props, at_most_one (store (snd (disconnect env (JObj props) w)))).
Proof.
  intros H. split; [| split].
  - intros q. destruct (callbackA_store env q w) as [-> | (ws & tokens & ->)];
      [exact H | apply upsert_keeps_at_most_one; exact H].
  - intros props.
    destruct (query_store env props w) as [Hs | (r & stored & fresh & _ & _ & Hs)];
      cbv zeta in Hs; rewrite Hs; [exact H | apply update_keeps_at_most_one; exact H].
  - intros props. rewrite disconnect_run.
    destruct (store_fault env _); cbn [snd store]; try exact H.
    apply update_keeps_at_most_one; exact H.
Qed.

Lemma at_most_one_single (r : Row) : at_most_one [r].
Proof.
  intros ws. cbn [filter]. destruct (matches ws r); cbn [List.length]; lia.
Qed.

Lemma at_most_one_nil : at_most_one [].
Proof. intros ws. cbn. lia. Qed.

Lemma one_record_per_workspace_witness :
  at_most_one (store (snd (callbackA Scenario.healthy Scenario.good_callback
                                     (Scenario.world Scenario.valid)))).
Proof.
  exact (proj1 (one_record_per_workspace Scenario.healthy
                  (Scenario.world Scenario.valid) (at_most_one_single _))
               Scenario.good_callback).
Defined.

(** *** The direct-store callback *)

(** A record that was upserted is the one record of its workspace. *)
Lemma upsert_then_filter row rows :
  at_most_one rows -> row_platform row = platform ->
  filter (matches (row_workspace_id row)) (upsert_rows row rows) = [row].
Proof.
  intros H Hp.
  assert (Hself : matches (row_workspace_id row) row = true).
  { unfold matches. rewrite val_eqb_refl, Hp, str_eqb_refl. reflexivity. }
  assert (Hone : (List.length (filter (matches (row_workspace_id row))
                                      (upsert_rows row rows)) <= 1)%nat)
    by (apply upsert_keeps_at_most_one; exact H).
  assert (Hin : In row (filter (matches (row_workspace_id row)) (upsert_rows row rows))).
  { apply filter_In. split; [| exact Hself]. unfold upsert_rows.
    destruct (existsb (same_key row) rows) eqn:E.
    - apply existsb_exists in E. destruct E as (r & Hr & Hk).
      apply in_map_iff. exists r. rewrite Hk. auto.
    - apply in_or_app. right. left. reflexivity. }
  destruct (filter _ _) as [|a [|b l]]; cbn [List.length] in Hone.
  - destruct Hin.
  - destruct Hin as [-> | []]. reflexivity.
  - lia.
Qed.

(** The run of a callback in which every step succeeds. *)
Lemma callbackA_success env q w ws ru tokens target :
  read_stateA (query_get q (lit "state")) = Ok (ws, ru) ->
  getToken env (query_get q (lit "code")) = Resolves tokens ->
  store_fault env (Upsert (connected_row env ws tokens)) = NoFault ->
  to_string ru = Ok target ->
  callbackA env q w
  = (Ok (Redirect (target ++ lit "?success=true")),
     mkWorld (upsert_rows (connected_row env ws tokens) (store w)) (client w)
             (trace w ++ [EvGetToken (query_get q (lit "code"));
                          EvStore (Upsert (connected_row env ws tokens))])).
Proof.
  intros Hst Htok Hf Ht. unfold callbackA, redirect_with. rewrite Hst. run_m.
  rewrite Htok. run_m. fold (connected_row env ws tokens). rewrite Hf.
  cbn [store_answer store_effect res_error]. run_m. rewrite Ht.
  rewrite <- app_assoc. reflexivity.
Qed.

(** X2.  Direct-store callback: when the state does not decode, the token
    exchange fails or the store does not carry out the upsert, the browser is
    sent to [req.query.redirect_url] (or [/] when the query has none) with
    [?error=auth_failed], never to the [redirect_url] inside the state, and the
    store is left as it was. *)
Theorem callbackA_failure_target env q w :
  (forall ws ru tokens,
     read_stateA (query_get q (lit "state")) = Ok (ws, ru) ->
     getToken env (query_get q (lit "code")) = Resolves tokens ->
     store_fault env (Upsert (connected_row env ws tokens)) <> NoFault) ->
  fst (callbackA env q w)
  = Ok (Redirect (fallback_target q ++ lit "?error=auth_failed"))
  /\ store (snd (callbackA env q w)) = store w.
Proof.
  intros Hfail.
  assert (Ht : to_string (js_or (query_get q (lit "redirect_url")) (JStr (lit "/")))
               = Ok (fallback_target q)).
  { unfold fallback_target, js_or.
    destruct (query_get_cases q (lit "redirect_url")) as [-> | (s & ->)];
      [reflexivity|]. destruct s; reflexivity. }
  unfold callbackA, redirect_with. rewrite Ht.
  destruct (read_stateA (query_get q (lit "state"))) as [[ws ru] | e] eqn:Hst; run_m;
    [| split; reflexivity].
  destruct (getToken env (query_get q (lit "code"))) as [tokens | e] eqn:Htok; run_m;
    [| split; reflexivity].
  specialize (Hfail ws ru tokens eq_refl eq_refl).
  fold (connected_row env ws tokens).
  destruct (store_fault env (Upsert (connected_row env ws tokens)));
    [congruence | |]; cbn [res_error]; run_m; split; reflexivity.
Qed.

(** The identity provider refuses the code: the browser lands on [/]. *)
Lemma callbackA_failure_target_witness :
  fst (callbackA Scenario.idp_down Scenario.good_callback Scenario.empty_world)
  = Ok (Redirect (lit "/?error=auth_failed"))
  /\ store (snd (callbackA Scenario.idp_down Scenario.good_callback
                           Scenario.empty_world)) = [].
Proof.
  apply (callbackA_failure_target Scenario.idp_down Scenario.good_callback
           Scenario.empty_world).
  intros ws ru tokens _ H. discriminate H.
Defined.


(** X3.  Direct-store variant, initiation followed by callback.  For a
    request with non-empty well-formed [workspace_id] and [redirect_url], the
    initiator hands a state to the URL builder such that a callback carrying
    that state, with a code the identity provider accepts and a store that
    carries out the upsert, stores the exchanged tokens in a [connected] record
    of that workspace and redirects to [redirect_url?success=true]. *)
Theorem init_then_callback env q w0 wid url :
  query_get q (lit "workspace_id") = JStr wid -> wid <> [] ->
  query_get q (lit "redirect_url") = JStr url -> url <> [] ->
  well_formed wid = true -> well_formed url = true ->
  exists st,
    authInitA env q w0
    = (Ok (Json 200
             (JObj [(lit "auth_url",
                     JStr (generateAuthUrl env
                             (mkAuthUrlOpts (lit "offline") (lit "consent")
                                            analytics_scopes st)))])), w0)
    /\ forall code w tokens,
         getToken env (JStr code) = Resolves tokens ->
         store_fault env (Upsert (connected_row env (JStr wid) tokens)) = NoFault ->
         callbackA env [(lit "code", code); (lit "state", st)] w
         = (Ok (Redirect (url ++ lit "?success=true")),
            mkWorld (upsert_rows (connected_row env (JStr wid) tokens) (store w))
                    (client w)
                    (trace w ++ [EvGetToken (JStr code);
                                 EvStore (Upsert (connected_row env (JStr wid) tokens))])).
Proof.
  intros Hq1 Hn1 Hq2 Hn2 Hw Hu.
  destruct (stateA_reads_back wid url Hw Hu) as (st & Henc & Hdec).
  exists st. split.
  - unfold authInitA. rewrite Hq1, Hq2, Henc.
    destruct wid; [congruence|]. destruct url; [congruence|]. reflexivity.
  - intros code w tokens Htok Hf.
    apply (callbackA_success env [(lit "code", code); (lit "state", st)] w
             (JStr wid) (JStr url) tokens url); [exact Hdec | exact Htok | exact Hf |].
    reflexivity.
Qed.

Lemma init_then_callback_witness :
  exists st,
    authInitA Scenario.healthy Scenario.init_query Scenario.empty_world
    = (Ok (Json 200
             (JObj [(lit "auth_url",
                     JStr (generateAuthUrl Scenario.healthy
                             (mkAuthUrlOpts (lit "offline") (lit "consent")
                                            analytics_scopes st)))])),
       Scenario.empty_world)
    /\ fst (callbackA Scenario.healthy
                      [(lit "code", lit "4/0AX4XfWh"); (lit "state", st)]
                      Scenario.empty_world)
       = Ok (Redirect (lit "https://app/x?success=true")).
Proof.
  destruct (init_then_callback Scenario.healthy Scenario.init_query
              Scenario.empty_world (lit "w1") (lit "https://app/x")
              eq_refl ltac:(discriminate) eq_refl ltac:(discriminate)
              eq_refl eq_refl) as (st & Hinit & Hcb).
  exists st. split; [exact Hinit|].
  rewrite (Hcb (lit "4/0AX4XfWh") Scenario.empty_world Scenario.tokens
               eq_refl eq_refl).
  reflexivity.
Defined.

(** X4.  Callback followed by query, direct-store variant.  On a store with
    at most one record per workspace, after a callback in which every step
    succeeded for workspace [ws], a query for [ws] finds the exchanged tokens:
    with an expiry that needs no refresh, its switch runs with exactly these
    tokens on the client, after the lookup and nothing else. *)
Theorem connect_then_query env q w ws ru tokens target env' props :
  at_most_one (store w) ->
  read_stateA (query_get q (lit "state")) = Ok (ws, ru) ->
  getToken env (query_get q (lit "code")) = Resolves tokens ->
  store_fault env (Upsert (connected_row env ws tokens)) = NoFault ->
  to_string ru = Ok target ->
  own "workspace_id" props = ws ->
  store_fault env' (Select ws) = NoFault ->
  expired env' (expiry_date tokens) = false ->
  let w1 := snd (callbackA env q w) in
  filter (matches ws) (store w1) = [connected_row env ws tokens]
  /\ query env' (JObj props) w1
     = try_catch (dispatch env' (own "tool" props) (own "params" props)) query_failed
         (mkWorld (store w1) tokens (trace w1 ++ [EvStore (Select ws)])).
Proof.
  intros Hone Hst Htok Hf Ht Hws Hsel Hexp w1.
  assert (Hrow : filter (matches ws) (store w1) = [connected_row env ws tokens]).
  { subst w1. rewrite (callbackA_success env q w ws ru tokens target Hst Htok Hf Ht).
    cbn [snd store].
    apply (upsert_then_filter (connected_row env ws tokens) (store w) Hone).
    reflexivity. }
  split; [exact Hrow|].
  subst ws.
  apply (query_fresh env' props w1 (connected_row env (own "workspace_id" props) tokens)
           tokens Hsel Hrow).
  - cbn [connected_row row_credentials]. rewrite credentials_eta. reflexivity.
  - exact Hexp.
Qed.

Lemma connect_then_query_witness :
  fst (query Scenario.healthy (JObj [(lit "workspace_id", JStr (lit "w1"));
                                     (lit "tool", JStr (lit "list_properties"))])
             (snd (callbackA Scenario.healthy Scenario.good_callback
                             (Scenario.world Scenario.valid))))
  = Ok (Json 200 (JObj [(lit "data", data Scenario.report)])).
Proof.
  rewrite (proj2 (connect_then_query Scenario.healthy Scenario.good_callback
                    (Scenario.world Scenario.valid) (JStr (lit "w1"))
                    (JStr (lit "https://app/x")) Scenario.tokens (lit "https://app/x")
                    Scenario.healthy
                    [(lit "workspace_id", JStr (lit "w1"));
                     (lit "tool", JStr (lit "list_properties"))]
                    (at_most_one_single _)
                    eq_refl eq_refl eq_refl eq_refl eq_refl eq_refl eq_refl)).
  reflexivity.
Defined.

(** ** The bridge callback *)

Lemma read_stateB_decodes state ws org ru :
  read_stateB state = Ok (ws, org, ru) ->
  exists s parsed,
    state = JStr s /\ s <> [] /\ decode_state (JStr s) = Ok parsed
    /\ get_prop parsed "workspace_id" = Ok ws
    /\ get_prop parsed "organization_id" = Ok org
    /\ get_prop parsed "redirect_url" = Ok ru.
Proof.
  unfold read_stateB. intros H.
  destruct state as [| | | |s| | | |]; try discriminate H.
  destruct (decode_state (JStr s)) as [parsed|e] eqn:Hd; [|discriminate H].
  cbn [res_bind] in H.
  destruct (get_prop parsed "workspace_id") as [a|] eqn:Ha; [|discriminate H].
  destruct (get_prop parsed "organization_id") as [b|] eqn:Hb; [|discriminate H].
  destruct (get_prop parsed "redirect_url") as [c|] eqn:Hc; [|discriminate H].
  cbn [res_bind] in H. injection H as <- <- <-.
  exists s, parsed. split; [reflexivity|]. split.
  - intros ->. vm_compute in Hd. discriminate Hd.
  - repeat split; assumption.
Qed.

(** X5.  Bridge variant, a state that decodes: the browser is sent to the
    state's redirect_url, with [?success=true] exactly when the token exchange
    resolves and the bridge answers the post of the tokens with an ok
    response, and with [?error=auth_failed] in every other case (exchange
    rejected, post rejected, response not ok). *)
Theorem callbackB_outcome env q w ws org ru target :
  read_stateB (query_get q (lit "state")) = Ok (ws, org, ru) ->
  to_string ru = Ok target ->
  let stored :=
    match getToken env (query_get q (lit "code")) with
    | Resolves tokens =>
        match fetch env (LOVABLE_FUNCTION_URL env) (MCP_BRIDGE_SECRET env)
                    (bridge_body ws org tokens) with
        | Resolves response => ok response
        | Rejects _ => false
        end
    | Rejects _ => false
    end in
  fst (callbackB env q w)
  = Ok (Redirect (target ++ (if stored then lit "?success=true"
                             else lit "?error=auth_failed"))).
Proof.
  intros Hst Ht stored. subst stored.
  destruct (read_stateB_decodes _ _ _ _ Hst) as (s & parsed & Hq & Hs & Hd & _ & _ & Hru).
  assert (Htruthy : truthy (JStr s) = true) by (destruct s; [congruence | reflexivity]).
  unfold callbackB, redirect_with. rewrite Hst. fold (bridge_body ws org).
  rewrite Hq, Hd, Htruthy.
  run_m.
  destruct (getToken env (query_get q (lit "code"))) as [tokens|e]; run_m;
    rewrite ?Hru; run_m; rewrite ?Ht; [| reflexivity].
  destruct (fetch env _ _ _) as [response|e]; run_m;
    rewrite ?Hru; run_m; rewrite ?Ht; [| reflexivity].
  destruct (ok response); cbn [negb]; run_m; rewrite ?Ht; [reflexivity |].
  destruct (json response); run_m; rewrite ?Hru; run_m; rewrite ?Ht; reflexivity.
Qed.

Lemma callbackB_outcome_witness :
  fst (callbackB Scenario.healthy Scenario.good_callback Scenario.empty_world)
  = Ok (Redirect (lit "https://app/x" ++ lit "?success=true"))
  /\ fst (callbackB Scenario.idp_down Scenario.good_callback Scenario.empty_world)
     = Ok (Redirect (lit "https://app/x" ++ lit "?error=auth_failed")).
Proof.
  split.
  - exact (callbackB_outcome Scenario.healthy Scenario.good_callback
             Scenario.empty_world (JStr (lit "w1")) JUndefined
             (JStr (lit "https://app/x")) (lit "https://app/x") eq_refl eq_refl).
  - exact (callbackB_outcome Scenario.idp_down Scenario.good_callback
             Scenario.empty_world (JStr (lit "w1")) JUndefined
             (JStr (lit "https://app/x")) (lit "https://app/x") eq_refl eq_refl).
Defined.

Ltac bridge_done :=
  split; [reflexivity|]; split; [reflexivity|]; eexists;
  (split; [repeat rewrite <- app_assoc; reflexivity|]);
  cbn [existsb is_store_call orb count_calls filter is_fetch List.length app];
  (split; [reflexivity|]); (split; [lia|]);
  (split; [intros Hn; first [reflexivity | exfalso; eapply Hn; reflexivity]|]);
  intros url secret body Hin; cbn [In] in Hin;
  repeat match goal with
         | H : _ \/ _ |- _ => destruct H
         | H : False |- _ => destruct H
         end; try discriminate;
  match goal with
  | H : EvFetch _ _ _ = EvFetch _ _ _ |- _ => injection H as <- <- <-
  end; split; reflexivity.

Ltac bridge_catch q :=
  try (destruct (truthy (query_get q (lit "state"))); run_m);
  repeat match goal with
         | |- context [match ?r with Ok _ => _ | Throw _ => _ end] =>
             destruct r; cbn [fst snd store client trace]
         end.

(** X6.  Bridge variant, every request: the callback leaves the store and
    the shared client alone and makes no store call; it posts to the bridge at
    most once, never when the token exchange did not resolve, and every post
    goes to the configured bridge URL with the configured secret. *)
Theorem callbackB_posts_to_bridge_only env q w :
  let w' := snd (callbackB env q w) in
  store w' = store w /\ client w' = client w
  /\ exists new,
       trace w' = trace w ++ new
       /\ existsb is_store_call new = false
       /\ (count_calls is_fetch new <= 1)%nat
       /\ ((forall tokens, getToken env (query_get q (lit "code")) <> Resolves tokens) ->
           count_calls is_fetch new = 0%nat)
       /\ forall url secret body, In (EvFetch url secret body) new ->
            url = LOVABLE_FUNCTION_URL env /\ secret = MCP_BRIDGE_SECRET env.
Proof.
  cbv zeta. unfold callbackB, redirect_with.
  destruct (read_stateB (query_get q (lit "state"))) as [[[ws org] ru]|e0]; run_m;
    [| bridge_catch q; bridge_done].
  destruct (getToken env (query_get q (lit "code"))) as [tokens|e] eqn:Hg; run_m;
    [| bridge_catch q; bridge_done].
  destruct (fetch env _ _ _) as [response|e]; run_m;
    [| bridge_catch q; bridge_done].
  destruct (ok response); cbn [negb]; run_m; [bridge_catch q; bridge_done |].
  destruct (json response); run_m; bridge_catch q; bridge_done.
Qed.

(** ** The query handler, case by case *)

(** The switch under the handler's catch block: it always answers, leaves
    store and client alone, and calls nothing but the analytics APIs, at most
    once and with the credentials the client holds. *)
Lemma caught_dispatch env tool params w :
  exists resp new,
    try_catch (dispatch env tool params) query_failed w
    = (Ok resp, mkWorld (store w) (client w) (trace w ++ new))
    /\ Forall (authenticated_with (client w)) new
    /\ (count_calls is_analytics_call new <= 1)%nat
    /\ existsb is_refresh new = false
    /\ existsb is_store_call new = false
    /\ existsb is_token_exchange new = false
    /\ existsb is_fetch new = false
    /\ exists status body, resp = Json status body /\ In status [200; 400; 500].
Proof.
  assert (Hw : w = mkWorld (store w) (client w) (trace w)) by (destruct w; reflexivity).
  unfold dispatch, run_report, unknown_tool, query_failed, server_error, send_data.
  repeat match goal with
  | |- context [if ?b then _ else _] => destruct b
  end; run_m;
  repeat match goal with
  | |- context [match ?r with Ok _ => _ | Throw _ => _ end] =>
      destruct r; cbn [fst snd store client trace]
  | |- context [match ?r with Resolves _ => _ | Rejects _ => _ end] =>
      destruct r; cbn [fst snd store client trace]
  end;
  try (do 2 eexists; split;
       [repeat rewrite <- app_assoc; cbn [app]; reflexivity |];
       cbn [count_calls filter existsb is_analytics_call is_refresh is_store_call
            is_token_exchange is_fetch orb List.length];
       repeat split; try lia; try (repeat constructor; fail);
       do 2 eexists; split; [reflexivity | cbn [In]; auto]; fail).
  all: exists (Json 400 (JObj [(lit "error", JStr (lit "Unknown tool: " ++ a))])), [].
  all: rewrite app_nil_r, <- Hw; split; [reflexivity|]; split; [constructor|];
    cbn [count_calls filter existsb List.length]; repeat split; try lia;
    do 2 eexists; split; [reflexivity | cbn [In]; auto].
Qed.

(** Every run of the query handler on an object body is one of: the lookup
    rejected; no usable credentials; credentials that need no refresh; a
    refresh that was rejected; a refresh that resolved, followed by the
    update of the stored tokens in its three outcomes. *)
Lemma query_cases env props w :
  let ws := own "workspace_id" props in
  let run := query env (JObj props) w in
  let switch := try_catch (dispatch env (own "tool" props) (own "params" props))
                          query_failed in
  let sel := EvStore (Select ws) in
  let log := EvLogError (lit "Query error:") in
  (exists e, store_fault env (Select ws) = FaultReject e
     /\ run = (Ok (server_error e),
               mkWorld (store w) (client w) (trace w ++ [sel; log e])))
  \/ ((forall e, store_fault env (Select ws) <> FaultReject e)
      /\ run = (Ok not_connected, mkWorld (store w) (client w) (trace w ++ [sel])))
  \/ exists r stored,
       store_fault env (Select ws) = NoFault
       /\ filter (matches ws) (store w) = [r]
       /\ row_credentials r = Some stored
       /\ ((expired env (expiry_date stored) = false
            /\ run = switch (mkWorld (store w) stored (trace w ++ [sel])))
           \/ (expired env (expiry_date stored) = true
               /\ exists e, refreshAccessToken env stored = Rejects e
                  /\ run = (Ok (server_error e),
                            mkWorld (store w) stored
                                    (trace w ++ [sel; EvRefresh stored; log e])))
           \/ (expired env (expiry_date stored) = true
               /\ exists fresh, refreshAccessToken env stored = Resolves fresh
                  /\ let upd := EvStore (Update ws (refresh_patch stored fresh)) in
                     match store_fault env (Update ws (refresh_patch stored fresh)) with
                     | NoFault =>
                         run = switch
                                 (mkWorld (update_rows ws (refresh_patch stored fresh)
                                                       (store w))
                                          fresh
                                          (trace w ++ [sel; EvRefresh stored; upd]))
                     | FaultError _ =>
                         run = switch
                                 (mkWorld (store w) fresh
                                          (trace w ++ [sel; EvRefresh stored; upd]))
                     | FaultReject e =>
                         run = (Ok (server_error e),
                                mkWorld (store w) fresh
                                        (trace w ++ [sel; EvRefresh stored; upd; log e]))
                     end)).
Proof.
  intros ws run switch sel log. subst run switch sel log.
  rewrite query_unfold. fold ws. unfold refresh_block, query_failed. run_m.
  destruct (store_fault env (Select ws)) as [|e|e] eqn:Hsel; run_m.
  3:{ left. exists e. split; [reflexivity|]. repeat rewrite <- app_assoc. reflexivity. }
  2:{ right; left. split; [intros e'; discriminate | reflexivity]. }
  cbn [store_answer store_effect]. unfold select_single.
  destruct (filter (matches ws) (store w)) as [|r [|r' l]] eqn:Hrow;
    cbn [res_error res_data];
    try (right; left; split; [intros e'; discriminate | reflexivity]).
  destruct (row_credentials r) as [stored|] eqn:Hcred;
    try (right; left; split; [intros e'; discriminate | reflexivity]).
  right; right. exists r, stored. repeat (split; [first [reflexivity | assumption]|]).
  rewrite credentials_eta.
  destruct (expired env (expiry_date stored)) eqn:Hexp; run_m.
  2:{ left. split; reflexivity. }
  right.
  destruct (refreshAccessToken env stored) as [fresh|e] eqn:Hf; run_m.
  2:{ left. split; [reflexivity|]. exists e. split; [reflexivity|].
      repeat rewrite <- app_assoc. reflexivity. }
  right. split; [reflexivity|]. exists fresh. split; [reflexivity|]. cbv zeta.
  destruct (store_fault env (Update ws (refresh_patch stored fresh))) eqn:Hu;
    cbn [store_answer store_effect]; run_m; repeat rewrite <- app_assoc;
    reflexivity.
Qed.

Lemma count_calls_app p (a b : list Event) :
  count_calls p (a ++ b) = (count_calls p a + count_calls p b)%nat.
Proof. unfold count_calls. rewrite filter_app, length_app. reflexivity. Qed.

Lemma count_none p (l : list Event) :
  existsb p l = false -> count_calls p l = 0%nat.
Proof.
  unfold count_calls. induction l as [|x l IH]; cbn [existsb filter]; [reflexivity|].
  destruct (p x); cbn [orb]; [discriminate | exact IH].
Qed.

Lemma existsb_app_false p (a b : list Event) :
  existsb p a = false -> existsb p b = false -> existsb p (a ++ b) = false.
Proof. intros Ha Hb. rewrite existsb_app, Ha, Hb. reflexivity. Qed.

(** X7.  Every query with an object body is answered, never left hanging by
    a rejection: the status is 200, 400, 401 or 500, whatever store, identity
    provider and analytics APIs do and whatever the body carries. *)
Theorem query_always_responds env props w :
  exists status body,
    fst (query env (JObj props) w) = Ok (Json status body)
    /\ In status [200; 400; 401; 500].
Proof.
  destruct (query_cases env props w)
    as [(e & _ & H) | [(_ & H) | (r & stored & _ & _ & _ & H)]]; cbv zeta in H.
  - rewrite H. do 2 eexists. split; [reflexivity | cbn [In]; auto].
  - rewrite H. do 2 eexists. split; [reflexivity | cbn [In]; auto].
  - assert (Hswitch : forall w0,
              exists status body,
                fst (try_catch (dispatch env (own "tool" props) (own "params" props))
                               query_failed w0) = Ok (Json status body)
                /\ In status [200; 400; 401; 500]).
    { intros w0.
      destruct (caught_dispatch env (own "tool" props) (own "params" props) w0)
        as (resp & new & -> & _ & _ & _ & _ & _ & _ & status & body & -> & Hin).
      exists status, body. split; [reflexivity|]. cbn [In] in *. intuition. }
    destruct H as [(_ & ->) | [(_ & e & _ & ->) | (_ & fresh & _ & H)]];
      [apply Hswitch | do 2 eexists; split; [reflexivity | cbn [In]; auto] |].
    destruct (store_fault env _); rewrite H;
      [apply Hswitch | apply Hswitch |
       do 2 eexists; split; [reflexivity | cbn [In]; auto]].
Qed.

(** X8.  What a query may call.  Its first call is the lookup of the
    workspace's credentials; after it come at most one refresh call, at most
    one further store call, at most one analytics call, and neither a token
    exchange nor a post to the bridge.  The trace before the request is kept
    as it was. *)
Theorem query_call_bounds env props w :
  exists new,
    trace (snd (query env (JObj props) w))
    = trace w ++ EvStore (Select (own "workspace_id" props)) :: new
    /\ (count_calls is_refresh new <= 1)%nat
    /\ (count_calls is_store_call new <= 1)%nat
    /\ (count_calls is_analytics_call new <= 1)%nat
    /\ existsb is_token_exchange new = false
    /\ existsb is_fetch new = false.
Proof.
  assert (Hswitch : forall s c pre,
            (count_calls is_refresh pre <= 1)%nat ->
            (count_calls is_store_call pre <= 1)%nat ->
            count_calls is_analytics_call pre = 0%nat ->
            existsb is_token_exchange pre = false ->
            existsb is_fetch pre = false ->
            exists new,
              trace (snd (try_catch (dispatch env (own "tool" props) (own "params" props))
                                    query_failed
                                    (mkWorld s c
                                       (trace w ++ EvStore (Select (own "workspace_id" props))
                                                   :: pre))))
              = trace w ++ EvStore (Select (own "workspace_id" props)) :: new
              /\ (count_calls is_refresh new <= 1)%nat
              /\ (count_calls is_store_call new <= 1)%nat
              /\ (count_calls is_analytics_call new <= 1)%nat
              /\ existsb is_token_exchange new = false
              /\ existsb is_fetch new = false).
  { intros s c pre H1 H2 H3 H4 H5.
    destruct (caught_dispatch env (own "tool" props) (own "params" props)
                (mkWorld s c (trace w ++ EvStore (Select (own "workspace_id" props)) :: pre)))
      as (resp & new & -> & _ & Ha & Hr & Hs & Ht & Hf & _).
    exists (pre ++ new). cbn [snd trace].
    split; [rewrite <- app_assoc; reflexivity|].
    rewrite !count_calls_app, (count_none _ _ Hr), (count_none _ _ Hs), H3.
    repeat split; try lia; apply existsb_app_false; assumption. }
  destruct (query_cases env props w)
    as [(e & _ & H) | [(_ & H) | (r & stored & _ & _ & _ & H)]]; cbv zeta in H.
  - rewrite H. eexists. split; [reflexivity|]. cbn. repeat split; lia.
  - rewrite H. eexists. split; [reflexivity|]. cbn. repeat split; lia.
  - destruct H as [(_ & ->) | [(_ & e & _ & ->) | (_ & fresh & _ & H)]].
    + apply (Hswitch _ _ []); cbn; auto.
    + eexists. split; [reflexivity|]. cbn. repeat split; lia.
    + destruct (store_fault env _); rewrite H.
      * apply (Hswitch _ _ [_; _]); cbn; auto.
      * apply (Hswitch _ _ [_; _]); cbn; auto.
      * eexists. split; [reflexivity|]. cbn. repeat split; lia.
Qed.

Lemma only_touches_refl ws (R : Row -> Row -> Prop) rows :
  (forall r, R r r) -> only_touches ws R rows rows.
Proof.
  intros HR. unfold only_touches. induction rows as [|r rows IH]; constructor;
    [destruct (matches ws r); [apply HR | reflexivity] | exact IH].
Qed.

Lemma only_touches_update ws (R : Row -> Row -> Prop) p rows :
  (forall r, R r (apply_patch p r)) ->
  only_touches ws R rows (update_rows ws p rows).
Proof.
  intros HR. unfold only_touches, update_rows.
  induction rows as [|r rows IH]; cbn [map]; constructor;
    [destruct (matches ws r); [apply HR | reflexivity] | exact IH].
Qed.

(** X9.  What a query may change in the store: nothing in the rows of other
    workspaces, and in the rows of its own workspace the credentials column
    only; key, status and connection time stay, no row is added or removed. *)
Theorem query_touches_own_credentials env props w :
  only_touches (own "workspace_id" props) same_but_credentials
               (store w) (store (snd (query env (JObj props) w))).
Proof.
  destruct (query_store env props w) as [Hs | (r & stored & fresh & _ & _ & Hs)];
    cbv zeta in Hs; rewrite Hs.
  - apply only_touches_refl. intros r. repeat split.
  - apply only_touches_update. intros r0. repeat split.
Qed.

(** X10.  The lookup call itself rejects (the store cannot be reached): the
    answer is 500 with the rejection's message, and the request ends there,
    with no call to the identity provider or to the analytics APIs and with
    the store as it was. *)
Theorem query_store_unreachable env props w e :
  store_fault env (Select (own "workspace_id" props)) = FaultReject e ->
  fst (query env (JObj props) w) = Ok (server_error e)
  /\ new_events w (snd (query env (JObj props) w))
     = [EvStore (Select (own "workspace_id" props));
        EvLogError (lit "Query error:") e]
  /\ store (snd (query env (JObj props) w)) = store w.
Proof.
  intros Hsel. rewrite query_unfold. unfold query_failed. run_m. rewrite Hsel. run_m.
  events. repeat split; reflexivity.
Qed.

Lemma query_store_unreachable_witness :
  fst (query (Scenario.env (fun _ => FaultReject Scenario.store_error))
             (JObj Scenario.unknown_request) (Scenario.world Scenario.valid))
  = Ok (Json 500 (JObj [(lit "error", JStr (lit "connection refused"))])).
Proof.
  exact (proj1 (query_store_unreachable
                  (Scenario.env (fun _ => FaultReject Scenario.store_error))
                  Scenario.unknown_request (Scenario.world Scenario.valid)
                  Scenario.store_error eq_refl)).
Defined.

(** X11.  A refresh that the identity provider rejects ends the request: the
    answer is 500 with the rejection's message, the stored credentials are not
    touched, and no analytics call is made with the expired token. *)
Theorem query_refresh_rejected env props w r stored e :
  let ws := own "workspace_id" props in
  store_fault env (Select ws) = NoFault ->
  filter (matches ws) (store w) = [r] ->
  row_credentials r = Some stored ->
  expired env (expiry_date stored) = true ->
  refreshAccessToken env stored = Rejects e ->
  fst (query env (JObj props) w) = Ok (server_error e)
  /\ new_events w (snd (query env (JObj props) w))
     = [EvStore (Select ws); EvRefresh stored; EvLogError (lit "Query error:") e]
  /\ store (snd (query env (JObj props) w)) = store w.
Proof.
  intros ws Hsel Hrow Hcred Hexp Hf. rewrite query_unfold. fold ws.
  unfold refresh_block, query_failed. run_m. rewrite Hsel.
  cbn [store_answer store_effect]. unfold select_single. rewrite Hrow.
  cbn [res_error res_data]. rewrite Hcred, Hexp, credentials_eta. run_m.
  rewrite Hf. run_m. events. repeat split; reflexivity.
Qed.

Lemma query_refresh_rejected_witness :
  fst (query Scenario.idp_down (JObj (Scenario.top_pages (JNum 5)))
             (Scenario.world Scenario.stale))
  = Ok (Json 500 (JObj [(lit "error", JStr (lit "invalid_grant"))])).
Proof.
  exact (proj1 (query_refresh_rejected Scenario.idp_down
                  (Scenario.top_pages (JNum 5)) (Scenario.world Scenario.stale)
                  (mkRow (JStr (lit "w2")) platform Connected (Some Scenario.stale)
                         (lit "2023-11-01T09:00:00.000Z"))
                  Scenario.stale Scenario.code_refused
                  eq_refl eq_refl eq_refl eq_refl eq_refl)).
Defined.

(** X12.  After a refresh that resolved, the request goes on with the tokens
    of the refresh response on the client: every analytics call of the run is
    made with them, also when the store answered the update of the stored
    tokens with an error, in which case the store keeps the expired tokens. *)
Theorem query_uses_refreshed_tokens env props w r stored fresh :
  let ws := own "workspace_id" props in
  let w' := snd (query env (JObj props) w) in
  store_fault env (Select ws) = NoFault ->
  filter (matches ws) (store w) = [r] ->
  row_credentials r = Some stored ->
  expired env (expiry_date stored) = true ->
  refreshAccessToken env stored = Resolves fresh ->
  Forall (authenticated_with fresh) (new_events w w')
  /\ client w' = fresh
  /\ (forall e, store_fault env (Update ws (refresh_patch stored fresh)) = FaultError e ->
      store w' = store w
      /\ exists status body,
           fst (query env (JObj props) w) = Ok (Json status body)
           /\ In status [200; 400; 500]).
Proof.
  intros ws w' Hsel Hrow Hcred Hexp Hf. subst w'.
  assert (Hrun : exists s pre,
            (query env (JObj props) w
             = try_catch (dispatch env (own "tool" props) (own "params" props))
                         query_failed (mkWorld s fresh (trace w ++ pre))
             \/ exists e, query env (JObj props) w
                          = (Ok (server_error e),
                             mkWorld s fresh
                                     (trace w ++ pre ++ [EvLogError (lit "Query error:") e])))
            /\ pre = [EvStore (Select ws); EvRefresh stored;
                      EvStore (Update ws (refresh_patch stored fresh))]
            /\ ((exists e, store_fault env (Update ws (refresh_patch stored fresh))
                           = FaultError e) ->
                s = store w
                /\ query env (JObj props) w
                   = try_catch (dispatch env (own "tool" props) (own "params" props))
                               query_failed (mkWorld s fresh (trace w ++ pre)))).
  { rewrite query_unfold. fold ws. unfold refresh_block, query_failed. run_m.
    rewrite Hsel. cbn [store_answer store_effect]. unfold select_single.
    rewrite Hrow. cbn [res_error res_data]. rewrite Hcred, Hexp, credentials_eta.
    run_m. rewrite Hf. run_m.
    destruct (store_fault env (Update ws (refresh_patch stored fresh))) eqn:Hu;
      cbn [store_answer store_effect]; run_m; repeat rewrite <- app_assoc; cbn [app];
      do 2 eexists; (split; [| split; [reflexivity|]]).
    - left. reflexivity.
    - intros (e' & He'). discriminate He'.
    - left. reflexivity.
    - intros _. split; reflexivity.
    - right. exists e. reflexivity.
    - intros (e' & He'). discriminate He'. }
  destruct Hrun as (s & pre & Hq & Hpre & Herr).
  assert (Hpre_ok : Forall (authenticated_with fresh) pre)
    by (rewrite Hpre; repeat constructor).
  destruct (caught_dispatch env (own "tool" props) (own "params" props)
              (mkWorld s fresh (trace w ++ pre)))
    as (resp & new & Hd & Hauth & _ & _ & _ & _ & _ & status & body & Hresp & Hin).
  cbn [store client trace] in Hd, Hauth.
  split; [| split].
  - destruct Hq as [-> | (e & ->)].
    + rewrite Hd. cbn [snd]. rewrite <- app_assoc, new_events_app.
      apply Forall_app; split; assumption.
    + cbn [snd]. rewrite new_events_app. apply Forall_app; split;
        [assumption | repeat constructor].
  - destruct Hq as [-> | (e & ->)]; [rewrite Hd |]; reflexivity.
  - intros e He. destruct (Herr (ex_intro _ e He)) as (Hs & ->).
    rewrite Hd. cbn [fst snd store]. split; [exact Hs|].
    exists status, body. split; [rewrite Hresp; reflexivity | exact Hin].
Qed.

Lemma query_uses_refreshed_tokens_witness :
  Forall (authenticated_with Scenario.fresh)
         (new_events (Scenario.world Scenario.stale)
            (snd (query Scenario.writes_failing (JObj (Scenario.top_pages (JNum 5)))
                        (Scenario.world Scenario.stale))))
  /\ store (snd (query Scenario.writes_failing (JObj (Scenario.top_pages (JNum 5)))
                       (Scenario.world Scenario.stale)))
     = store (Scenario.world Scenario.stale).
Proof.
  pose proof (query_uses_refreshed_tokens Scenario.writes_failing
                (Scenario.top_pages (JNum 5)) (Scenario.world Scenario.stale)
                (mkRow (JStr (lit "w2")) platform Connected (Some Scenario.stale)
                       (lit "2023-11-01T09:00:00.000Z"))
                Scenario.stale Scenario.fresh
                eq_refl eq_refl eq_refl eq_refl eq_refl) as (Hauth & _ & Hkeep).
  split; [exact Hauth | exact (proj1 (Hkeep Scenario.store_error eq_refl))].
Defined.

(** ** The tools *)

Ltac pick_tool :=
  unfold dispatch;
  repeat match goal with
  | |- context [tool_is (JStr (lit ?t)) ?n] =>
      let b := eval vm_compute in (tool_is (JStr (lit t)) n) in
      change (tool_is (JStr (lit t)) n) with b
  end;
  cbv iota.

(** X13.  [list_properties] does not read [params]: with credentials that
    need no refresh the request makes the account-summaries call with the
    stored credentials and answers with its data, or with 500 and the
    rejection's message, whether [params] is an object, absent or anything
    else. *)
Theorem query_list_properties env props w r stored :
  let ws := own "workspace_id" props in
  own "tool" props = JStr (lit "list_properties") ->
  store_fault env (Select ws) = NoFault ->
  filter (matches ws) (store w) = [r] ->
  row_credentials r = Some stored ->
  expired env (expiry_date stored) = false ->
  filter is_analytics_call (new_events w (snd (query env (JObj props) w)))
  = [EvListSummaries stored]
  /\ fst (query env (JObj props) w)
     = match accountSummaries_list env stored with
       | Resolves result => Ok (send_data result)
       | Rejects e => Ok (server_error e)
       end
  /\ store (snd (query env (JObj props) w)) = store w.
Proof.
  intros ws Htool Hsel Hrow Hcred Hexp.
  rewrite (query_fresh env props w r stored Hsel Hrow Hcred Hexp), Htool.
  pick_tool. unfold query_failed. run_m.
  destruct (accountSummaries_list env stored); run_m; events;
    repeat split; reflexivity.
Qed.

Lemma query_list_properties_witness :
  fst (query Scenario.healthy
             (JObj [(lit "workspace_id", JStr (lit "w2"));
                    (lit "tool", JStr (lit "list_properties"))])
             (Scenario.world Scenario.valid))
  = Ok (Json 200 (JObj [(lit "data", data Scenario.report)])).
Proof.
  exact (proj1 (proj2 (query_list_properties Scenario.healthy
                  [(lit "workspace_id", JStr (lit "w2"));
                   (lit "tool", JStr (lit "list_properties"))]
                  (Scenario.world Scenario.valid)
                  (mkRow (JStr (lit "w2")) platform Connected (Some Scenario.valid)
                         (lit "2023-11-01T09:00:00.000Z"))
                  Scenario.valid eq_refl eq_refl eq_refl eq_refl eq_refl))).
Defined.

(** X14.  A report tool called without [params] (absent or null): reading
    [params.property_id] throws inside the try block, so the answer is 500
    with the TypeError's message and no analytics call is made. *)
Theorem report_tool_without_params env props w r stored name :
  let ws := own "workspace_id" props in
  In name report_tools ->
  own "tool" props = JStr (lit name) ->
  own "params" props = JUndefined \/ own "params" props = JNull ->
  store_fault env (Select ws) = NoFault ->
  filter (matches ws) (store w) = [r] ->
  row_credentials r = Some stored ->
  expired env (expiry_date stored) = false ->
  exists e,
    err_name e = lit "TypeError"
    /\ fst (query env (JObj props) w) = Ok (server_error e)
    /\ new_events w (snd (query env (JObj props) w))
       = [EvStore (Select ws); EvLogError (lit "Query error:") e].
Proof.
  intros ws Hname Htool Hparams Hsel Hrow Hcred Hexp.
  rewrite (query_fresh env props w r stored Hsel Hrow Hcred Hexp), Htool.
  unfold report_tools in Hname. cbn [In] in Hname.
  destruct Hname as [<- | [<- | [<- | []]]]; destruct Hparams as [-> | ->];
    pick_tool; unfold report_request, property_of, query_failed;
    cbn [get_prop res_bind]; run_m; events;
    eexists; (split; [| split; reflexivity]); reflexivity.
Qed.

Lemma report_tool_without_params_witness :
  exists e,
    err_name e = lit "TypeError"
    /\ fst (query Scenario.healthy
                  (JObj [(lit "workspace_id", JStr (lit "w2"));
                         (lit "tool", JStr (lit "get_top_pages"))])
                  (Scenario.world Scenario.valid))
       = Ok (server_error e)
    /\ new_events (Scenario.world Scenario.valid)
         (snd (query Scenario.healthy
                     (JObj [(lit "workspace_id", JStr (lit "w2"));
                            (lit "tool", JStr (lit "get_top_pages"))])
                     (Scenario.world Scenario.valid)))
       = [EvStore (Select (JStr (lit "w2"))); EvLogError (lit "Query error:") e].
Proof.
  exact (report_tool_without_params Scenario.healthy
           [(lit "workspace_id", JStr (lit "w2"));
            (lit "tool", JStr (lit "get_top_pages"))]
           (Scenario.world Scenario.valid)
           (mkRow (JStr (lit "w2")) platform Connected (Some Scenario.valid)
                  (lit "2023-11-01T09:00:00.000Z"))
           Scenario.valid "get_top_pages"
           (or_intror (or_introl eq_refl)) eq_refl (or_introl eq_refl)
           eq_refl eq_refl eq_refl eq_refl).
Defined.

(** The report call of a tool, for a params object whose [property_id]
    prints. *)
Lemma report_run env w pp pid (ms ds : list string) (with_limit : bool) :
  to_string (own "property_id" pp) = Ok pid ->
  let request :=
    mkReport (lit "properties/" ++ pid)
             (js_or (own "start_date" pp) (JStr (lit "30daysAgo")))
             (js_or (own "end_date" pp) (JStr (lit "today")))
             (map lit ms) (map lit ds)
             (if with_limit then Some (js_or (own "limit" pp) (JNum 10)) else None) in
  try_catch (r <- lift (report_request (JObj pp) ms ds with_limit) ;;
             result <- run_report env r ;;
             ret (send_data result))
            query_failed w
  = match runReport env (client w) request with
    | Resolves result =>
        (Ok (send_data result),
         mkWorld (store w) (client w) (trace w ++ [EvRunReport (client w) request]))
    | Rejects e =>
        (Ok (server_error e),
         mkWorld (store w) (client w)
                 (trace w ++ [EvRunReport (client w) request;
                              EvLogError (lit "Query error:") e]))
    end.
Proof.
  intros Hpid request.
  unfold report_request, property_of, param_or, run_report, query_failed.
  cbn [get_prop res_bind]. rewrite Hpid. cbn [res_bind].
  destruct with_limit; cbn [res_bind]; fold request; run_m;
    destruct (runReport env (client w) request); run_m;
    repeat rewrite <- app_assoc; reflexivity.
Qed.

(** X15.  [get_traffic_overview] with a params object and credentials that
    need no refresh: one report call, for the property, the caller's dates
    where truthy (else [30daysAgo] and [today]), the metrics sessions,
    activeUsers, screenPageViews and bounceRate by date, and no row limit,
    whatever [limit] the caller sent; the answer is the call's data, or 500
    with the rejection's message. *)
Theorem query_traffic_overview env props pp w r stored pid :
  let ws := own "workspace_id" props in
  own "tool" props = JStr (lit "get_traffic_overview") ->
  own "params" props = JObj pp ->
  to_string (own "property_id" pp) = Ok pid ->
  store_fault env (Select ws) = NoFault ->
  filter (matches ws) (store w) = [r] ->
  row_credentials r = Some stored ->
  expired env (expiry_date stored) = false ->
  let request :=
    mkReport (lit "properties/" ++ pid)
             (js_or (own "start_date" pp) (JStr (lit "30daysAgo")))
             (js_or (own "end_date" pp) (JStr (lit "today")))
             [lit "sessions"; lit "activeUsers"; lit "screenPageViews"; lit "bounceRate"]
             [lit "date"] None in
  filter is_analytics_call (new_events w (snd (query env (JObj props) w)))
  = [EvRunReport stored request]
  /\ fst (query env (JObj props) w)
     = match runReport env stored request with
       | Resolves result => Ok (send_data result)
       | Rejects e => Ok (server_error e)
       end.
Proof.
  intros ws Htool Hparams Hpid Hsel Hrow Hcred Hexp request.
  rewrite (query_fresh env props w r stored Hsel Hrow Hcred Hexp), Htool, Hparams.
  pick_tool. rewrite (report_run env _ pp pid _ _ false Hpid).
  cbn [client map]. fold request.
  destruct (runReport env stored request); events; split; reflexivity.
Qed.

Lemma query_traffic_overview_witness :
  filter is_analytics_call
    (new_events (Scenario.world Scenario.valid)
       (snd (query Scenario.healthy
                   (JObj (Scenario.tool_request "get_traffic_overview"
                            (JObj (Scenario.top_pages_params (JNum 5)))))
                   (Scenario.world Scenario.valid))))
  = [EvRunReport Scenario.valid
       (mkReport (lit "properties/123") (JStr (lit "30daysAgo")) (JStr (lit "today"))
                 [lit "sessions"; lit "activeUsers"; lit "screenPageViews";
                  lit "bounceRate"]
                 [lit "date"] None)].
Proof.
  exact (proj1 (query_traffic_overview Scenario.healthy
                  (Scenario.tool_request "get_traffic_overview"
                     (JObj (Scenario.top_pages_params (JNum 5))))
                  (Scenario.top_pages_params (JNum 5)) (Scenario.world Scenario.valid)
                  (mkRow (JStr (lit "w2")) platform Connected (Some Scenario.valid)
                         (lit "2023-11-01T09:00:00.000Z"))
                  Scenario.valid (lit "123")
                  eq_refl eq_refl eq_refl eq_refl eq_refl eq_refl eq_refl)).
Defined.

(** X16.  [get_traffic_sources] with a params object and credentials that
    need no refresh: one report call, for the property, the caller's dates
    where truthy (else [30daysAgo] and [today]), the metrics sessions and
    activeUsers by sessionSource and sessionMedium, and no row limit; the
    answer is the call's data, or 500 with the rejection's message. *)
Theorem query_traffic_sources env props pp w r stored pid :
  let ws := own "workspace_id" props in
  own "tool" props = JStr (lit "get_traffic_sources") ->
  own "params" props = JObj pp ->
  to_string (own "property_id" pp) = Ok pid ->
  store_fault env (Select ws) = NoFault ->
  filter (matches ws) (store w) = [r] ->
  row_credentials r = Some stored ->
  expired env (expiry_date stored) = false ->
  let request :=
    mkReport (lit "properties/" ++ pid)
             (js_or (own "start_date" pp) (JStr (lit "30daysAgo")))
             (js_or (own "end_date" pp) (JStr (lit "today")))
             [lit "sessions"; lit "activeUsers"]
             [lit "sessionSource"; lit "sessionMedium"] None in
  filter is_analytics_call (new_events w (snd (query env (JObj props) w)))
  = [EvRunReport stored request]
  /\ fst (query env (JObj props) w)
     = match runReport env stored request with
       | Resolves result => Ok (send_data result)
       | Rejects e => Ok (server_error e)
       end.
Proof.
  intros ws Htool Hparams Hpid Hsel Hrow Hcred Hexp request.
  rewrite (query_fresh env props w r stored Hsel Hrow Hcred Hexp), Htool, Hparams.
  pick_tool. rewrite (report_run env _ pp pid _ _ false Hpid).
  cbn [client map]. fold request.
  destruct (runReport env stored request); events; split; reflexivity.
Qed.

Lemma query_traffic_sources_witness :
  filter is_analytics_call
    (new_events (Scenario.world Scenario.valid)
       (snd (query Scenario.healthy
                   (JObj (Scenario.tool_request "get_traffic_sources"
                            (JObj (Scenario.top_pages_params (JNum 5)))))
                   (Scenario.world Scenario.valid))))
  = [EvRunReport Scenario.valid
       (mkReport (lit "properties/123") (JStr (lit "30daysAgo")) (JStr (lit "today"))
                 [lit "sessions"; lit "activeUsers"]
                 [lit "sessionSource"; lit "sessionMedium"] None)].
Proof.
  exact (proj1 (query_traffic_sources Scenario.healthy
                  (Scenario.tool_request "get_traffic_sources"
                     (JObj (Scenario.top_pages_params (JNum 5))))
                  (Scenario.top_pages_params (JNum 5)) (Scenario.world Scenario.valid)
                  (mkRow (JStr (lit "w2")) platform Connected (Some Scenario.valid)
                         (lit "2023-11-01T09:00:00.000Z"))
                  Scenario.valid (lit "123")
                  eq_refl eq_refl eq_refl eq_refl eq_refl eq_refl eq_refl)).
Defined.

(** X17.  No tool checks that [property_id] is there: for each report tool
    a params object without [property_id] still produces exactly one report
    call, for the property [properties/undefined]. *)
Theorem report_without_property_id env props pp w r stored name :
  let ws := own "workspace_id" props in
  In name report_tools ->
  own "tool" props = JStr (lit name) ->
  own "params" props = JObj pp ->
  lookup (lit "property_id") pp = None ->
  store_fault env (Select ws) = NoFault ->
  filter (matches ws) (store w) = [r] ->
  row_credentials r = Some stored ->
  expired env (expiry_date stored) = false ->
  exists request,
    filter is_analytics_call (new_events w (snd (query env (JObj props) w)))
    = [EvRunReport stored request]
    /\ property request = lit "properties/undefined".
Proof.
  intros ws Hname Htool Hparams Hid Hsel Hrow Hcred Hexp.
  assert (Hpid : to_string (own "property_id" pp) = Ok (lit "undefined")).
  { unfold own. rewrite Hid. reflexivity. }
  rewrite (query_fresh env props w r stored Hsel Hrow Hcred Hexp), Htool, Hparams.
  unfold report_tools in Hname. cbn [In] in Hname.
  destruct Hname as [<- | [<- | [<- | []]]]; pick_tool;
    rewrite (report_run env _ pp _ _ _ _ Hpid); cbn [client];
    eexists; (split; [destruct (runReport env stored _); events; reflexivity |]);
    reflexivity.
Qed.

Lemma report_without_property_id_witness :
  exists request,
    filter is_analytics_call
      (new_events (Scenario.world Scenario.valid)
         (snd (query Scenario.healthy
                     (JObj (Scenario.tool_request "get_traffic_sources" (JObj [])))
                     (Scenario.world Scenario.valid))))
    = [EvRunReport Scenario.valid request]
    /\ property request = lit "properties/undefined".
Proof.
  exact (report_without_property_id Scenario.healthy
           (Scenario.tool_request "get_traffic_sources" (JObj [])) []
           (Scenario.world Scenario.valid)
           (mkRow (JStr (lit "w2")) platform Connected (Some Scenario.valid)
                  (lit "2023-11-01T09:00:00.000Z"))
           Scenario.valid "get_traffic_sources"
           (or_intror (or_intror (or_introl eq_refl))) eq_refl eq_refl eq_refl
           eq_refl eq_refl eq_refl eq_refl).
Defined.

(** ** Initiation and callback of the bridge variant *)


Lemma callbackB_success env q w ws org ru tokens response target :
  read_stateB (query_get q (lit "state")) = Ok (ws, org, ru) ->
  getToken env (query_get q (lit "code")) = Resolves tokens ->
  fetch env (LOVABLE_FUNCTION_URL env) (MCP_BRIDGE_SECRET env)
        (bridge_body ws org tokens) = Resolves response ->
  ok response = true ->
  to_string ru = Ok target ->
  callbackB env q w
  = (Ok (Redirect (target ++ lit "?success=true")),
     mkWorld (store w) (client w)
             (trace w ++ [EvGetToken (query_get q (lit "code"));
                          EvFetch (LOVABLE_FUNCTION_URL env) (MCP_BRIDGE_SECRET env)
                                  (bridge_body ws org tokens)])).
Proof.
  intros Hst Htok Hf Hok Ht. unfold callbackB, redirect_with. rewrite Hst. run_m.
  rewrite Htok. run_m. fold (bridge_body ws org tokens). rewrite Hf. run_m.
  rewrite Hok. cbn [negb]. run_m. rewrite Ht. rewrite <- app_assoc. reflexivity.
Qed.

(** X18.  Bridge variant, initiation followed by callback.  For a request
    with non-empty well-formed [workspace_id] and [redirect_url] and an
    optional [organization_id], the initiator hands a state to the URL builder
    such that a callback carrying that state, with a code the identity
    provider accepts, posts exactly once, to the bridge, the body made of that
    workspace, that organization and the exchanged tokens, and on an ok
    response redirects to [redirect_url?success=true] with the store
    untouched. *)
Theorem init_then_bridge_callback env q w0 wid (o : option JsString) url :
  query_get q (lit "workspace_id") = JStr wid -> wid <> [] ->
  query_get q (lit "organization_id") = field_val o ->
  query_get q (lit "redirect_url") = JStr url -> url <> [] ->
  well_formed wid = true -> field_wf o = true -> well_formed url = true ->
  exists st,
    authInitB env q w0 = (Ok (auth_url_for env st), w0)
    /\ forall code w tokens response,
         getToken env (JStr code) = Resolves tokens ->
         fetch env (LOVABLE_FUNCTION_URL env) (MCP_BRIDGE_SECRET env)
               (bridge_body (JStr wid) (field_val o) tokens) = Resolves response ->
         ok response = true ->
         callbackB env [(lit "code", code); (lit "state", st)] w
         = (Ok (Redirect (url ++ lit "?success=true")),
            mkWorld (store w) (client w)
                    (trace w ++ [EvGetToken (JStr code);
                                 EvFetch (LOVABLE_FUNCTION_URL env)
                                         (MCP_BRIDGE_SECRET env)
                                         (bridge_body (JStr wid) (field_val o) tokens)])).
Proof.
  intros Hq1 Hn1 Hq2 Hq3 Hn3 Hw Ho Hu.
  destruct (stateB_reads_back wid o url Hw Ho Hu) as (st & Henc & Hdec).
  exists st. split.
  - unfold authInitB. rewrite Hq1, Hq2, Hq3, Henc.
    destruct wid; [congruence|]. destruct url; [congruence|]. reflexivity.
  - intros code w tokens response Htok Hf Hok.
    apply (callbackB_success env [(lit "code", code); (lit "state", st)] w
             (JStr wid) (field_val o) (JStr url) tokens response url);
      [exact Hdec | exact Htok | exact Hf | exact Hok | reflexivity].
Qed.

Lemma init_then_bridge_callback_witness :
  exists st,
    authInitB Scenario.healthy Scenario.init_query Scenario.empty_world
    = (Ok (auth_url_for Scenario.healthy st), Scenario.empty_world)
    /\ fst (callbackB Scenario.healthy
                      [(lit "code", lit "4/0AX4XfWh"); (lit "state", st)]
                      Scenario.empty_world)
       = Ok (Redirect (lit "https://app/x?success=true")).
Proof.
  destruct (init_then_bridge_callback Scenario.healthy Scenario.init_query
              Scenario.empty_world (lit "w1") (Some (lit "o1")) (lit "https://app/x")
              eq_refl ltac:(discriminate) eq_refl eq_refl ltac:(discriminate)
              eq_refl eq_refl eq_refl) as (st & Hinit & Hcb).
  exists st. split; [exact Hinit|].
  rewrite (Hcb (lit "4/0AX4XfWh") Scenario.empty_world Scenario.tokens
               (mkFetchResponse true (Resolves JNull)) eq_refl eq_refl eq_refl).
  reflexivity.
Defined.

(** ** The direct-store callback on a state without the fields *)

(** X19.  Direct-store variant: the callback does not check what the state
    carries.  A state that decodes to a value without [workspace_id] and
    [redirect_url] (an empty object, a number) still has the code exchanged
    and, when the store carries out the upsert, a record written under the
    workspace [undefined]; the browser is sent to [undefined?success=true]. *)
Theorem callbackA_state_without_fields env q w parsed tokens :
  decode_state (query_get q (lit "state")) = Ok parsed ->
  get_prop parsed "workspace_id" = Ok JUndefined ->
  get_prop parsed "redirect_url" = Ok JUndefined ->
  getToken env (query_get q (lit "code")) = Resolves tokens ->
  store_fault env (Upsert (connected_row env JUndefined tokens)) = NoFault ->
  fst (callbackA env q w) = Ok (Redirect (lit "undefined?success=true"))
  /\ store (snd (callbackA env q w))
     = upsert_rows (connected_row env JUndefined tokens) (store w)
  /\ count_calls is_token_exchange (new_events w (snd (callbackA env q w))) = 1%nat.
Proof.
  intros Hd Hws Hru Htok Hf.
  assert (Hst : read_stateA (query_get q (lit "state")) = Ok (JUndefined, JUndefined)).
  { unfold read_stateA. rewrite Hd. cbn [res_bind]. rewrite Hws. cbn [res_bind].
    rewrite Hru. reflexivity. }
  rewrite (callbackA_success env q w JUndefined JUndefined tokens (lit "undefined")
             Hst Htok Hf eq_refl).
  events. repeat split; reflexivity.
Qed.

Lemma callbackA_state_without_fields_witness :
  fst (callbackA Scenario.healthy [(lit "code", lit "4/0AX4XfWh"); (lit "state", lit "e30=")]
                 Scenario.empty_world)
  = Ok (Redirect (lit "undefined?success=true")).
Proof.
  exact (proj1 (callbackA_state_without_fields Scenario.healthy
                  [(lit "code", lit "4/0AX4XfWh"); (lit "state", lit "e30=")]
                  Scenario.empty_world (JObj []) Scenario.tokens
                  eq_refl eq_refl eq_refl eq_refl eq_refl)).
Defined.

(** ** Disconnect *)

(** X20.  A disconnect that the store carries out answers 200 and changes
    the rows of its own workspace only: they lose their credentials and become
    [disconnected], keeping key and connection time; every other row, and the
    number of rows, stays.  The update is the only call of the request. *)
Theorem disconnect_clears_own_rows env props w :
  let ws := own "workspace_id" props in
  let w' := snd (disconnect env (JObj props) w) in
  store_fault env (Update ws disconnect_patch) = NoFault ->
  fst (disconnect env (JObj props) w) = Ok disconnected
  /\ only_touches ws cleared (store w) (store w')
  /\ client w' = client w
  /\ new_events w w' = [EvStore (Update ws disconnect_patch)].
Proof.
  intros ws w' Hf. subst w'. rewrite disconnect_run. fold ws. rewrite Hf. events.
  repeat split. apply only_touches_update. intros r. repeat split.
Qed.

Lemma disconnect_clears_own_rows_witness :
  only_touches (JStr (lit "w2")) cleared
    (store (Scenario.two_workspaces Scenario.valid))
    (store (snd (disconnect Scenario.healthy (JObj Scenario.disconnect_request)
                            (Scenario.two_workspaces Scenario.valid)))).
Proof.
  exact (proj1 (proj2 (disconnect_clears_own_rows Scenario.healthy
                         Scenario.disconnect_request
                         (Scenario.two_workspaces Scenario.valid) eq_refl))).
Defined.

(** X21.  Disconnect followed by query: once a disconnect was carried out,
    a query for the same workspace is answered 401 after its lookup, with no
    call to the identity provider or the analytics APIs, until the workspace
    is connected again. *)
Theorem disconnect_then_query env env' props props' w :
  let ws := own "workspace_id" props in
  let w1 := snd (disconnect env (JObj props) w) in
  own "workspace_id" props' = ws ->
  store_fault env (Update ws disconnect_patch) = NoFault ->
  (forall e, store_fault env' (Select ws) <> FaultReject e) ->
  fst (query env' (JObj props') w1) = Ok not_connected
  /\ new_events w1 (snd (query env' (JObj props') w1)) = [EvStore (Select ws)].
Proof.
  intros ws w1 Hws Hf Hsel.
  assert (Hnone : forall r, In r (store w1) -> matches ws r = true ->
                            row_credentials r = None).
  { subst w1. rewrite disconnect_run. fold ws. rewrite Hf. cbn [snd store].
    intros r Hin Hm. apply (disconnect_clears ws (store w) r Hin Hm). }
  rewrite <- Hws in Hnone, Hsel.
  rewrite (query_not_connected_run env' props' w1 Hnone Hsel), Hws. events.
  split; reflexivity.
Qed.

Lemma disconnect_then_query_witness :
  fst (query Scenario.healthy (JObj (Scenario.top_pages (JNum 5)))
             (snd (disconnect Scenario.healthy (JObj Scenario.disconnect_request)
                              (Scenario.world Scenario.valid))))
  = Ok not_connected.
Proof.
  exact (proj1 (disconnect_then_query Scenario.healthy Scenario.healthy
                  Scenario.disconnect_request (Scenario.top_pages (JNum 5))
                  (Scenario.world Scenario.valid) eq_refl eq_refl
                  ltac:(intros e; discriminate))).
Defined.
